(** * Lena (5G-LENA / ns-3 mmWave module): component carriers, bandwidth parts,
      HARQ feedback routing

    A shallow embedding of the configuration model of
    [ComponentCarrierBandwidthPartCreator] (mmwave-helper.cc), of the lookups
    of [MmWaveUeNetDevice] (mmwave-ue-net-device.cc) and of the transport-block
    bookkeeping declared in mmwave-spectrum-phy.h; then of the functions that
    build and read the configuration model, of the configuration that
    [MmWaveUeNetDevice] hands down to its NAS and RRC, of the bandwidth parts
    of [MmWaveHelper] and of [MmWaveDrbActivator].

    Conventions of the embedding
    - [uint8_t], [uint16_t] and [uint32_t] values are integers of [Z]; every
      assignment into such a variable is written with its wrap-around
      ([uint8], [uint16], [uint32]).
    - Frequencies are [double] in the source.  They hold whole numbers of Hz
      far below 2^53, where the subtraction and the comparisons of [double]
      are exact, so they are integers of [Z] here.
    - [NS_ABORT_MSG], [NS_ABORT_MSG_IF], [NS_ASSERT] and the exception of
      [std::vector::at] / [std::map::at] end the program: a function that can
      reach one of them returns a [Result], whose [Fail] carries which one.
    - [std::vector] is [list], read with stdpp's lookup [l !! i];
      [std::unordered_map] and [std::map] are [gmap]. *)

From stdpp Require Import base option list sorting strings gmap.
From Stdlib Require Import ZArith Lia.

Local Open Scope Z_scope.

(** ** Machine integers *)

Definition uint8 (z : Z) : Z := z mod 2 ^ 8.
Definition uint16 (z : Z) : Z := z mod 2 ^ 16.
Definition uint32 (z : Z) : Z := z mod 2 ^ 32.

(** ** Aborts and results *)

(** One constructor per abort message of the source, plus the exception of
    [at] and the assertion of [EnqueueDlHarqFeedback]. *)
Inductive Abort : Set :=
  | NoCcInformation          (* "No CC information provided" *)
  | CcCountMismatch          (* "The declared number of intra-band CCs does not match ..." *)
  | CcsOverlap               (* "CCs overlap" *)
  | BwpCountInvalid          (* "The number of BWPs exceeds the maximum value (4)" *)
  | BwpOutOfCc               (* "BWP part is out of the CC" *)
  | AggregatedBwpTooLarge    (* "Aggregated BWP is larger than carrier bandwidth" *)
  | ActiveBwpNotInCc         (* "The active BWP id was not found in the CC" *)
  | BwpsOverlap              (* "BWPs shall not overlap" *)
  | RepeatedBwpId            (* "Repeated BWP id" *)
  | MaxBwpsReached           (* "Maximum number of BWPs reached (4)" *)
  | NumBandsMismatch         (* "The number of bands does not match the number of bands created" *)
  | TooManyBands             (* "The number of bands is larger than the maximum number" *)
  | BandsOverlap             (* "Bands shall not overlap" *)
  | TooManyAggregatedCcs     (* "The number of allowed aggregated CCs was exceeded" *)
  | NotOnePrimaryCc          (* "There must be one primary CC" *)
  | TooFewCcs                (* "There should be more than 1 CC to determine if they are contiguous" *)
  | NoBandInformation        (* "No operation band information provided" *)
  | MissingCcInformation     (* "Missing some CC information" *)
  | MissingBwpInformation    (* "Missing some BWP information" *)
  | NoActiveBwpInPrimaryCc   (* "No active BWP information found in the primary CC" *)
  | WrongBandIndex           (* "Wrong operation band index" *)
  | NoCarrierInformation     (* "No carrier band information provided" *)
  | WrongCcIndex             (* "Wrong component carrier index" *)
  | ActiveBwpNotFound        (* "Active BWP id is not found in the current CC" *)
  | WrongChangeRequest       (* "Could not change the active BWP due to wrong request" *)
  | OutOfRange               (* std::out_of_range thrown by at() *)
  | AssertionFailed.         (* NS_ASSERT *)

Inductive Result (A : Type) : Type :=
  | Ok (a : A)
  | Fail (e : Abort).
Arguments Ok {A} a.
Arguments Fail {A} e.

#[global] Instance Result_ret : MRet Result := fun A a => Ok a.
#[global] Instance Result_bind : MBind Result := fun A B f m =>
  match m with
  | Ok a => f a
  | Fail e => Fail e
  end.
#[global] Instance Result_fmap : FMap Result := fun A B f m =>
  match m with
  | Ok a => Ok (f a)
  | Fail e => Fail e
  end.

Definition is_Ok {A} (r : Result A) : bool :=
  match r with Ok _ => true | Fail _ => false end.

(** [NS_ABORT_MSG_IF (cond, msg)]. *)
Definition abort_if (cond : bool) (e : Abort) : Result unit :=
  if cond then Fail e else Ok tt.

(** [v.at (i)]. *)
Definition at_ {A} (v : list A) (i : nat) : Result A :=
  match v !! i with
  | Some a => Ok a
  | None => Fail OutOfRange
  end.
Arguments at_ : simpl never.

(** ** [std::sort]

    [std::sort (first, last, comp)] leaves the order of equivalent elements
    unspecified.  The embedding is the insertion sort that keeps equivalent
    elements in their input order (the insertion sort that libstdc++ runs on
    a vector of at most 16 elements does so).  For elements with distinct
    keys the order is the only sorted one, whatever the implementation
    ([std_sort_unique] below).  On a longer vector with equal keys a library
    may order the equal keys otherwise: what depends on that order is stated
    for every sort that meets the contract of [std::sort] ([sorts_by]
    below). *)

Fixpoint insert_by {A} (comp : A -> A -> bool) (x : A) (l : list A) : list A :=
  match l with
  | [] => [x]
  | y :: l' => if comp y x then y :: insert_by comp x l' else x :: l
  end.

Fixpoint std_sort {A} (comp : A -> A -> bool) (l : list A) : list A :=
  match l with
  | [] => []
  | x :: l' => insert_by comp x (std_sort comp l')
  end.

(** The contract of [std::sort (first, last, comp)]: the range holds the same
    elements afterwards, and no element is ordered by [comp] before one that
    precedes it.  [sort] is the sort of a library: [std_sort] is one, and
    libstdc++'s introsort is another. *)
Definition sorts_by {A} (comp : A -> A -> bool) (sort : list A -> list A) : Prop :=
  forall l, sort l ≡ₚ l /\ StronglySorted (fun a b => comp b a = false) (sort l).

(** ** Data model

    The structures are declared in mmwave-helper.h; the fields are the ones
    that the functions below read and write, with the types that their uses
    in mmwave-helper.cc give them. *)

Inductive ContiguousMode : Set := CONTIGUOUS | NON_CONTIGUOUS.

Inductive CarrierRole : Set := PRIMARY | SECONDARY.

#[global] Instance ContiguousMode_eq_dec : EqDecision ContiguousMode.
Proof. solve_decision. Defined.
#[global] Instance CarrierRole_eq_dec : EqDecision CarrierRole.
Proof. solve_decision. Defined.
#[global] Instance Abort_eq_dec : EqDecision Abort.
Proof. solve_decision. Defined.

Module Bwp.
Record ComponentCarrierBandwidthPartElement : Set := mk {
  m_bwpId : Z;              (* uint8_t *)
  m_numerology : Z;         (* uint8_t *)
  m_centralFrequency : Z;   (* double, Hz *)
  m_lowerFrequency : Z;     (* double, Hz *)
  m_higherFrequency : Z;    (* double, Hz *)
  m_bandwidth : Z           (* uint32_t, Hz *)
}.
End Bwp.
Abbreviation ComponentCarrierBandwidthPartElement := Bwp.ComponentCarrierBandwidthPartElement.

Module Cc.
Record ComponentCarrierInfo : Set := mk {
  m_ccId : Z;               (* uint8_t *)
  m_centralFrequency : Z;   (* double, Hz *)
  m_lowerFrequency : Z;     (* double, Hz *)
  m_higherFrequency : Z;    (* double, Hz *)
  m_bandwidth : Z;          (* uint32_t, Hz *)
  m_numBwps : Z;            (* uint8_t *)
  m_activeBwp : Z;          (* uint8_t *)
  m_primaryCc : CarrierRole;
  m_bwp : list ComponentCarrierBandwidthPartElement
}.

Definition set_bwp (cc : ComponentCarrierInfo) (v : list ComponentCarrierBandwidthPartElement)
  : ComponentCarrierInfo :=
  mk (m_ccId cc) (m_centralFrequency cc) (m_lowerFrequency cc) (m_higherFrequency cc)
     (m_bandwidth cc) (m_numBwps cc) (m_activeBwp cc) (m_primaryCc cc) v.

Definition set_activeBwp (cc : ComponentCarrierInfo) (v : Z) : ComponentCarrierInfo :=
  mk (m_ccId cc) (m_centralFrequency cc) (m_lowerFrequency cc) (m_higherFrequency cc)
     (m_bandwidth cc) (m_numBwps cc) v (m_primaryCc cc) (m_bwp cc).

Definition set_numBwps (cc : ComponentCarrierInfo) (v : Z) : ComponentCarrierInfo :=
  mk (m_ccId cc) (m_centralFrequency cc) (m_lowerFrequency cc) (m_higherFrequency cc)
     (m_bandwidth cc) v (m_activeBwp cc) (m_primaryCc cc) (m_bwp cc).
End Cc.
Abbreviation ComponentCarrierInfo := Cc.ComponentCarrierInfo.

Module Band.
Record OperationBandInfo : Set := mk {
  m_bandId : Z;             (* uint8_t *)
  m_centralFrequency : Z;   (* double, Hz *)
  m_bandwidth : Z;          (* uint32_t, Hz *)
  m_lowerFrequency : Z;     (* double, Hz *)
  m_higherFrequency : Z;    (* double, Hz *)
  m_numCarriers : Z;        (* uint8_t *)
  m_contiguousCc : ContiguousMode;
  m_cc : list ComponentCarrierInfo
}.

Definition set_cc (b : OperationBandInfo) (v : list ComponentCarrierInfo) : OperationBandInfo :=
  mk (m_bandId b) (m_centralFrequency b) (m_bandwidth b) (m_lowerFrequency b)
     (m_higherFrequency b) (m_numCarriers b) (m_contiguousCc b) v.

Definition set_contiguousCc (b : OperationBandInfo) (v : ContiguousMode) : OperationBandInfo :=
  mk (m_bandId b) (m_centralFrequency b) (m_bandwidth b) (m_lowerFrequency b)
     (m_higherFrequency b) (m_numCarriers b) v (m_cc b).
End Band.
Abbreviation OperationBandInfo := Band.OperationBandInfo.

(** The members of [ComponentCarrierBandwidthPartCreator]. *)
Record ComponentCarrierBandwidthPartCreator : Set := mkCreator {
  m_maxBands : Z;           (* uint8_t *)
  m_numBands : Z;           (* uint8_t *)
  m_numCcs : Z;
  m_numBwps : Z;
  m_bands : list OperationBandInfo
}.

Definition set_bands (s : ComponentCarrierBandwidthPartCreator) (v : list OperationBandInfo)
  : ComponentCarrierBandwidthPartCreator :=
  mkCreator (m_maxBands s) (m_numBands s) (m_numCcs s) (m_numBwps s) v.

(** ** The three comparison functions handed to [std::sort] *)

Definition CarrierFrequencyCompare (lhs rhs : ComponentCarrierInfo) : bool :=
  Cc.m_centralFrequency lhs <? Cc.m_centralFrequency rhs.

Definition BwpFrequencyCompare (lhs rhs : ComponentCarrierBandwidthPartElement) : bool :=
  Bwp.m_centralFrequency lhs <? Bwp.m_centralFrequency rhs.

Definition BwpIdCompare (lhs rhs : ComponentCarrierBandwidthPartElement) : bool :=
  Bwp.m_bwpId lhs <? Bwp.m_bwpId rhs.

(** ** Loops *)

(** [for (uint8_t i = start; i < start + n; i++) body (i)], where [body] may
    abort.  The counters of the source stay below 255, so they never wrap. *)
Fixpoint for_range (n : nat) (i : nat) (body : nat -> Result unit) : Result unit :=
  match n with
  | O => Ok tt
  | S n' => _ ← body i; for_range n' (S i) body
  end.

(** [for (auto & x : v) f (x)], where [f] may abort and updates [x] in place. *)
Fixpoint for_each {A} (f : A -> Result A) (v : list A) : Result (list A) :=
  match v with
  | [] => Ok []
  | x :: v' => x' ← f x; v'' ← for_each f v'; Ok (x' :: v'')
  end.

(** ** [ComponentCarrierInfo::AddBwp] *)

Definition AddBwp (cc : ComponentCarrierInfo) (bwp : ComponentCarrierBandwidthPartElement)
  : Result ComponentCarrierInfo :=
  _ ← abort_if (Cc.m_numBwps cc >=? 4) MaxBwpsReached;
  Ok (Cc.set_numBwps (Cc.set_bwp cc (Cc.m_bwp cc ++ [bwp])) (uint8 (Cc.m_numBwps cc + 1))).

(** ** [ComponentCarrierBandwidthPartCreator::CheckBwpsInCc] *)

(** The range-for of the second check: it accumulates [totalBandwidth] (a
    [uint32_t]) and [activeFound], and aborts on the first BWP that leaves the
    carrier. *)
Fixpoint CheckBwpsInCc_scan (cc : ComponentCarrierInfo)
    (bwps : list ComponentCarrierBandwidthPartElement)
    (totalBandwidth : Z) (activeFound : bool) : Result (Z * bool) :=
  match bwps with
  | [] => Ok (totalBandwidth, activeFound)
  | a :: rest =>
      let totalBandwidth := uint32 (totalBandwidth + Bwp.m_bandwidth a) in
      if (Bwp.m_higherFrequency a >? Cc.m_higherFrequency cc)
         || (Bwp.m_lowerFrequency a <? Cc.m_lowerFrequency cc)
      then Fail BwpOutOfCc
      else CheckBwpsInCc_scan cc rest totalBandwidth
             (if Bwp.m_bwpId a =? Cc.m_activeBwp cc then true else activeFound)
  end.

Definition CheckBwpsInCc (cc : ComponentCarrierInfo) : Result ComponentCarrierInfo :=
  (* First check: number of BWP shall not be larger than 4 *)
  let numBwps := uint8 (Z.of_nat (length (Cc.m_bwp cc))) in
  _ ← abort_if ((numBwps >? 4) || (numBwps <? 1)) BwpCountInvalid;
  (* Second check: BWP shall not exceed CC limits and the sum of BWPs cannot
     be larger than the CC bandwidth *)
  let byFreq := std_sort BwpFrequencyCompare (Cc.m_bwp cc) in
  '(totalBandwidth, activeFound) ← CheckBwpsInCc_scan cc byFreq 0 false;
  _ ← abort_if (totalBandwidth >? Cc.m_bandwidth cc) AggregatedBwpTooLarge;
  (* Third check: the active BWP id is in the CC description *)
  _ ← abort_if (negb activeFound) ActiveBwpNotInCc;
  (* Fourth check: BWPs shall not overlap in frequency *)
  _ ← for_range (Z.to_nat (numBwps - 1)) 0 (fun a =>
        x ← at_ byFreq a;
        y ← at_ byFreq (a + 1);
        abort_if (Bwp.m_higherFrequency x >? Bwp.m_lowerFrequency y) BwpsOverlap);
  (* Fifth check: BWP ids are not repeated *)
  let byId := std_sort BwpIdCompare byFreq in
  _ ← for_range (Z.to_nat (numBwps - 1)) 0 (fun i =>
        x ← at_ byId i;
        y ← at_ byId (i + 1);
        abort_if (Bwp.m_bwpId x =? Bwp.m_bwpId y) RepeatedBwpId);
  Ok (Cc.set_bwp cc byId).

(** ** [ComponentCarrierBandwidthPartCreator::ValidateOperationBand] *)

(** The [while (c < numCcs-1)] loop: [n] iterations are left, [c] is the
    counter. *)
Fixpoint ValidateOperationBand_loop (ccs : list ComponentCarrierInfo)
    (n : nat) (c : nat) (contiguous : ContiguousMode) : Result ContiguousMode :=
  match n with
  | O => Ok contiguous
  | S n' =>
      next ← at_ ccs (c + 1);
      cur ← at_ ccs c;
      if Cc.m_lowerFrequency next - Cc.m_higherFrequency cur <? 0
      then Fail CcsOverlap
      else ValidateOperationBand_loop ccs n' (S c)
             (if Cc.m_lowerFrequency next - Cc.m_higherFrequency cur >? 1
              then NON_CONTIGUOUS else contiguous)
  end.

Definition ValidateOperationBand (band : OperationBandInfo) : Result OperationBandInfo :=
  _ ← abort_if (bool_decide (Band.m_cc band = [])) NoCcInformation;
  _ ← abort_if (negb (Band.m_numCarriers band =? Z.of_nat (length (Band.m_cc band))))
        CcCountMismatch;
  let numCcs := uint8 (Z.of_nat (length (Band.m_cc band))) in
  (* Sort CC by ascending central frequency value *)
  let ccs := std_sort CarrierFrequencyCompare (Band.m_cc band) in
  (* Loop checks if CCs are overlap and contiguous or not *)
  contiguous ← ValidateOperationBand_loop ccs (Z.to_nat (numCcs - 1)) 0 CONTIGUOUS;
  (* Check if each CC has BWP configuration and validate them *)
  ccs' ← for_each CheckBwpsInCc ccs;
  Ok (Band.set_cc (Band.set_contiguousCc band contiguous) ccs').

(** [ValidateOperationBand] with the sort of the carriers as an argument:
    the function as it runs with a library whose [std::sort] is [sort].  With
    [std_sort] it is the definition above. *)
Module AnySort.
Definition ValidateOperationBand
    (sort : list ComponentCarrierInfo -> list ComponentCarrierInfo)
    (band : OperationBandInfo) : Result OperationBandInfo :=
  _ ← abort_if (bool_decide (Band.m_cc band = [])) NoCcInformation;
  _ ← abort_if (negb (Band.m_numCarriers band =? Z.of_nat (length (Band.m_cc band))))
        CcCountMismatch;
  let numCcs := uint8 (Z.of_nat (length (Band.m_cc band))) in
  (* Sort CC by ascending central frequency value *)
  let ccs := sort (Band.m_cc band) in
  (* Loop checks if CCs are overlap and contiguous or not *)
  contiguous ← ValidateOperationBand_loop ccs (Z.to_nat (numCcs - 1)) 0 CONTIGUOUS;
  (* Check if each CC has BWP configuration and validate them *)
  ccs' ← for_each CheckBwpsInCc ccs;
  Ok (Band.set_cc (Band.set_contiguousCc band contiguous) ccs').
End AnySort.

(** ** [ComponentCarrierBandwidthPartCreator::GetCcContiguousnessState] *)

(** The [for] loop; it returns from the function at the first pair whose
    difference exceeds [freqSeparation]. *)
Fixpoint GetCcContiguousnessState_loop (ccs : list ComponentCarrierInfo)
    (freqSeparation : Z) (n : nat) (i : nat) : Result ContiguousMode :=
  match n with
  | O => Ok CONTIGUOUS
  | S n' =>
      cur ← at_ ccs i;
      next ← at_ ccs (i + 1);
      if Cc.m_lowerFrequency cur - Cc.m_higherFrequency next >? freqSeparation
      then Ok NON_CONTIGUOUS
      else GetCcContiguousnessState_loop ccs freqSeparation n' (S i)
  end.

(** The function sorts [band.m_cc] in place and returns the mode; the result
    here is the mode. *)
Definition GetCcContiguousnessState (band : OperationBandInfo) (freqSeparation : Z)
  : Result ContiguousMode :=
  (* Make sure there is more than 1 CC *)
  _ ← abort_if (Band.m_numCarriers band <? 1) TooFewCcs;
  let ccs := std_sort CarrierFrequencyCompare (Band.m_cc band) in
  GetCcContiguousnessState_loop ccs freqSeparation
    (Z.to_nat (Band.m_numCarriers band - 1)) 0.

(** ** [ComponentCarrierBandwidthPartCreator::ValidateCaBwpConfiguration] *)

(** [for (const auto & cc : b.m_cc) if (cc.m_primaryCc == PRIMARY) ++numPrimaryCcs;]
    on the [uint8_t] counter. *)
Definition count_primary (ccs : list ComponentCarrierInfo) (numPrimaryCcs : Z) : Z :=
  foldl (fun n cc => if bool_decide (Cc.m_primaryCc cc = PRIMARY) then uint8 (n + 1) else n)
        numPrimaryCcs ccs.

(** The inner [for (const auto & b : m_bands)]: [a] is the band of the outer
    loop and [ia] its position, [ib] the position of the head of [bs];
    [&a != &b] compares the positions. *)
Fixpoint ValidateCaBwpConfiguration_inner (a : OperationBandInfo) (ia : nat)
    (bs : list OperationBandInfo) (ib : nat) (numPrimaryCcs : Z) : Result Z :=
  match bs with
  | [] => Ok numPrimaryCcs
  | b :: bs' =>
      (* Fourth: Operation bands shall not overlap *)
      if negb (Nat.eqb ia ib) && (Band.m_higherFrequency a <? Band.m_lowerFrequency b)
      then Fail BandsOverlap
      else ValidateCaBwpConfiguration_inner a ia bs' (S ib)
             (count_primary (Band.m_cc b) numPrimaryCcs)
  end.

(** The outer [for (auto & a : m_bands)]: [done] are the bands already
    visited (and rewritten by [ValidateOperationBand]), [todo] the others. *)
Fixpoint ValidateCaBwpConfiguration_outer (done todo : list OperationBandInfo)
    (numAggrCcs numPrimaryCcs : Z) : Result (list OperationBandInfo * Z * Z) :=
  match todo with
  | [] => Ok (done, numAggrCcs, numPrimaryCcs)
  | a :: rest =>
      (* Third: Check that the CC configuration is valid *)
      a' ← ValidateOperationBand a;
      numPrimaryCcs' ← ValidateCaBwpConfiguration_inner a' (length done)
                         (done ++ a' :: rest) 0 numPrimaryCcs;
      ValidateCaBwpConfiguration_outer (done ++ [a']) rest
        (uint16 (numAggrCcs + Band.m_numCarriers a')) numPrimaryCcs'
  end.

(** [MAX_CC_INTER_BAND] is a constant of mmwave-helper.h: it is an argument
    here. *)
Definition ValidateCaBwpConfiguration (MAX_CC_INTER_BAND : Z)
    (s : ComponentCarrierBandwidthPartCreator) : Result ComponentCarrierBandwidthPartCreator :=
  (* First: Number of band must be consistent *)
  _ ← abort_if (negb (m_numBands s =? Z.of_nat (length (m_bands s)))) NumBandsMismatch;
  (* Second: Number of bands below the maximum number *)
  _ ← abort_if (m_numBands s >? m_maxBands s) TooManyBands;
  '(bands, numAggrCcs, numPrimaryCcs) ← ValidateCaBwpConfiguration_outer [] (m_bands s) 0 0;
  (* Fifth: Check that the number of the inter-band aggregated carriers is
     below the maximum value *)
  _ ← abort_if (numAggrCcs >? MAX_CC_INTER_BAND) TooManyAggregatedCcs;
  (* Sixth: There must be one primary CC only *)
  _ ← abort_if (negb (numPrimaryCcs =? 1)) NotOnePrimaryCc;
  Ok (set_bands s bands).

(** ** [ComponentCarrierBandwidthPartCreator::GetActiveBwpInfo (bandIndex, ccIndex)] *)

(** The search loop: the first BWP whose id is the active one. *)
Definition find_bwp (bwpId : Z) (bwps : list ComponentCarrierBandwidthPartElement)
  : option ComponentCarrierBandwidthPartElement :=
  snd <$> list_find (fun b => Bwp.m_bwpId b = bwpId) bwps.

Definition GetActiveBwpInfo (s : ComponentCarrierBandwidthPartCreator)
    (bandIndex ccIndex : Z) : Result ComponentCarrierBandwidthPartElement :=
  _ ← abort_if (bool_decide (m_bands s = [])) NoBandInformation;
  _ ← abort_if ((bandIndex >=? m_maxBands s) || (bandIndex >=? Z.of_nat (length (m_bands s))))
        WrongBandIndex;
  band ← at_ (m_bands s) (Z.to_nat bandIndex);
  _ ← abort_if (bool_decide (Band.m_cc band = [])) NoCarrierInformation;
  _ ← abort_if ((ccIndex >? Band.m_numCarriers band - 1)
                || (ccIndex >? Z.of_nat (length (Band.m_cc band)) - 1)) WrongCcIndex;
  cc ← at_ (Band.m_cc band) (Z.to_nat ccIndex);
  match find_bwp (Cc.m_activeBwp cc) (Cc.m_bwp cc) with
  | Some bwp => Ok bwp
  | None => Fail ActiveBwpNotFound
  end.

(** ** [ComponentCarrierBandwidthPartCreator::GetActiveBwpInfo ()] *)

(** [for (const auto cc : band.m_cc)]: [Ok None] when the loop ends without
    the [return]. *)
Fixpoint GetActiveBwpInfo_primary_ccs (ccs : list ComponentCarrierInfo)
  : Result (option ComponentCarrierBandwidthPartElement) :=
  match ccs with
  | [] => Ok None
  | cc :: rest =>
      if bool_decide (Cc.m_primaryCc cc = PRIMARY)
      then
        _ ← abort_if (bool_decide (Cc.m_bwp cc = [])) MissingBwpInformation;
        match find_bwp (Cc.m_activeBwp cc) (Cc.m_bwp cc) with
        | Some bwp => Ok (Some bwp)
        | None => GetActiveBwpInfo_primary_ccs rest
        end
      else GetActiveBwpInfo_primary_ccs rest
  end.

(** [for (const auto band : m_bands)]. *)
Fixpoint GetActiveBwpInfo_primary_bands (bands : list OperationBandInfo)
  : Result ComponentCarrierBandwidthPartElement :=
  match bands with
  | [] => Fail NoActiveBwpInPrimaryCc
  | band :: rest =>
      _ ← abort_if (bool_decide (Band.m_cc band = [])) MissingCcInformation;
      found ← GetActiveBwpInfo_primary_ccs (Band.m_cc band);
      match found with
      | Some bwp => Ok bwp
      | None => GetActiveBwpInfo_primary_bands rest
      end
  end.

Definition GetActiveBwpInfo_primary (s : ComponentCarrierBandwidthPartCreator)
  : Result ComponentCarrierBandwidthPartElement :=
  _ ← abort_if (bool_decide (m_bands s = [])) NoBandInformation;
  GetActiveBwpInfo_primary_bands (m_bands s).

(** ** [ComponentCarrierBandwidthPartCreator::GetAggregatedBandwidth] *)

(** The three nested range-for loops on the [uint32_t] accumulator
    [aBandwidth]. *)
Definition GetAggregatedBandwidth_cc (aBandwidth : Z) (cc : ComponentCarrierInfo) : Z :=
  foldl (fun acc bwp =>
           if Bwp.m_bwpId bwp =? Cc.m_activeBwp cc
           then uint32 (acc + Bwp.m_bandwidth bwp) else acc)
        aBandwidth (Cc.m_bwp cc).

Definition GetAggregatedBandwidth_band (aBandwidth : Z) (band : OperationBandInfo) : Z :=
  foldl GetAggregatedBandwidth_cc aBandwidth (Band.m_cc band).

Definition GetAggregatedBandwidth (s : ComponentCarrierBandwidthPartCreator) : Z :=
  foldl GetAggregatedBandwidth_band 0 (m_bands s).

(** ** [ComponentCarrierBandwidthPartCreator::ChangeActiveBwp] *)

(** [for (auto & cc : band.m_cc)]: the first carrier with id [ccId] that has
    a BWP with id [activeBwpId] gets it as its active BWP; [None] when the loop
    ends without the [return]. *)
Fixpoint ChangeActiveBwp_ccs (ccs : list ComponentCarrierInfo) (ccId activeBwpId : Z)
  : option (list ComponentCarrierInfo) :=
  match ccs with
  | [] => None
  | cc :: rest =>
      if (Cc.m_ccId cc =? ccId)
         && existsb (fun bwp => Bwp.m_bwpId bwp =? activeBwpId) (Cc.m_bwp cc)
      then Some (Cc.set_activeBwp cc activeBwpId :: rest)
      else cons cc <$> ChangeActiveBwp_ccs rest ccId activeBwpId
  end.

(** [for (auto & band : m_bands)]. *)
Fixpoint ChangeActiveBwp_bands (bands : list OperationBandInfo) (bandId ccId activeBwpId : Z)
  : option (list OperationBandInfo) :=
  match bands with
  | [] => None
  | band :: rest =>
      match (if Band.m_bandId band =? bandId
             then ChangeActiveBwp_ccs (Band.m_cc band) ccId activeBwpId
             else None) with
      | Some ccs => Some (Band.set_cc band ccs :: rest)
      | None => cons band <$> ChangeActiveBwp_bands rest bandId ccId activeBwpId
      end
  end.

Definition ChangeActiveBwp (s : ComponentCarrierBandwidthPartCreator)
    (bandId ccId activeBwpId : Z) : Result ComponentCarrierBandwidthPartCreator :=
  match ChangeActiveBwp_bands (m_bands s) bandId ccId activeBwpId with
  | Some bands => Ok (set_bands s bands)
  | None => Fail WrongChangeRequest
  end.

(** ** [MmWaveUeNetDevice] (mmwave-ue-net-device.cc) *)

(** Modelled from the spec: [DlHarqInfo] is declared outside
    mmwave-ue-net-device.cc; the feedback carries its "embedded identity
    (process id, cell id or carrier indicator)". *)
Record DlHarqInfo : Set := mkDlHarqInfo {
  m_rnti : Z;               (* uint16_t *)
  m_harqProcessId : Z;      (* uint8_t *)
  m_bwpIndex : Z;           (* uint8_t *)
  m_ack : bool
}.

#[global] Instance DlHarqInfo_eq_dec : EqDecision DlHarqInfo.
Proof. solve_decision. Defined.

(** Modelled from the spec: [MmWaveUePhy] is defined outside
    mmwave-ue-net-device.cc.  A PHY instance works at a center frequency and
    keeps the DL HARQ feedback that [MmWaveUePhy::EnqueueDlHarqFeedback] hands
    to it. *)
Record MmWaveUePhy : Set := mkPhy {
  phy_centerFrequency : Z;
  phy_dlHarqFeedback : list DlHarqInfo
}.

(** A [Ptr<MmWaveUePhy>]: the address of a PHY instance in the store of the
    device, or [nullptr]. *)
Abbreviation PhyPtr := (option positive).

(** [ComponentCarrierMmWaveUe]: what the two functions below read of it. *)
Record ComponentCarrierMmWaveUe : Set := mkCcUe {
  GetDlEarfcn : Z;          (* uint32_t *)
  GetPhy : PhyPtr
}.

(** [m_componentCarrierManager], as [DynamicCast<BwpManagerUe>] sees it: a
    null pointer, a manager of another class, or a [BwpManagerUe], of which
    the device uses [RouteDlHarqFeedback] only (defined in bwp-manager-ue.cc:
    it is a field here). *)
Inductive ComponentCarrierManager : Type :=
  | NullManager
  | OtherManager
  | BwpManagerUe (RouteDlHarqFeedback : DlHarqInfo -> Z).

Record MmWaveUeNetDevice : Type := mkUeDev {
  m_componentCarrierManager : ComponentCarrierManager;
  m_ccMap : gmap Z ComponentCarrierMmWaveUe;   (* std::map<uint8_t, Ptr<...>> *)
  phy_store : gmap positive MmWaveUePhy        (* the PHY instances pointed to *)
}.

(** [phy->EnqueueDlHarqFeedback (m)] on the PHY at address [p]. *)
Definition Phy_EnqueueDlHarqFeedback (m : DlHarqInfo) (phy : MmWaveUePhy) : MmWaveUePhy :=
  mkPhy (phy_centerFrequency phy) (phy_dlHarqFeedback phy ++ [m]).

Definition EnqueueDlHarqFeedback (d : MmWaveUeNetDevice) (m : DlHarqInfo)
  : Result MmWaveUeNetDevice :=
  match m_componentCarrierManager d with
  | BwpManagerUe RouteDlHarqFeedback =>
      let index := uint8 (RouteDlHarqFeedback m) in
      match m_ccMap d !! index with
      | None => Fail OutOfRange
      | Some cc =>
          (* [Ptr::operator->] asserts that the pointer is not null *)
          match GetPhy cc with
          | Some p =>
              match phy_store d !! p with
              | Some phy =>
                  Ok (mkUeDev (m_componentCarrierManager d) (m_ccMap d)
                        (<[p := Phy_EnqueueDlHarqFeedback m phy]> (phy_store d)))
              | None => Fail AssertionFailed
              end
          | None => Fail AssertionFailed
          end
      end
  | _ => Fail AssertionFailed   (* NS_ASSERT (ccManager != nullptr), as in a
                                   build that keeps the assertions *)
  end.

(** The traversal [for (auto i : m_ccMap)] of a [std::map<uint8_t, _>]: the
    entries by ascending key. *)
Definition ccMap_entries (m : gmap Z ComponentCarrierMmWaveUe)
  : list (Z * ComponentCarrierMmWaveUe) :=
  omap (fun k => let z := Z.of_nat k in pair z <$> m !! z) (seq 0 256).

(** The loop of [GetPhyOnCenterFreq]. *)
Fixpoint GetPhyOnCenterFreq_loop (entries : list (Z * ComponentCarrierMmWaveUe)) : PhyPtr :=
  match entries with
  | [] => None                     (* return nullptr *)
  | i :: rest =>
      if negb (GetDlEarfcn (snd i) =? 0)
      then GetPhy (snd i)
      else GetPhyOnCenterFreq_loop rest
  end.

Definition GetPhyOnCenterFreq (d : MmWaveUeNetDevice) (centerFrequency : Z) : PhyPtr :=
  GetPhyOnCenterFreq_loop (ccMap_entries (m_ccMap d)).

(** ** [MmWaveSpectrumPhy]: transport blocks and HARQ feedback
       (mmwave-spectrum-phy.h) *)

Record ExpectedTb : Set := mkExpectedTb {
  m_ndi : Z;                (* uint8_t *)
  m_tbSize : Z;             (* uint32_t *)
  m_mcs : Z;                (* uint8_t *)
  m_rbBitmap : list Z;      (* std::vector<int> *)
  tb_harqProcessId : Z;     (* uint8_t m_harqProcessId *)
  m_rv : Z;                 (* uint8_t *)
  m_isDownlink : bool;
  m_symStart : Z;           (* uint8_t *)
  m_numSym : Z              (* uint8_t *)
}.

(** The SINR fields and the output of the error model play no part in what
    is stated below and are left out. *)
Record TransportBlockInfo : Set := mkTransportBlockInfo {
  m_expected : ExpectedTb;
  m_isCorrupted : bool;
  m_harqFeedbackSent : bool
}.

(** The constructor [TransportBlockInfo (const ExpectedTb &expected)] with
    the default member initialisers of the header. *)
Definition TransportBlockInfo_new (expected : ExpectedTb) : TransportBlockInfo :=
  mkTransportBlockInfo expected false false.

(** One call of [m_phyDlHarqFeedbackCallback] or of
    [m_phyUlHarqFeedbackCallback]. *)
Inductive HarqFeedback : Set :=
  | DlFeedback (rnti harqProcessId : Z) (corrupted : bool)
  | UlFeedback (rnti harqProcessId : Z) (corrupted : bool).

Definition feedback_rnti (f : HarqFeedback) : Z :=
  match f with
  | DlFeedback rnti _ _ | UlFeedback rnti _ _ => rnti
  end.

Record MmWaveSpectrumPhy : Set := mkSpectrumPhy {
  m_transportBlocks : gmap Z TransportBlockInfo;  (* std::unordered_map<uint16_t, _> *)
  harqEnabled : bool;                             (* a HARQ module is set *)
  callbacks : list HarqFeedback                   (* the calls of the two callbacks so far *)
}.

(** Modelled from the spec: the body of [AddExpectedTb] is in
    mmwave-spectrum-phy.cc, of which only the header is available.  "if
    AddExpectedTb is called twice for the same receiver+process before the
    first completes, the second registration silently overwrites". *)
Definition AddExpectedTb (s : MmWaveSpectrumPhy) (rnti : Z) (expected : ExpectedTb)
  : MmWaveSpectrumPhy :=
  mkSpectrumPhy (<[rnti := TransportBlockInfo_new expected]> (m_transportBlocks s))
                (harqEnabled s) (callbacks s).

Definition make_feedback (rnti : Z) (tb : TransportBlockInfo) : HarqFeedback :=
  if m_isDownlink (m_expected tb)
  then DlFeedback rnti (tb_harqProcessId (m_expected tb)) (m_isCorrupted tb)
  else UlFeedback rnti (tb_harqProcessId (m_expected tb)) (m_isCorrupted tb).

Definition feedback_due (s : MmWaveSpectrumPhy) (tb : TransportBlockInfo) : bool :=
  harqEnabled s && negb (m_harqFeedbackSent tb).

Definition mark_feedback_sent (tb : TransportBlockInfo) : TransportBlockInfo :=
  mkTransportBlockInfo (m_expected tb) (m_isCorrupted tb) true.

(** What one pass over the blocks [entries] delivers to the callbacks. *)
Definition delivered (s : MmWaveSpectrumPhy) (entries : list (Z * TransportBlockInfo))
  : list HarqFeedback :=
  omap (fun e : Z * TransportBlockInfo =>
          if feedback_due s (snd e) then Some (make_feedback (fst e) (snd e)) else None)
       entries.

(** Modelled from the spec: the body of [EndRxData] is in
    mmwave-spectrum-phy.cc, of which only the header is available.  "for
    every tracked transport block ... if HARQ is enabled and feedback has not
    yet been sent for this transport block, synthesize DL/UL HARQ feedback and
    deliver it via the registered callback exactly once per transport block
    instance; mark feedback-sent".  The blocks are visited in the order of
    the map, which [std::unordered_map] leaves open. *)
Definition EndRxData (s : MmWaveSpectrumPhy) : MmWaveSpectrumPhy :=
  mkSpectrumPhy
    ((fun tb => if feedback_due s tb then mark_feedback_sent tb else tb)
       <$> m_transportBlocks s)
    (harqEnabled s)
    (callbacks s ++ delivered s (map_to_list (m_transportBlocks s))).

(** How many times a callback was called for the block of [rnti]. *)
Definition feedback_count (rnti : Z) (fs : list HarqFeedback) : nat :=
  length (filter (fun f => feedback_rnti f = rnti) fs).

(** ** Configurations used as examples *)

(** A BWP that fills [lo, hi], of the numerology used above 6 GHz. *)
Definition bwp_on (id lo hi : Z) : ComponentCarrierBandwidthPartElement :=
  Bwp.mk id 3 ((lo + hi) / 2) lo hi (hi - lo).

(** A carrier on [lo, hi] with one BWP, of id 0, that fills it and is active. *)
Definition cc_on (id lo hi : Z) (role : CarrierRole) : ComponentCarrierInfo :=
  Cc.mk id ((lo + hi) / 2) lo hi (hi - lo) 1 0 role [bwp_on 0 lo hi].

(** A band on [lo, hi] that declares as many carriers as it has. *)
Definition band_on (id lo hi : Z) (ccs : list ComponentCarrierInfo) : OperationBandInfo :=
  Band.mk id ((lo + hi) / 2) (hi - lo) lo hi (Z.of_nat (length ccs)) CONTIGUOUS ccs.

(** Two carriers with bounds [0, 100e6] and [50e6, 150e6]: they overlap. *)
Definition overlapping_band : OperationBandInfo :=
  band_on 0 0 150000000
    [cc_on 0 0 100000000 PRIMARY; cc_on 1 50000000 150000000 SECONDARY].

(** Two carriers of 100 MHz that leave 800 MHz free between them. *)
Definition gapped_band : OperationBandInfo :=
  band_on 0 0 1000000000
    [cc_on 0 0 100000000 PRIMARY; cc_on 1 900000000 1000000000 SECONDARY].

(** ** What the specification says of the contiguity of a band *)

(** The gaps of the adjacent pairs of a list of carriers: the lower bound of
    carrier i+1 minus the higher bound of carrier i. *)
Definition adjacent_gaps (ccs : list ComponentCarrierInfo) : list Z :=
  zip_with (fun a b => Cc.m_lowerFrequency b - Cc.m_higherFrequency a) ccs (tail ccs).

(** A carrier is well formed when its central frequency lies between its
    bounds. *)
Definition cc_well_formed (cc : ComponentCarrierInfo) : Prop :=
  Cc.m_lowerFrequency cc <= Cc.m_centralFrequency cc <= Cc.m_higherFrequency cc.

(** ** Comparison by a key

    The three comparison functions above are [lt_key] of a field. *)

Definition lt_key {A} (key : A -> Z) (a b : A) : bool := key a <? key b.

Definition le_key {A} (key : A -> Z) (a b : A) : Prop := key a <= key b.

(** The two members of a pair have different keys. *)
Definition keys_differ {A} (key : A -> Z) (p : A * A) : Prop := key (fst p) <> key (snd p).

(** ** What the specification says of the BWPs of a carrier *)

(** The pairs of neighbours of a list, in order. *)
Definition adjacent_pairs {A} (l : list A) : list (A * A) := zip l (tail l).

(** The frequency bounds of a BWP do not exceed those of the carrier. *)
Definition bwp_inside_cc (cc : ComponentCarrierInfo)
    (a : ComponentCarrierBandwidthPartElement) : Prop :=
  Cc.m_lowerFrequency cc <= Bwp.m_lowerFrequency a
  /\ Bwp.m_higherFrequency a <= Cc.m_higherFrequency cc.

(** The sum of the bandwidths of a list of BWPs, as a number. *)
Definition bwp_bandwidth_sum (bwps : list ComponentCarrierBandwidthPartElement) : Z :=
  foldr (fun a acc => Bwp.m_bandwidth a + acc) 0 bwps.

(** Two BWPs that are neighbours in frequency do not overlap. *)
Definition bwp_pair_apart
    (p : ComponentCarrierBandwidthPartElement * ComponentCarrierBandwidthPartElement) : Prop :=
  Bwp.m_higherFrequency (fst p) <= Bwp.m_lowerFrequency (snd p).

(** The six conditions of the validation of the BWPs of a carrier: none of
    the six failures occurs. *)
Record CarrierBwpsValid (cc : ComponentCarrierInfo) : Prop := {
  bwp_count_in_range : (1 <= length (Cc.m_bwp cc) <= 4)%nat;
  bwps_inside_cc : Forall (bwp_inside_cc cc) (Cc.m_bwp cc);
  bwp_sum_fits : bwp_bandwidth_sum (Cc.m_bwp cc) <= Cc.m_bandwidth cc;
  active_bwp_present : Cc.m_activeBwp cc ∈ Bwp.m_bwpId <$> Cc.m_bwp cc;
  bwps_apart :
    Forall bwp_pair_apart (adjacent_pairs (std_sort BwpFrequencyCompare (Cc.m_bwp cc)));
  bwp_ids_unique : NoDup (Bwp.m_bwpId <$> Cc.m_bwp cc)
}.

(** A carrier of 400 MHz with two BWPs of 200 MHz each in frequency, whose
    declared bandwidths are 2^31 Hz each. *)
Definition overflowing_cc : ComponentCarrierInfo :=
  Cc.mk 0 200000000 0 400000000 400000000 2 0 PRIMARY
    [Bwp.mk 0 3 100000000 0 200000000 2147483648;
     Bwp.mk 1 3 300000000 200000000 400000000 2147483648].

(** A carrier of 400 MHz that holds 257 copies of one BWP of 1 MHz. *)
Definition crowded_cc : ComponentCarrierInfo :=
  Cc.mk 0 200000000 0 400000000 400000000 4 0 PRIMARY
    (replicate 257 (Bwp.mk 0 3 500000 0 1000000 1000000)).

(** ** What the specification says of a topology *)

(** The number of PRIMARY carriers of a list of carriers, and of all the
    bands of a topology. *)
Definition num_primary (ccs : list ComponentCarrierInfo) : Z :=
  foldr (fun cc n => if bool_decide (Cc.m_primaryCc cc = PRIMARY) then 1 + n else n) 0 ccs.

Definition total_primary (bands : list OperationBandInfo) : Z :=
  foldr (fun b n => num_primary (Band.m_cc b) + n) 0 bands.

(** Two bands overlap in frequency when they share more than a bound, and are
    disjoint when one ends below the start of the other. *)
Definition bands_overlap (a b : OperationBandInfo) : Prop :=
  Band.m_lowerFrequency a < Band.m_higherFrequency b
  /\ Band.m_lowerFrequency b < Band.m_higherFrequency a.

Definition bands_disjoint (a b : OperationBandInfo) : Prop :=
  Band.m_higherFrequency a < Band.m_lowerFrequency b
  \/ Band.m_higherFrequency b < Band.m_lowerFrequency a.

(** Two bands of 400 MHz, one next to the other, of one carrier each; the
    carrier of the first band is the only PRIMARY one. *)
Definition adjacent_bands_topology : ComponentCarrierBandwidthPartCreator :=
  mkCreator 4 2 2 2
    [band_on 0 0 400000000 [cc_on 0 0 400000000 PRIMARY];
     band_on 1 400000000 800000000 [cc_on 1 400000000 800000000 SECONDARY]].

(** The same with 200 MHz free between the two bands. *)
Definition disjoint_bands_topology : ComponentCarrierBandwidthPartCreator :=
  mkCreator 4 2 2 2
    [band_on 0 0 400000000 [cc_on 0 0 400000000 PRIMARY];
     band_on 1 600000000 1000000000 [cc_on 1 600000000 1000000000 SECONDARY]].

(** The same with the second band 200 MHz into the first. *)
Definition overlapping_bands_topology : ComponentCarrierBandwidthPartCreator :=
  mkCreator 4 2 2 2
    [band_on 0 0 400000000 [cc_on 0 0 400000000 PRIMARY];
     band_on 1 200000000 600000000 [cc_on 1 200000000 600000000 SECONDARY]].

(** One band, one carrier, PRIMARY. *)
Definition single_band_topology : ComponentCarrierBandwidthPartCreator :=
  mkCreator 4 1 1 1 [band_on 0 0 400000000 [cc_on 0 0 400000000 PRIMARY]].

(** ** Topologies whose counters agree with their vectors

    [GetActiveBwpInfo] is addressed by positions and checks them against
    [m_maxBands] and [m_numCarriers]; [AddOperationBand] and [AddCc] keep
    these members in step with the vectors, and [ValidateCaBwpConfiguration]
    and [ValidateOperationBand] abort when they are not.  All of them are
    [uint8_t]. *)
Definition counts_consistent (s : ComponentCarrierBandwidthPartCreator) : Prop :=
  Z.of_nat (length (m_bands s)) <= m_maxBands s < 256
  /\ Forall (fun band =>
               Band.m_numCarriers band = Z.of_nat (length (Band.m_cc band))
               /\ Band.m_numCarriers band < 256)
            (m_bands s).

(** The ids of the bands and of the carriers are their positions, so that
    the arguments of [ChangeActiveBwp] (ids) and those of [GetActiveBwpInfo]
    (positions) name the same carrier. *)
Definition ids_are_positions (s : ComponentCarrierBandwidthPartCreator) : Prop :=
  forall bi band, m_bands s !! bi = Some band ->
    Band.m_bandId band = Z.of_nat bi
    /\ forall ci cc, Band.m_cc band !! ci = Some cc -> Cc.m_ccId cc = Z.of_nat ci.

(** The carrier at position [ci] of the band at position [bi]. *)
Definition carrier_at (s : ComponentCarrierBandwidthPartCreator) (bi ci : nat)
  : option ComponentCarrierInfo :=
  band ← m_bands s !! bi; Band.m_cc band !! ci.

(** ** What the specification says of the aggregated bandwidth *)

Definition sumZ (l : list Z) : Z := foldr Z.add 0 l.

(** The bandwidth of the active BWP of a carrier: of the BWP whose id is the
    active-BWP id of the carrier (nothing when there is none). *)
Definition active_bandwidth (cc : ComponentCarrierInfo) : Z :=
  from_option Bwp.m_bandwidth 0 (find_bwp (Cc.m_activeBwp cc) (Cc.m_bwp cc)).

(** The sum of the bandwidths of the active BWPs over all the carriers of all
    the bands, as a number. *)
Definition band_active_bandwidth (band : OperationBandInfo) : Z :=
  sumZ (active_bandwidth <$> Band.m_cc band).

Definition active_bandwidth_sum (s : ComponentCarrierBandwidthPartCreator) : Z :=
  sumZ (band_active_bandwidth <$> m_bands s).

(** The BWPs of all the carriers of all the bands, as stored. *)
Definition stored_bwps (s : ComponentCarrierBandwidthPartCreator)
  : list (list (list ComponentCarrierBandwidthPartElement)) :=
  (fun band => Cc.m_bwp <$> Band.m_cc band) <$> m_bands s.

(** BWP ids are unique within every carrier. *)
Definition bwp_ids_unique_everywhere (s : ComponentCarrierBandwidthPartCreator) : Prop :=
  Forall (Forall (fun bwps => NoDup (Bwp.m_bwpId <$> bwps))) (stored_bwps s).

(** [n] carriers of [bandwidth] Hz side by side from [lower] on, with ids from
    [firstId] on; the first one has the given role. *)
Definition carriers_side_by_side (firstId lower bandwidth : Z) (n : nat) (role : CarrierRole)
  : list ComponentCarrierInfo :=
  (fun c : nat =>
     cc_on (firstId + Z.of_nat c)
           (lower + Z.of_nat c * bandwidth) (lower + (Z.of_nat c + 1) * bandwidth)
           (if decide (c = 0%nat) then role else SECONDARY))
  <$> seq 0 n.

(** Eleven carriers of 396 MHz (the widest carrier above 6 GHz) in two bands
    from 24 GHz on: 4.356 GHz of active BWPs in all. *)
Definition wide_topology : ComponentCarrierBandwidthPartCreator :=
  mkCreator 4 2 11 11
    [band_on 0 24000000000 26376000000
       (carriers_side_by_side 0 24000000000 396000000 6 PRIMARY);
     band_on 1 26376000000 28356000000
       (carriers_side_by_side 6 26376000000 396000000 5 SECONDARY)].

(** The scenario of the specification: one carrier of 400 MHz centered at
    28.15 GHz with two BWPs of 100 MHz at 28.0 GHz and 28.3 GHz; BWP 0 is
    active. *)
Definition dual_bwp_topology : ComponentCarrierBandwidthPartCreator :=
  mkCreator 4 1 1 2
    [Band.mk 0 28150000000 400000000 27950000000 28350000000 1 CONTIGUOUS
       [Cc.mk 0 28150000000 27950000000 28350000000 400000000 2 0 PRIMARY
          [Bwp.mk 0 3 28000000000 27950000000 28050000000 100000000;
           Bwp.mk 1 3 28300000000 28250000000 28350000000 100000000]]].

(** What the innermost loop adds for one BWP. *)
Definition bandwidth_if_active (cc : ComponentCarrierInfo)
    (bwp : ComponentCarrierBandwidthPartElement) : Z :=
  if Bwp.m_bwpId bwp =? Cc.m_activeBwp cc then Bwp.m_bandwidth bwp else 0.

(** ** Devices used as examples *)

(** A UE with two carriers: carrier 0 on the PHY at 28 GHz, carrier 1 on the
    PHY at 28.4 GHz; its BWP manager routes a feedback to the carrier named in
    the feedback. *)
Definition two_carrier_device : MmWaveUeNetDevice :=
  mkUeDev (BwpManagerUe m_bwpIndex)
          {[ 0 := mkCcUe 100 (Some 1%positive); 1 := mkCcUe 200 (Some 2%positive) ]}
          {[ 1%positive := mkPhy 28000000000 []; 2%positive := mkPhy 28400000000 [] ]}.

(** The same device without a BWP manager. *)
Definition unmanaged_device : MmWaveUeNetDevice :=
  mkUeDev NullManager (m_ccMap two_carrier_device) (phy_store two_carrier_device).

(** A feedback for carrier 1. *)
Definition feedback_for_carrier_1 : DlHarqInfo := mkDlHarqInfo 7 3 1 true.

(** What the specification says of [GetPhyOnCenterFreq]: the PHY instances of
    the device that work at a center frequency. *)
Definition phy_at_center_frequency (d : MmWaveUeNetDevice) (centerFrequency : Z)
    (p : positive) : Prop :=
  exists k cc phy,
    m_ccMap d !! k = Some cc /\ GetPhy cc = Some p
    /\ phy_store d !! p = Some phy /\ phy_centerFrequency phy = centerFrequency.

(** * The rest of the configuration model and its users *)

(** ** Aborts of the functions below

    The functions below have abort messages of their own, beside those of
    the functions above, which they call. *)
Inductive Abort' : Set :=
  | Earlier (e : Abort)      (* an abort of one of the functions above *)
  | MaxCcsReached            (* "The maximum number of CCs in the band was reached" *)
  | MaxBandsReached          (* "Maximum number of operation bands reached" *)
  | NoCcDefinition           (* "No CC definition provided" *)
  | TooManyCcs               (* "The number of CCs is larger than the maximum" *)
  | WrongBandId              (* "Wrong operation band id" *)
  | CcIndexExceeds           (* "CC index exceeds the number of defined CCs" *)
  | BadBwpConfiguration      (* "Bad BWP configuration: You already configured bwp id" *)
  | NoPathlossModel          (* "You forget to set a Pathloss model" *)
  | WrongChannelModel        (* "Cannot set a different type of channel" *)
  | UnknownPathlossModel     (* NS_ABORT_UNLESS on the type of the pathloss model *)
  | ConfigurationNotSupported (* "Configuration not supported" *)
  | Assertion.               (* NS_ASSERT *)

#[global] Instance Abort'_eq_dec : EqDecision Abort'.
Proof. solve_decision. Defined.

Inductive Outcome (A : Type) : Type :=
  | Done (a : A)
  | Aborted (e : Abort').
Arguments Done {A} a.
Arguments Aborted {A} e.

#[global] Instance Outcome_ret : MRet Outcome := fun A a => Done a.
#[global] Instance Outcome_bind : MBind Outcome := fun A B f m =>
  match m with
  | Done a => f a
  | Aborted e => Aborted e
  end.
#[global] Instance Outcome_fmap : FMap Outcome := fun A B f m =>
  match m with
  | Done a => Done (f a)
  | Aborted e => Aborted e
  end.

(** A call of one of the functions above. *)
Definition earlier {A} (r : Result A) : Outcome A :=
  match r with
  | Ok a => Done a
  | Fail e => Aborted (Earlier e)
  end.

Definition is_Done {A} (r : Outcome A) : bool :=
  match r with Done _ => true | Aborted _ => false end.

Definition abort_if' (cond : bool) (e : Abort') : Outcome unit :=
  if cond then Aborted e else Done tt.

(** ** [OperationBandInfo::AddCc] *)

Definition Band_set_numCarriers (b : OperationBandInfo) (v : Z) : OperationBandInfo :=
  Band.mk (Band.m_bandId b) (Band.m_centralFrequency b) (Band.m_bandwidth b)
          (Band.m_lowerFrequency b) (Band.m_higherFrequency b) v
          (Band.m_contiguousCc b) (Band.m_cc b).

(** [MAX_CC_INTRA_BAND] is a constant of mmwave-helper.h: it is an argument
    here. *)
Definition AddCc (MAX_CC_INTRA_BAND : Z) (band : OperationBandInfo) (cc : ComponentCarrierInfo)
  : Outcome OperationBandInfo :=
  _ ← abort_if' (Band.m_numCarriers band >=? MAX_CC_INTRA_BAND) MaxCcsReached;
  Done (Band_set_numCarriers (Band.set_cc band (Band.m_cc band ++ [cc]))
          (uint8 (Band.m_numCarriers band + 1))).

(** ** [ComponentCarrierBandwidthPartCreator::CreateOperationBand] *)

(** The [while (c < numCcs-1)] loop of
    [CreateOperationBand (centralFrequency, operationBandwidth, ccs)]. *)
Fixpoint CreateOperationBand_loop (ccs : list ComponentCarrierInfo)
    (n : nat) (c : nat) (contiguous : ContiguousMode) : Result ContiguousMode :=
  match n with
  | O => Ok contiguous
  | S n' =>
      next ← at_ ccs (c + 1);
      cur ← at_ ccs c;
      if Cc.m_lowerFrequency next - Cc.m_higherFrequency cur <? 0
      then Fail CcsOverlap
      else CreateOperationBand_loop ccs n' (S c)
             (if Cc.m_lowerFrequency next - Cc.m_higherFrequency cur >? 1
              then NON_CONTIGUOUS else contiguous)
  end.

(** [operationBandwidth] is a [uint32_t]: [operationBandwidth/2] is the
    division of integers.  The function also leaves the vector of the caller
    sorted; the result here is the band. *)
Definition CreateOperationBand (MAX_CC_INTRA_BAND : Z) (band0 : OperationBandInfo)
    (centralFrequency operationBandwidth : Z) (ccs : list ComponentCarrierInfo)
  : Outcome OperationBandInfo :=
  _ ← abort_if' (bool_decide (ccs = [])) NoCcDefinition;
  let numCcs := uint8 (Z.of_nat (length ccs)) in
  _ ← abort_if' (numCcs >? MAX_CC_INTRA_BAND) TooManyCcs;
  let ccs := std_sort CarrierFrequencyCompare ccs in
  contiguous ← earlier (CreateOperationBand_loop ccs (Z.to_nat (numCcs - 1)) 0 CONTIGUOUS);
  (* Check if each CC has BWP configuration and validate it *)
  ccs ← earlier (for_each CheckBwpsInCc ccs);
  (* At this point, CC configuration is valid. Create the operation band. *)
  Done (Band.mk (Band.m_bandId band0) centralFrequency operationBandwidth
          (centralFrequency - operationBandwidth / 2)
          (centralFrequency + operationBandwidth / 2)
          numCcs contiguous ccs).

(** ** [ComponentCarrierBandwidthPartCreator::AddOperationBand] *)

(** The number of BWPs of the carriers of a band:
    [for (const auto & cc : band.m_cc) m_numBwps += cc.m_bwp.size ();]
    ([m_numCcs] and [m_numBwps] are taken as [uint8_t], like the other
    counters of the class). *)
Definition AddOperationBand_numBwps (numBwps : Z) (band : OperationBandInfo) : Z :=
  foldl (fun n cc => uint8 (n + Z.of_nat (length (Cc.m_bwp cc)))) numBwps (Band.m_cc band).

Definition AddOperationBand (s : ComponentCarrierBandwidthPartCreator) (band : OperationBandInfo)
  : Outcome ComponentCarrierBandwidthPartCreator :=
  _ ← abort_if' (m_numBands s >=? m_maxBands s) MaxBandsReached;
  Done (mkCreator (m_maxBands s)
          (uint8 (m_numBands s + 1))
          (uint8 (m_numCcs s + Band.m_numCarriers band))
          (AddOperationBand_numBwps (m_numBwps s) band)
          (m_bands s ++ [band])).

(** ** [ComponentCarrierBandwidthPartCreator::GetComponentCarrier] *)

Definition GetComponentCarrier (s : ComponentCarrierBandwidthPartCreator) (bandId ccId : Z)
  : Outcome ComponentCarrierInfo :=
  _ ← abort_if' (bandId >=? m_numBands s) WrongBandId;
  band ← earlier (at_ (m_bands s) (Z.to_nat bandId));
  _ ← abort_if' (Band.m_numCarriers band <=? ccId) CcIndexExceeds;
  band ← earlier (at_ (m_bands s) (Z.to_nat bandId));
  earlier (at_ (Band.m_cc band) (Z.to_nat ccId)).

(** ** [ComponentCarrierBandwidthPartCreator::GetCarrierBandwidth] *)

Definition GetCarrierBandwidth (s : ComponentCarrierBandwidthPartCreator) (bandId ccId : Z)
  : Result Z :=
  (* There is at least one bwp *)
  bwp ← GetActiveBwpInfo s bandId ccId;
  Ok (Bwp.m_bandwidth bwp).

(** ** Sequences of calls *)

(** [cc.AddBwp (b1); cc.AddBwp (b2); ...] *)
Fixpoint AddBwp_all (cc : ComponentCarrierInfo)
    (bwps : list ComponentCarrierBandwidthPartElement) : Result ComponentCarrierInfo :=
  match bwps with
  | [] => Ok cc
  | bwp :: rest => cc' ← AddBwp cc bwp; AddBwp_all cc' rest
  end.

(** [band.AddCc (cc1); band.AddCc (cc2); ...] *)
Fixpoint AddCc_all (MAX_CC_INTRA_BAND : Z) (band : OperationBandInfo)
    (ccs : list ComponentCarrierInfo) : Outcome OperationBandInfo :=
  match ccs with
  | [] => Done band
  | cc :: rest => band' ← AddCc MAX_CC_INTRA_BAND band cc; AddCc_all MAX_CC_INTRA_BAND band' rest
  end.

(** [creator.AddOperationBand (band1); creator.AddOperationBand (band2); ...] *)
Fixpoint AddOperationBand_all (s : ComponentCarrierBandwidthPartCreator)
    (bands : list OperationBandInfo) : Outcome ComponentCarrierBandwidthPartCreator :=
  match bands with
  | [] => Done s
  | band :: rest => s' ← AddOperationBand s band; AddOperationBand_all s' rest
  end.

(** The counter of BWPs of a carrier, of carriers of a band, of bands of a
    creator is the size of the vector. *)
Definition cc_counter_agrees (cc : ComponentCarrierInfo) : Prop :=
  Cc.m_numBwps cc = Z.of_nat (length (Cc.m_bwp cc)).

Definition band_counter_agrees (band : OperationBandInfo) : Prop :=
  Band.m_numCarriers band = Z.of_nat (length (Band.m_cc band)).

Definition creator_counter_agrees (s : ComponentCarrierBandwidthPartCreator) : Prop :=
  m_numBands s = Z.of_nat (length (m_bands s)).

(** An empty carrier, and the scenario of the specification built with
    [AddBwp]. *)
Definition empty_cc : ComponentCarrierInfo :=
  Cc.mk 0 28150000000 27950000000 28350000000 400000000 0 0 PRIMARY [].

Definition empty_band : OperationBandInfo :=
  Band.mk 0 28150000000 400000000 27950000000 28350000000 0 CONTIGUOUS [].

Definition empty_creator : ComponentCarrierBandwidthPartCreator := mkCreator 4 0 0 0 [].

(** The carrier at position [ci] of the band at position [bi] is the only
    PRIMARY carrier of the topology, as [ValidateCaBwpConfiguration] wants
    it, and no band is without carriers. *)
Definition only_primary_at (s : ComponentCarrierBandwidthPartCreator) (bi ci : nat) : Prop :=
  forall bj cj cc, carrier_at s bj cj = Some cc -> Cc.m_primaryCc cc = PRIMARY ->
    bj = bi /\ cj = ci.

Definition no_empty_band (s : ComponentCarrierBandwidthPartCreator) : Prop :=
  Forall (fun band => Band.m_cc band <> []) (m_bands s).

(** * [MmWaveUeNetDevice]: the other functions of mmwave-ue-net-device.cc *)

(** [MmWaveUeNetDevice::GetPhy (index)]: [m_ccMap.at (index)->GetPhy ()]. *)
Definition MmWaveUeNetDevice_GetPhy (d : MmWaveUeNetDevice) (index : Z) : Result PhyPtr :=
  match m_ccMap d !! index with
  | Some cc => Ok (GetPhy cc)
  | None => Fail OutOfRange
  end.

(** The keys of [m_ccMap] are [uint8_t]. *)
Definition ccMap_keys_uint8 (d : MmWaveUeNetDevice) : Prop :=
  forall k, is_Some (m_ccMap d !! k) -> 0 <= k < 256.

(** ** The configuration that the device hands down to its NAS and RRC

    [m_nas] and [m_rrc] are objects of other files: what the device does to
    them is the list of the calls it makes, in order. *)
Inductive UeCall : Set :=
  | NasSetImsi (imsi : Z)                   (* m_nas->SetImsi (m_imsi) *)
  | RrcSetImsi (imsi : Z)                   (* m_rrc->SetImsi (m_imsi) *)
  | NasSetCsgId (csgId : Z)                 (* m_nas->SetCsgId (m_csgId) *)
  | MacInitialize (key : Z)                 (* it->second->GetMac ()->Initialize () *)
  | RrcInitialize                           (* m_rrc->Initialize () *)
  | NasSend (packet : Z) (protocolNumber : Z). (* m_nas->Send (packet, protocolNumber) *)

#[global] Instance UeCall_eq_dec : EqDecision UeCall.
Proof. solve_decision. Defined.

Module Ue.
Record State : Type := mk {
  device : MmWaveUeNetDevice;     (* m_componentCarrierManager, m_ccMap *)
  m_isConstructed : bool;
  m_imsi : Z;                     (* uint64_t *)
  m_csgId : Z;                    (* uint32_t *)
  calls : list UeCall             (* the calls made so far *)
}.
End Ue.

(** The constructor: [m_isConstructed (false)]; the other members are given
    by the attributes. *)
Definition MmWaveUeNetDevice_new (device : MmWaveUeNetDevice) (imsi csgId : Z) : Ue.State :=
  Ue.mk device false imsi csgId [].

Definition UpdateConfig (st : Ue.State) : Ue.State :=
  if Ue.m_isConstructed st
  then Ue.mk (Ue.device st) (Ue.m_isConstructed st) (Ue.m_imsi st) (Ue.m_csgId st)
         (Ue.calls st ++ [NasSetImsi (Ue.m_imsi st); RrcSetImsi (Ue.m_imsi st);
                          NasSetCsgId (Ue.m_csgId st)])
  else st.

Definition GetCsgId (st : Ue.State) : Z := Ue.m_csgId st.

Definition SetCsgId (st : Ue.State) (csgId : Z) : Ue.State :=
  (* propagate the change down to NAS and RRC *)
  UpdateConfig (Ue.mk (Ue.device st) (Ue.m_isConstructed st) (Ue.m_imsi st) csgId (Ue.calls st)).

Definition DoInitialize (st : Ue.State) : Ue.State :=
  let st := UpdateConfig (Ue.mk (Ue.device st) true (Ue.m_imsi st) (Ue.m_csgId st)
                            (Ue.calls st)) in
  Ue.mk (Ue.device st) (Ue.m_isConstructed st) (Ue.m_imsi st) (Ue.m_csgId st)
    (Ue.calls st
     ++ (MacInitialize ∘ fst <$> ccMap_entries (m_ccMap (Ue.device st)))
     ++ [RrcInitialize]).

(** [Ipv4L3Protocol::PROT_NUMBER] is a constant of another module, and what
    [m_nas->Send] returns is decided there: both are arguments. *)
Definition DoSend (PROT_NUMBER : Z) (nas_Send : Z -> Z -> bool)
    (st : Ue.State) (packet protocolNumber : Z) : Ue.State * bool :=
  if negb (protocolNumber =? PROT_NUMBER)
  then (st, false)
  else (Ue.mk (Ue.device st) (Ue.m_isConstructed st) (Ue.m_imsi st) (Ue.m_csgId st)
          (Ue.calls st ++ [NasSend packet protocolNumber]),
        nas_Send packet protocolNumber).

(** A use of the device: one of the calls above. *)
Inductive UeOp : Set :=
  | CallSetCsgId (csgId : Z)
  | CallDoInitialize
  | CallUpdateConfig
  | CallDoSend (packet : Z) (protocolNumber : Z).

Definition UeOp_run (PROT_NUMBER : Z) (nas_Send : Z -> Z -> bool)
    (st : Ue.State) (op : UeOp) : Ue.State :=
  match op with
  | CallSetCsgId csgId => SetCsgId st csgId
  | CallDoInitialize => DoInitialize st
  | CallUpdateConfig => UpdateConfig st
  | CallDoSend packet protocolNumber =>
      fst (DoSend PROT_NUMBER nas_Send st packet protocolNumber)
  end.

(** What the NAS holds after a list of calls: the argument of the last
    [SetCsgId], of the last [SetImsi]. *)
Definition nas_csgId (calls : list UeCall) : option Z :=
  last (omap (fun c => match c with NasSetCsgId v => Some v | _ => None end) calls).

Definition nas_imsi (calls : list UeCall) : option Z :=
  last (omap (fun c => match c with NasSetImsi v => Some v | _ => None end) calls).

Definition rrc_imsi (calls : list UeCall) : option Z :=
  last (omap (fun c => match c with RrcSetImsi v => Some v | _ => None end) calls).

(** The protocol numbers of the packets handed to the NAS. *)
Definition nas_sent_protocols (calls : list UeCall) : list Z :=
  omap (fun c => match c with NasSend _ n => Some n | _ => None end) calls.

(** * [MmWaveHelper]: the configuration of the bandwidth parts (mmwave-helper.cc) *)

(** A [Ptr<T>]: the address of an object, or [nullptr]. *)
Abbreviation Ptr := (option positive).

(** [BandwidthPartRepresentation]: the members that the constructor with
    five arguments sets (the two types of channel access manager, which the
    functions below do not read, are left out). *)
Module Repr.
Record BandwidthPartRepresentation : Set := mk {
  m_id : Z;                  (* uint32_t *)
  m_phyMacCommon : Ptr;
  m_channel : Ptr;
  m_propagation : Ptr;
  m_3gppChannel : Ptr
}.
End Repr.
Abbreviation BandwidthPartRepresentation := Repr.BandwidthPartRepresentation.

#[global] Instance BandwidthPartRepresentation_eq_dec : EqDecision BandwidthPartRepresentation.
Proof. solve_decision. Defined.

(** The members of [MmWaveHelper] that [AddBandwidthPart] and [DoInitialize]
    use.  [next_object] is the address of the object that the next
    [CreateObject] (or the next [Create] of a factory) returns: objects are
    never freed here, so that a new object is at a new address. *)
Module Helper.
Record MmWaveHelper : Type := mk {
  m_pathlossModelType : string;
  m_channelModelType : string;
  m_bwpConfiguration : gmap Z BandwidthPartRepresentation;   (* keys are uint32_t *)
  m_phyStats : Ptr;
  m_initialized : bool;
  next_object : positive
}.

Definition SetPathlossModelType (h : MmWaveHelper) (type : string) : MmWaveHelper :=
  mk type (m_channelModelType h) (m_bwpConfiguration h) (m_phyStats h) (m_initialized h)
     (next_object h).

Definition SetChannelModelType (h : MmWaveHelper) (type : string) : MmWaveHelper :=
  mk (m_pathlossModelType h) type (m_bwpConfiguration h) (m_phyStats h) (m_initialized h)
     (next_object h).

Definition AddBandwidthPart (h : MmWaveHelper) (id : Z) (bwpRepr : BandwidthPartRepresentation)
  : Outcome MmWaveHelper :=
  _ ← abort_if' (bool_decide (is_Some (m_bwpConfiguration h !! id))) BadBwpConfiguration;
  _ ← abort_if' (negb (id =? Repr.m_id bwpRepr)) Assertion;
  Done (mk (m_pathlossModelType h) (m_channelModelType h)
          (<[id := bwpRepr]> (m_bwpConfiguration h))
          (m_phyStats h) (m_initialized h) (next_object h)).

(** The body of the loop of [DoInitialize] on one entry.  The objects it
    creates are the channel, the propagation loss model and the 3GPP channel,
    in this order; [conf.second.m_phyMacCommon->GetCenterFrequency ()]
    dereferences the pointer, which [Ptr] asserts not to be null. *)
Definition DoInitialize_conf (pathlossModelType : string) (next : positive)
    (conf : BandwidthPartRepresentation) : Outcome (BandwidthPartRepresentation * positive) :=
  match Repr.m_channel conf, Repr.m_propagation conf, Repr.m_3gppChannel conf with
  | None, None, None =>
      (* Create everything inside, and connect things *)
      _ ← abort_if'
            (negb (bool_decide
                     (pathlossModelType = "ns3::MmWave3gppBuildingsPropagationLossModel"%string)
                   || bool_decide
                        (pathlossModelType = "ns3::MmWave3gppPropagationLossModel"%string)))
            UnknownPathlossModel;
      _ ← abort_if' (bool_decide (Repr.m_phyMacCommon conf = None)) Assertion;
      Done (Repr.mk (Repr.m_id conf) (Repr.m_phyMacCommon conf)
              (Some next) (Some (next + 1)%positive) (Some (next + 2)%positive),
            (next + 3)%positive)
  | Some _, Some _, Some _ =>
      (* We suppose that the channel and the propagation are correctly
         connected outside *)
      Done (conf, next)
  | _, _, _ => Aborted ConfigurationNotSupported
  end.

(** [for (auto & conf : m_bwpConfiguration)]: [entries] are the entries in
    the order of the iteration. *)
Fixpoint DoInitialize_loop (pathlossModelType : string)
    (entries : list (Z * BandwidthPartRepresentation))
    (config : gmap Z BandwidthPartRepresentation) (next : positive)
  : Outcome (gmap Z BandwidthPartRepresentation * positive) :=
  match entries with
  | [] => Done (config, next)
  | (id, conf) :: rest =>
      '(conf', next') ← DoInitialize_conf pathlossModelType next conf;
      DoInitialize_loop pathlossModelType rest (<[id := conf']> config) next'
  end.

Definition DoInitialize (h : MmWaveHelper) : Outcome MmWaveHelper :=
  _ ← abort_if' (bool_decide (m_pathlossModelType h = ""%string)) NoPathlossModel;
  _ ← abort_if' (negb (bool_decide (m_channelModelType h = "ns3::MmWave3gppChannel"%string)))
        WrongChannelModel;
  let '(config, next) :=
    if bool_decide (m_bwpConfiguration h = ∅)
    then ({[ 0 := Repr.mk 0 (Some (next_object h)) None None None ]},
          (next_object h + 1)%positive)
    else (m_bwpConfiguration h, next_object h) in
  _ ← abort_if' (bool_decide (config = ∅)) Assertion;
  '(config, next) ← DoInitialize_loop (m_pathlossModelType h) (map_to_list config) config next;
  Done (mk (m_pathlossModelType h) (m_channelModelType h) config
          (Some next) true (next + 1)%positive).
End Helper.

(** [AddBandwidthPart (id1, repr1); AddBandwidthPart (id2, repr2); ...] *)
Fixpoint AddBandwidthPart_all (h : Helper.MmWaveHelper)
    (parts : list (Z * BandwidthPartRepresentation)) : Outcome Helper.MmWaveHelper :=
  match parts with
  | [] => Done h
  | (id, bwpRepr) :: rest =>
      h' ← Helper.AddBandwidthPart h id bwpRepr; AddBandwidthPart_all h' rest
  end.

(** The pathloss models that [DoInitialize] can create. *)
Definition pathloss_model_known (type : string) : Prop :=
  type = "ns3::MmWave3gppBuildingsPropagationLossModel"%string
  \/ type = "ns3::MmWave3gppPropagationLossModel"%string.

(** An entry has its channel, its propagation loss model and its 3GPP
    channel, or none of the three. *)
Definition channels_given (conf : BandwidthPartRepresentation) : Prop :=
  is_Some (Repr.m_channel conf) /\ is_Some (Repr.m_propagation conf)
  /\ is_Some (Repr.m_3gppChannel conf).

Definition channels_missing (conf : BandwidthPartRepresentation) : Prop :=
  Repr.m_channel conf = None /\ Repr.m_propagation conf = None
  /\ Repr.m_3gppChannel conf = None.

(** The configuration on which the loop of [DoInitialize] works: the one of
    the helper, or the BWP 0 that [DoInitialize] adds when there is none. *)
Definition configuration_or_default (h : Helper.MmWaveHelper)
  : gmap Z BandwidthPartRepresentation :=
  if bool_decide (Helper.m_bwpConfiguration h = ∅)
  then {[ 0 := Repr.mk 0 (Some (Helper.next_object h)) None None None ]}
  else Helper.m_bwpConfiguration h.

(** A helper as its constructor and the defaults of its attributes leave
    it, and the same with the models that [DoInitialize] wants. *)
Definition default_helper : Helper.MmWaveHelper :=
  Helper.mk "ns3::MmWavePropagationLossModel" "ns3::MmWaveBeamforming" ∅ None false 1.

Definition helper_3gpp : Helper.MmWaveHelper :=
  Helper.SetChannelModelType
    (Helper.SetPathlossModelType default_helper "ns3::MmWave3gppPropagationLossModel")
    "ns3::MmWave3gppChannel".

(** An entry that [DoInitialize] can bring up: it comes with its three
    objects, or with none of them, in which case the helper must know how
    to create the pathloss model and the entry must have its
    [MmWavePhyMacCommon]. *)
Definition entry_supported (pathlossModelType : string) (conf : BandwidthPartRepresentation)
  : Prop :=
  channels_given conf
  \/ (channels_missing conf /\ pathloss_model_known pathlossModelType
      /\ is_Some (Repr.m_phyMacCommon conf)).

(** [conf'] is [conf] brought up: it has the three objects, those of [conf]
    when [conf] came with them, and is the same otherwise. *)
Definition brought_up (conf conf' : BandwidthPartRepresentation) : Prop :=
  Repr.m_id conf' = Repr.m_id conf
  /\ Repr.m_phyMacCommon conf' = Repr.m_phyMacCommon conf
  /\ channels_given conf'
  /\ (channels_given conf -> conf' = conf).

(** The key of every entry is the id of the entry: what
    [InstallSingleUeDevice] and [InstallSingleEnbDevice] assert of the
    entries they read. *)
Definition keys_are_ids (config : gmap Z BandwidthPartRepresentation) : Prop :=
  map_Forall (fun id conf => Repr.m_id conf = id) config.

(** * [MmWaveDrbActivator] (mmwave-helper.cc) *)

Module Drb.
(** [EpcEnbS1SapUser::DataRadioBearerSetupRequestParameters], as
    [ActivateDrb] fills it; a bearer is a number here. *)
Record DataRadioBearerSetupRequestParameters : Set := mkParams {
  rnti : Z;        (* uint16_t *)
  bearer : Z;
  bearerId : Z;    (* uint8_t *)
  gtpTeid : Z      (* uint32_t *)
}.

(** What [ActivateDrb] reads of the objects around the activator at the
    time of a call: the RRC of the UE device, its target eNB, and the
    [UeManager] that the RRC of the eNB keeps for an RNTI
    ([GetUeManager] asserts that there is one). *)
Record Surroundings : Type := mkSurroundings {
  ueRrc_CONNECTED_NORMALLY : bool;      (* ueRrc->GetState () == LteUeRrc::CONNECTED_NORMALLY *)
  ueRrc_GetRnti : Z;
  ueRrc_GetCellId : Z;
  enbLteDevice_GetCellId : Z;
  ueManager_connected : Z -> option bool
    (* of enbRrc->GetUeManager (rnti): its state is CONNECTED_NORMALLY or
       CONNECTION_RECONFIGURATION *)
}.

Record MmWaveDrbActivator : Set := mk {
  m_active : bool;
  m_bearer : Z;
  m_imsi : Z       (* uint64_t *)
}.

(** The constructor: [imsi] is what [GetImsi] of the UE device returns. *)
Definition new (bearer imsi : Z) : MmWaveDrbActivator := mk false bearer imsi.

(** [ActivateDrb (imsi, cellId, rnti)]: the activator after the call and the
    requests handed to the S1 SAP of the eNB.  The [rnti] of the request is
    the local variable that hides the argument. *)
Definition ActivateDrb (a : MmWaveDrbActivator) (w : Surroundings) (imsi cellId rnti : Z)
  : Outcome (MmWaveDrbActivator * list DataRadioBearerSetupRequestParameters) :=
  if negb (m_active a) && (imsi =? m_imsi a)
  then
    _ ← abort_if' (negb (ueRrc_CONNECTED_NORMALLY w)) Assertion;
    let rnti := ueRrc_GetRnti w in
    _ ← abort_if' (negb (ueRrc_GetCellId w =? enbLteDevice_GetCellId w)) Assertion;
    match ueManager_connected w rnti with
    | None => Aborted Assertion
    | Some connected =>
        _ ← abort_if' (negb connected) Assertion;
        Done (mk true (m_bearer a) (m_imsi a), [mkParams rnti (m_bearer a) 0 0])
    end
  else Done (a, []).

(** One firing of the trace source: the surroundings at that time and the
    arguments of [ActivateCallback]. *)
Record Callback : Type := mkCallback {
  surroundings : Surroundings;
  cb_imsi : Z;
  cb_cellId : Z;
  cb_rnti : Z
}.

(** [ActivateCallback] at every firing, in order. *)
Fixpoint ActivateCallback_all (a : MmWaveDrbActivator) (callbacks : list Callback)
  : Outcome (MmWaveDrbActivator * list DataRadioBearerSetupRequestParameters) :=
  match callbacks with
  | [] => Done (a, [])
  | cb :: rest =>
      '(a', requests) ← ActivateDrb a (surroundings cb) (cb_imsi cb) (cb_cellId cb) (cb_rnti cb);
      '(a'', requests') ← ActivateCallback_all a' rest;
      Done (a'', requests ++ requests')
  end.
End Drb.

(** Surroundings in which the UE with RNTI 5 is connected to cell 1, and
    three firings of the trace source: one for the UE with IMSI 9, then two
    for the UE with IMSI 7, announced with RNTI 8. *)
Definition connected_surroundings : Drb.Surroundings :=
  Drb.mkSurroundings true 5 1 1 (fun rnti => if rnti =? 5 then Some true else None).

Definition three_firings : list Drb.Callback :=
  [Drb.mkCallback connected_surroundings 9 1 6;
   Drb.mkCallback connected_surroundings 7 1 8;
   Drb.mkCallback connected_surroundings 7 1 8].

(** * Properties *)

(** ** Machine integers *)

Lemma uint8_small z : 0 <= z < 256 -> uint8 z = z.
Proof. intros. unfold uint8. apply Z.mod_small. lia. Qed.

Lemma uint16_small z : 0 <= z < 65536 -> uint16 z = z.
Proof. intros. unfold uint16. apply Z.mod_small. lia. Qed.

Lemma uint32_small z : 0 <= z < 4294967296 -> uint32 z = z.
Proof. intros. unfold uint32. apply Z.mod_small. lia. Qed.

Lemma uint8_range z : 0 <= uint8 z < 256.
Proof. unfold uint8. apply Z.mod_pos_bound. lia. Qed.

Lemma uint32_range z : 0 <= uint32 z < 4294967296.
Proof. unfold uint32. apply Z.mod_pos_bound. lia. Qed.

(** ** The result monad and the loops *)

Lemma abort_if_false e : abort_if false e = Ok tt.
Proof. reflexivity. Qed.

Lemma abort_if_true e : abort_if true e = Fail e.
Proof. reflexivity. Qed.

Lemma at_Some {A} (v : list A) i a : v !! i = Some a -> at_ v i = Ok a.
Proof. unfold at_. intros ->. reflexivity. Qed.

Lemma at_None {A} (v : list A) i : v !! i = None -> at_ v i = Fail OutOfRange.
Proof. unfold at_. intros ->. reflexivity. Qed.

Lemma bind_Ok_inv {A B} (m : Result A) (f : A -> Result B) b :
  (m ≫= f) = Ok b -> exists a, m = Ok a /\ f a = Ok b.
Proof. destruct m as [a|e]; simpl; [eauto | discriminate]. Qed.

(** Destructs the first step of a monadic computation in hypothesis [H]. *)
Ltac bind_inv H :=
  let a := fresh "a" in
  let Ha := fresh "Ha" in
  apply bind_Ok_inv in H; destruct H as (a & Ha & H).

(** ** [std::sort] gives a sorted permutation *)

Section Sorting.
Context {A : Type} (key : A -> Z).

Local Abbreviation comp := (lt_key key).
Local Abbreviation leq := (le_key key).

Lemma insert_by_Permutation (cmp : A -> A -> bool) x l : insert_by cmp x l ≡ₚ x :: l.
Proof.
  induction l as [|y l IH]; simpl; [done|].
  destruct (cmp y x); [|done].
  rewrite IH. apply Permutation_swap.
Qed.

Lemma std_sort_Permutation (cmp : A -> A -> bool) l : std_sort cmp l ≡ₚ l.
Proof.
  induction l as [|x l IH]; simpl; [done|].
  rewrite insert_by_Permutation. by rewrite IH.
Qed.

Lemma std_sort_length (cmp : A -> A -> bool) l : length (std_sort cmp l) = length l.
Proof. by rewrite std_sort_Permutation. Qed.

Lemma insert_by_HdRel x y l :
  leq y x -> HdRel leq y l -> HdRel leq y (insert_by comp x l).
Proof.
  intros Hyx Hl. destruct l as [|z l]; simpl; [by constructor|].
  inversion_clear Hl. destruct (comp z x); by constructor.
Qed.

Lemma insert_by_Sorted x l : Sorted leq l -> Sorted leq (insert_by comp x l).
Proof.
  induction 1 as [|y l Hs IH Hd]; simpl; [by repeat constructor|].
  destruct (comp y x) eqn:Hc; unfold lt_key in Hc.
  - constructor; [done|]. apply insert_by_HdRel; [|done].
    unfold le_key. apply Z.ltb_lt in Hc. lia.
  - constructor; [by constructor|]. constructor.
    apply Z.ltb_ge in Hc. done.
Qed.

Lemma std_sort_Sorted l : Sorted leq (std_sort comp l).
Proof.
  induction l as [|x l IH]; simpl; [constructor|]. by apply insert_by_Sorted.
Qed.

Lemma Sorted_adjacent l i a b :
  Sorted leq l -> l !! i = Some a -> l !! S i = Some b -> key a <= key b.
Proof.
  intros Hs. revert i. induction Hs as [|x l Hs IH Hd]; intros i Ha Hb; [done|].
  destruct i as [|i]; simpl in *.
  - injection Ha as ->. destruct l as [|y l]; [done|].
    simpl in Hb. injection Hb as ->. by inversion_clear Hd.
  - by eapply IH.
Qed.

(** A list that is already sorted, strictly, is left as it is. *)
Lemma insert_by_head x l :
  Forall (fun y => key x <= key y) l -> insert_by comp x l = x :: l.
Proof.
  destruct 1 as [|y l Hy _]; simpl; [done|].
  unfold lt_key. destruct (Z.ltb_spec (key y) (key x)); [lia|done].
Qed.

Lemma std_sort_sorted_id l :
  StronglySorted leq l -> std_sort comp l = l.
Proof.
  induction 1 as [|x l Hs IH Hx]; simpl; [done|].
  rewrite IH. by apply insert_by_head.
Qed.
(** With distinct keys there is one sorted order only: every sort yields the
    list of [std_sort]. *)
Lemma NoDup_key_inj l x y :
  NoDup (key <$> l) -> x ∈ l -> y ∈ l -> key x = key y -> x = y.
Proof.
  intros Hnd Hx Hy Heq.
  apply list_elem_of_lookup in Hx as [i Hi]. apply list_elem_of_lookup in Hy as [j Hj].
  assert (i = j) as ->; [|congruence].
  apply (NoDup_lookup _ _ _ (key x) Hnd); rewrite list_lookup_fmap.
  - by rewrite Hi.
  - rewrite Hj. simpl. by rewrite Heq.
Qed.

Lemma std_sort_unique l l' :
  NoDup (key <$> l) -> l' ≡ₚ l -> Sorted leq l' -> l' = std_sort comp l.
Proof.
  intros Hnd Hperm Hsorted.
  assert (Transitive leq) as Htrans by (intros x y z; unfold le_key; lia).
  apply (Sorted_unique_strong leq); [|done|apply std_sort_Sorted|].
  - intros x1 x2 H1 H2 Hle1 Hle2. unfold le_key in *.
    apply (NoDup_key_inj l); [done| | |lia].
    + by rewrite <- Hperm.
    + by rewrite <- (std_sort_Permutation comp l).
  - by rewrite std_sort_Permutation.
Qed.

(** [std_sort] meets the contract of [std::sort], and with distinct keys every
    sort that meets it gives the list of [std_sort]. *)
Lemma sorts_by_Sorted (sort : list A -> list A) l :
  sorts_by comp sort -> Sorted leq (sort l).
Proof.
  intros Hsort. destruct (Hsort l) as [_ Hsorted].
  induction Hsorted as [|x l' _ IH Hx]; constructor; [done|].
  destruct Hx as [|y l'' Hy _]; constructor.
  unfold lt_key, le_key in *. by apply Z.ltb_ge.
Qed.

Lemma std_sort_sorts_by : sorts_by comp (std_sort comp).
Proof.
  intros l. split; [apply std_sort_Permutation|].
  assert (Transitive leq) as Htrans by (intros x y z; unfold le_key; lia).
  assert (StronglySorted leq (std_sort comp l)) as Hsorted.
  { apply Sorted_StronglySorted; [done|apply std_sort_Sorted]. }
  induction Hsorted as [|x l' _ IH Hx]; constructor; [done|].
  eapply Forall_impl; [exact Hx|]. intros y Hy.
  unfold lt_key, le_key in *. by apply Z.ltb_ge.
Qed.

Lemma sorts_by_distinct_keys (sort : list A -> list A) l :
  sorts_by comp sort -> NoDup (key <$> l) -> sort l = std_sort comp l.
Proof.
  intros Hsort Hnd. apply std_sort_unique; [done|apply Hsort|by apply sorts_by_Sorted].
Qed.
End Sorting.

Lemma CarrierFrequencyCompare_lt_key :
  CarrierFrequencyCompare = lt_key Cc.m_centralFrequency.
Proof. reflexivity. Qed.

Lemma BwpFrequencyCompare_lt_key : BwpFrequencyCompare = lt_key Bwp.m_centralFrequency.
Proof. reflexivity. Qed.

Lemma BwpIdCompare_lt_key : BwpIdCompare = lt_key Bwp.m_bwpId.
Proof. reflexivity. Qed.

(** ** [GetCcContiguousnessState] *)

(** The subtraction of the loop has its operands the other way round: on
    carriers in ascending order it is never positive, so the loop runs to its
    end. *)
Lemma GetCcContiguousnessState_loop_contiguous ccs freqSeparation n i :
  Sorted (le_key Cc.m_centralFrequency) ccs ->
  Forall cc_well_formed ccs ->
  0 <= freqSeparation ->
  (i + n < length ccs)%nat ->
  GetCcContiguousnessState_loop ccs freqSeparation n i = Ok CONTIGUOUS.
Proof.
  intros Hsorted Hwf Hsep. revert i.
  induction n as [|n IH]; intros i Hlen; simpl; [done|].
  destruct (lookup_lt_is_Some_2 ccs i) as [cur Hcur]; [lia|].
  destruct (lookup_lt_is_Some_2 ccs (S i)) as [next Hnext]; [lia|].
  rewrite (at_Some _ _ _ Hcur). simpl.
  replace (i + 1)%nat with (S i) by lia.
  rewrite (at_Some _ _ _ Hnext). simpl.
  pose proof (Sorted_adjacent _ _ _ _ _ Hsorted Hcur Hnext) as Hle.
  pose proof (Forall_lookup_1 _ _ _ _ Hwf Hcur) as [Hc1 _].
  pose proof (Forall_lookup_1 _ _ _ _ Hwf Hnext) as [_ Hn2].
  destruct (Z.gtb_spec (Cc.m_lowerFrequency cur - Cc.m_higherFrequency next)
              freqSeparation) as [Hgt|_]; [lia|].
  apply IH. lia.
Qed.

(** X8.  On every band of well-formed carriers the function answers CONTIGUOUS,
    whatever the gaps between the carriers and whatever the threshold. *)
Lemma GetCcContiguousnessState_always_contiguous band freqSeparation :
  Forall cc_well_formed (Band.m_cc band) ->
  0 <= freqSeparation ->
  1 <= Band.m_numCarriers band <= Z.of_nat (length (Band.m_cc band)) ->
  GetCcContiguousnessState band freqSeparation = Ok CONTIGUOUS.
Proof.
  intros Hwf Hsep [Hlo Hhi]. unfold GetCcContiguousnessState.
  destruct (Z.ltb_spec (Band.m_numCarriers band) 1) as [?|_]; [lia|]. simpl.
  apply GetCcContiguousnessState_loop_contiguous; [| |done|].
  - rewrite CarrierFrequencyCompare_lt_key. apply std_sort_Sorted.
  - by rewrite std_sort_Permutation.
  - rewrite std_sort_length. lia.
Qed.

Lemma GetCcContiguousnessState_loop_no_overlap_error ccs freqSeparation n i :
  GetCcContiguousnessState_loop ccs freqSeparation n i <> Fail CcsOverlap.
Proof.
  revert i. induction n as [|n IH]; intros i; simpl; [done|].
  unfold at_. destruct (ccs !! i); simpl; [|done].
  destruct (ccs !! (i + 1)%nat); simpl; [|done].
  destruct (_ >? _); [done|apply IH].
Qed.

(** The function has no overlap error at all. *)
Lemma GetCcContiguousnessState_no_overlap_error band freqSeparation :
  GetCcContiguousnessState band freqSeparation <> Fail CcsOverlap.
Proof.
  unfold GetCcContiguousnessState. destruct (_ <? _); simpl; [done|].
  apply GetCcContiguousnessState_loop_no_overlap_error.
Qed.

(** C1.  [GetCcContiguousnessState] at two bands whose carriers are in
    ascending order of central frequency.  In [gapped_band] the gap between
    the two carriers is 800 MHz, above the threshold of 1 Hz: the claim asks
    for NON_CONTIGUOUS, the function returns CONTIGUOUS.  In
    [overlapping_band] the gap is negative: the claim asks for the overlap
    error, the function returns CONTIGUOUS.  [ValidateOperationBand], whose
    loop subtracts the higher bound of carrier c from the lower bound of
    carrier c+1, finds the first band NON_CONTIGUOUS and aborts on the second
    with "CCs overlap". *)
Theorem GetCcContiguousnessState_wrong_on_gap_and_overlap :
  std_sort CarrierFrequencyCompare (Band.m_cc gapped_band) = Band.m_cc gapped_band
  /\ adjacent_gaps (Band.m_cc gapped_band) = [800000000]
  /\ GetCcContiguousnessState gapped_band 1 = Ok CONTIGUOUS
  /\ Band.m_contiguousCc <$> ValidateOperationBand gapped_band = Ok NON_CONTIGUOUS
  /\ std_sort CarrierFrequencyCompare (Band.m_cc overlapping_band)
     = Band.m_cc overlapping_band
  /\ adjacent_gaps (Band.m_cc overlapping_band) = [-50000000]
  /\ GetCcContiguousnessState overlapping_band 1 = Ok CONTIGUOUS
  /\ ValidateOperationBand overlapping_band = Fail CcsOverlap.
Proof. repeat split; vm_compute; reflexivity. Qed.

(** ** [ValidateOperationBand] *)

Lemma adjacent_gaps_lookup ccs j g :
  adjacent_gaps ccs !! j = Some g <->
  exists a b, ccs !! j = Some a /\ ccs !! S j = Some b
              /\ g = Cc.m_lowerFrequency b - Cc.m_higherFrequency a.
Proof.
  unfold adjacent_gaps. rewrite lookup_zip_with_Some. setoid_rewrite lookup_tail.
  split; intros (a & b & H1 & H2 & H3); exists a, b; auto.
Qed.

(** The loop stops with "CCs overlap" at the first negative gap it meets. *)
Lemma ValidateOperationBand_loop_overlap ccs n c contiguous j a b :
  (c + n < length ccs)%nat ->
  (c <= j < c + n)%nat ->
  ccs !! j = Some a -> ccs !! S j = Some b ->
  Cc.m_lowerFrequency b < Cc.m_higherFrequency a ->
  ValidateOperationBand_loop ccs n c contiguous = Fail CcsOverlap.
Proof.
  intros Hlen Hj Ha Hb Hgap. revert c contiguous Hlen Hj.
  induction n as [|n IH]; intros c contiguous Hlen Hj; [lia|]. simpl.
  destruct (lookup_lt_is_Some_2 ccs c) as [cur Hcur]; [lia|].
  destruct (lookup_lt_is_Some_2 ccs (S c)) as [next Hnext]; [lia|].
  replace (c + 1)%nat with (S c) by lia.
  rewrite (at_Some _ _ _ Hnext), (at_Some _ _ _ Hcur). simpl.
  destruct (Z.ltb_spec (Cc.m_lowerFrequency next - Cc.m_higherFrequency cur) 0)
    as [_|Hge]; [done|].
  apply IH; [lia|].
  destruct (decide (j = c)) as [->|]; [|lia].
  rewrite Hcur in Ha. rewrite Hnext in Hb. simplify_eq. lia.
Qed.

(** [std::sort] leaves the order of carriers with equal central frequencies
    to the library.  What follows is about [AnySort.ValidateOperationBand
    sort], for every [sort] that meets the contract of [std::sort].  With
    [std_sort] it is [ValidateOperationBand], and so it is with every [sort]
    on a band whose central frequencies are pairwise distinct. *)
Lemma ValidateOperationBand_std_sort band :
  AnySort.ValidateOperationBand (std_sort CarrierFrequencyCompare) band
  = ValidateOperationBand band.
Proof. reflexivity. Qed.

Lemma ValidateOperationBand_any_sort sort band :
  sorts_by CarrierFrequencyCompare sort ->
  NoDup (Cc.m_centralFrequency <$> Band.m_cc band) ->
  AnySort.ValidateOperationBand sort band = ValidateOperationBand band.
Proof.
  intros Hsort Hnd. unfold AnySort.ValidateOperationBand, ValidateOperationBand.
  by rewrite (sorts_by_distinct_keys Cc.m_centralFrequency sort (Band.m_cc band) Hsort Hnd).
Qed.

(** Which abort a band with a negative gap meets: the one of the declared
    number of carriers when that number is not the number of carriers, and
    "CCs overlap" otherwise. *)
Lemma ValidateOperationBand_overlap_abort sort band :
  sorts_by CarrierFrequencyCompare sort ->
  0 <= Band.m_numCarriers band < 256 ->
  Exists (fun gap => gap < 0) (adjacent_gaps (sort (Band.m_cc band))) ->
  AnySort.ValidateOperationBand sort band
  = Fail (if Band.m_numCarriers band =? Z.of_nat (length (Band.m_cc band))
          then CcsOverlap else CcCountMismatch).
Proof.
  intros Hsort Hrange Hgap. unfold AnySort.ValidateOperationBand.
  assert (length (sort (Band.m_cc band)) = length (Band.m_cc band)) as Hsame.
  { apply Permutation_length, Hsort. }
  apply Exists_exists in Hgap as (g & Hin & Hneg).
  apply list_elem_of_lookup in Hin as (j & Hj).
  apply adjacent_gaps_lookup in Hj as (a & b & Ha & Hb & ->).
  assert (S j < length (Band.m_cc band))%nat as Hlen.
  { apply lookup_lt_Some in Hb. by rewrite Hsame in Hb. }
  rewrite bool_decide_eq_false_2
    by (intros Hnil; rewrite Hnil in Hlen; simpl in Hlen; lia).
  destruct (Z.eqb_spec (Band.m_numCarriers band) (Z.of_nat (length (Band.m_cc band))))
    as [Heq|Hne]; simpl; [|done].
  rewrite uint8_small by lia.
  rewrite (ValidateOperationBand_loop_overlap _ _ _ _ j a b);
    rewrite ?Hsame; first [done | lia].
Qed.

(** C5.  A band in which, once its carriers are sorted by ascending central
    frequency, an adjacent pair has a negative gap is never returned by
    [ValidateOperationBand]: the validation aborts, and it aborts with "CCs
    overlap" when the band declares the number of carriers it has (a band
    that declares another number is turned down for that, one check
    earlier).  The order is the one that the sort of the library gives the
    carriers, whatever it does with equal central frequencies: [sort] is any
    sort that meets the contract of [std::sort]. *)
Theorem ValidateOperationBand_rejects_overlap sort band :
  sorts_by CarrierFrequencyCompare sort ->
  0 <= Band.m_numCarriers band < 256 ->
  Exists (fun gap => gap < 0) (adjacent_gaps (sort (Band.m_cc band))) ->
  (exists e, AnySort.ValidateOperationBand sort band = Fail e)
  /\ (Band.m_numCarriers band = Z.of_nat (length (Band.m_cc band)) ->
      AnySort.ValidateOperationBand sort band = Fail CcsOverlap).
Proof.
  intros Hsort Hrange Hgap.
  rewrite (ValidateOperationBand_overlap_abort sort band Hsort Hrange Hgap).
  split; [eauto|]. intros ->. by rewrite Z.eqb_refl.
Qed.

(** The two carriers with bounds [0, 100e6] and [50e6, 150e6] fail the
    validation with the overlap error. *)
Lemma ValidateOperationBand_rejects_overlap_witness :
  0 <= Band.m_numCarriers overlapping_band < 256
  /\ Exists (fun gap => gap < 0)
       (adjacent_gaps (std_sort CarrierFrequencyCompare (Band.m_cc overlapping_band)))
  /\ ValidateOperationBand overlapping_band = Fail CcsOverlap.
Proof.
  assert (0 <= Band.m_numCarriers overlapping_band < 256) as H1 by (simpl; lia).
  assert (Exists (fun gap => gap < 0)
            (adjacent_gaps (std_sort CarrierFrequencyCompare (Band.m_cc overlapping_band))))
    as H2 by (apply Exists_cons_hd; reflexivity).
  split; [exact H1|]. split; [exact H2|].
  apply (proj2 (ValidateOperationBand_rejects_overlap
                  (std_sort CarrierFrequencyCompare) overlapping_band
                  (std_sort_sorts_by Cc.m_centralFrequency) H1 H2)).
  reflexivity.
Defined.

(** ** [ComponentCarrierInfo::AddBwp] *)

(** [AddBwp] aborts exactly when the carrier counts four BWPs already, and
    otherwise appends the BWP and counts it. *)
Lemma AddBwp_spec cc bwp :
  (4 <= Cc.m_numBwps cc -> AddBwp cc bwp = Fail MaxBwpsReached)
  /\ (0 <= Cc.m_numBwps cc < 4 ->
      exists cc', AddBwp cc bwp = Ok cc'
                  /\ Cc.m_bwp cc' = Cc.m_bwp cc ++ [bwp]
                  /\ Cc.m_numBwps cc' = Cc.m_numBwps cc + 1).
Proof.
  unfold AddBwp. split; intros H.
  - destruct (Z.geb_spec (Cc.m_numBwps cc) 4); [done|lia].
  - destruct (Z.geb_spec (Cc.m_numBwps cc) 4); [lia|]. simpl.
    eexists. split; [done|]. simpl. split; [done|]. apply uint8_small. lia.
Qed.

(** ** [CheckBwpsInCc] *)

Lemma CheckBwpsInCc_scan_inside cc bwps totalBandwidth activeFound :
  Forall (bwp_inside_cc cc) bwps ->
  CheckBwpsInCc_scan cc bwps totalBandwidth activeFound
  = Ok (foldl (fun t a => uint32 (t + Bwp.m_bandwidth a)) totalBandwidth bwps,
        activeFound || existsb (fun a => Bwp.m_bwpId a =? Cc.m_activeBwp cc) bwps).
Proof.
  intros Hin. revert totalBandwidth activeFound.
  induction Hin as [|a bwps [Hlo Hhi] _ IH]; intros t f; simpl.
  - by rewrite orb_false_r.
  - destruct (Z.gtb_spec (Bwp.m_higherFrequency a) (Cc.m_higherFrequency cc)); [lia|].
    destruct (Z.ltb_spec (Bwp.m_lowerFrequency a) (Cc.m_lowerFrequency cc)); [lia|].
    simpl. rewrite IH. f_equal. f_equal.
    destruct (Bwp.m_bwpId a =? Cc.m_activeBwp cc); simpl; [by rewrite orb_true_r|done].
Qed.

Lemma CheckBwpsInCc_scan_outside cc bwps totalBandwidth activeFound :
  ~ Forall (bwp_inside_cc cc) bwps ->
  CheckBwpsInCc_scan cc bwps totalBandwidth activeFound = Fail BwpOutOfCc.
Proof.
  revert totalBandwidth activeFound.
  induction bwps as [|a bwps IH]; intros t f Hout; simpl.
  - destruct Hout. constructor.
  - destruct (Z.gtb_spec (Bwp.m_higherFrequency a) (Cc.m_higherFrequency cc)); [done|].
    destruct (Z.ltb_spec (Bwp.m_lowerFrequency a) (Cc.m_lowerFrequency cc)); [done|].
    simpl. apply IH. intros Hrest. apply Hout. constructor; [|done].
    unfold bwp_inside_cc. lia.
Qed.

(** The accumulator of the scan is the sum of the bandwidths as long as that
    sum fits 32 bits. *)
Lemma totalBandwidth_exact bwps t :
  Forall (fun a => 0 <= Bwp.m_bandwidth a) bwps ->
  0 <= t -> t + bwp_bandwidth_sum bwps < 4294967296 ->
  foldl (fun t a => uint32 (t + Bwp.m_bandwidth a)) t bwps = t + bwp_bandwidth_sum bwps.
Proof.
  intros Hpos. revert t. induction Hpos as [|a bwps Ha Hpos IH]; intros t Ht Hsum; simpl in *.
  - lia.
  - assert (0 <= bwp_bandwidth_sum bwps) as Hrest.
    { clear -Hpos. induction Hpos; simpl; lia. }
    rewrite uint32_small by lia. rewrite IH; lia.
Qed.

Lemma bwp_bandwidth_sum_Permutation l1 l2 :
  l1 ≡ₚ l2 -> bwp_bandwidth_sum l1 = bwp_bandwidth_sum l2.
Proof. induction 1; simpl; lia. Qed.

Lemma existsb_bwpId bwps id :
  existsb (fun a => Bwp.m_bwpId a =? id) bwps = true <-> id ∈ Bwp.m_bwpId <$> bwps.
Proof.
  rewrite existsb_exists, list_elem_of_fmap. split.
  - intros (a & Hin & Heq). exists a. apply Z.eqb_eq in Heq.
    split; [done|]. by apply list_elem_of_In.
  - intros (a & -> & Hin). exists a. split; [by apply list_elem_of_In|]. apply Z.eqb_refl.
Qed.

(** *** The loops over the neighbours *)

Lemma adjacent_pairs_lookup {A} (l : list A) j a b :
  adjacent_pairs l !! j = Some (a, b) <-> l !! j = Some a /\ l !! S j = Some b.
Proof.
  unfold adjacent_pairs. rewrite lookup_zip_with_Some. setoid_rewrite lookup_tail.
  split.
  - intros (x & y & Heq & Hx & Hy). by simplify_eq.
  - intros [Ha Hb]. by exists a, b.
Qed.

Lemma adjacent_pairs_length {A} (l : list A) :
  length (adjacent_pairs l) = (length l - 1)%nat.
Proof.
  unfold adjacent_pairs. rewrite length_zip.
  destruct l; [done|]. cbn [tail length]. lia.
Qed.

(** A loop that reads [v.at (a)] and [v.at (a+1)] and aborts when [test]
    holds of them checks the pairs of neighbours from position [i] on. *)
Lemma for_range_adjacent {A} (v : list A) (test : A -> A -> bool) e n i :
  (i + n < length v)%nat ->
  for_range n i (fun a => x ← at_ v a; y ← at_ v (a + 1); abort_if (test x y) e)
  = if forallb (fun p => negb (test (fst p) (snd p))) (take n (drop i (adjacent_pairs v)))
    then Ok tt else Fail e.
Proof.
  revert i. induction n as [|n IH]; intros i Hlen; simpl; [done|].
  destruct (lookup_lt_is_Some_2 v i) as [x Hx]; [lia|].
  destruct (lookup_lt_is_Some_2 v (S i)) as [y Hy]; [lia|].
  replace (i + 1)%nat with (S i) by lia.
  rewrite (at_Some _ _ _ Hx), (at_Some _ _ _ Hy). simpl.
  assert (adjacent_pairs v !! i = Some (x, y)) as Hp by by apply adjacent_pairs_lookup.
  rewrite (drop_S _ _ _ Hp). simpl.
  destruct (test x y); simpl; [done|]. apply IH. lia.
Qed.

Lemma for_range_adjacent_all {A} (v : list A) (test : A -> A -> bool) e :
  v <> [] ->
  for_range (length v - 1) 0
    (fun a => x ← at_ v a; y ← at_ v (a + 1); abort_if (test x y) e)
  = if forallb (fun p => negb (test (fst p) (snd p))) (adjacent_pairs v)
    then Ok tt else Fail e.
Proof.
  intros Hne. rewrite for_range_adjacent.
  - rewrite drop_0, take_ge; [done|]. by rewrite adjacent_pairs_length.
  - destruct v; [done|]. simpl. lia.
Qed.

Lemma forallb_Forall {A} (f : A -> bool) (P : A -> Prop) l :
  (forall x, f x = true <-> P x) -> forallb f l = true <-> Forall P l.
Proof.
  intros Hf. rewrite forallb_forall, Forall_forall.
  split; intros H x Hx; apply Hf, H; by apply list_elem_of_In.
Qed.

(** *** Repeated ids are neighbours once the BWPs are sorted by id *)

Section Distinct.
Context {A : Type} (key : A -> Z).

#[local] Instance le_key_trans : Transitive (le_key key).
Proof. intros x y z. unfold le_key. lia. Qed.

Lemma adjacent_pairs_cons x y (l : list A) :
  adjacent_pairs (x :: y :: l) = (x, y) :: adjacent_pairs (y :: l).
Proof. reflexivity. Qed.

Lemma sorted_distinct_neighbours_NoDup l :
  Sorted (le_key key) l ->
  Forall (keys_differ key) (adjacent_pairs l) ->
  NoDup (key <$> l).
Proof.
  intros Hs. apply Sorted_StronglySorted in Hs; [|apply _].
  induction Hs as [|x l Hs IH Hx]; intros Hd; simpl; [constructor|].
  destruct l as [|y l]; [repeat constructor; set_solver|].
  rewrite adjacent_pairs_cons in Hd. inversion_clear Hd as [|? ? Hxy Hrest].
  constructor; [|by apply IH].
  unfold keys_differ in Hxy. simpl in Hxy.
  intros Hin. apply list_elem_of_fmap in Hin as (z & Hz & Hin).
  assert (key y <= key z) as Hyz.
  { inversion_clear Hs as [|? ? _ Hy].
    apply elem_of_cons in Hin as [->|Hin]; [lia|].
    by apply (proj1 (Forall_forall _ _) Hy). }
  inversion_clear Hx as [|? ? Hxy' _]. unfold le_key in Hxy'. lia.
Qed.

Lemma NoDup_distinct_neighbours l :
  NoDup (key <$> l) -> Forall (keys_differ key) (adjacent_pairs l).
Proof.
  intros Hnd. apply Forall_lookup. intros j [a b] Hp.
  apply adjacent_pairs_lookup in Hp as [Ha Hb].
  unfold keys_differ. simpl. intros Heq.
  assert (j = S j); [|lia].
  apply (NoDup_lookup _ _ _ (key a) Hnd); rewrite list_lookup_fmap.
  - by rewrite Ha.
  - rewrite Hb. simpl. by rewrite Heq.
Qed.
End Distinct.

(** *** The result of [CheckBwpsInCc] *)

(** The validation of a carrier whose BWPs meet the six conditions returns: it
    leaves the BWPs sorted by id.  (Up to four bandwidths of 32 bits are
    added: the premise on the sum says that the addition does not wrap.) *)
Lemma CheckBwpsInCc_valid cc :
  Forall (fun a => 0 <= Bwp.m_bandwidth a) (Cc.m_bwp cc) ->
  bwp_bandwidth_sum (Cc.m_bwp cc) < 4294967296 ->
  CarrierBwpsValid cc ->
  CheckBwpsInCc cc
  = Ok (Cc.set_bwp cc (std_sort BwpIdCompare (std_sort BwpFrequencyCompare (Cc.m_bwp cc)))).
Proof.
  intros Hpos Hfit [Hcount Hin Hsum Hact Hapart Hids]. unfold CheckBwpsInCc.
  set (byFreq := std_sort BwpFrequencyCompare (Cc.m_bwp cc)) in *.
  set (byId := std_sort BwpIdCompare byFreq).
  assert (byFreq ≡ₚ Cc.m_bwp cc) as HpF by apply std_sort_Permutation.
  assert (byId ≡ₚ Cc.m_bwp cc) as HpI by (unfold byId; by rewrite std_sort_Permutation).
  rewrite uint8_small by lia.
  destruct (Z.gtb_spec (Z.of_nat (length (Cc.m_bwp cc))) 4); [lia|].
  destruct (Z.ltb_spec (Z.of_nat (length (Cc.m_bwp cc))) 1); [lia|]. simpl.
  rewrite CheckBwpsInCc_scan_inside by (by rewrite HpF). simpl.
  rewrite totalBandwidth_exact;
    rewrite ?(bwp_bandwidth_sum_Permutation _ _ HpF); [| by rewrite HpF | lia | lia].
  destruct (Z.gtb_spec (0 + bwp_bandwidth_sum (Cc.m_bwp cc)) (Cc.m_bandwidth cc)); [lia|].
  simpl.
  assert (existsb (fun a => Bwp.m_bwpId a =? Cc.m_activeBwp cc) byFreq = true) as ->.
  { apply existsb_bwpId. by rewrite HpF. }
  simpl.
  replace (Z.to_nat (Z.of_nat (length (Cc.m_bwp cc)) - 1))
    with (length byFreq - 1)%nat by (rewrite HpF; lia).
  assert (byFreq <> []) as HneF.
  { intros Hnil. rewrite Hnil in HpF. apply Permutation_length in HpF. simpl in HpF. lia. }
  rewrite for_range_adjacent_all by done.
  assert (forallb (fun p => negb (Bwp.m_higherFrequency (fst p) >? Bwp.m_lowerFrequency (snd p)))
            (adjacent_pairs byFreq) = true) as ->.
  { apply (forallb_Forall _ bwp_pair_apart); [|done].
    intros [x y]. unfold bwp_pair_apart. simpl.
    by rewrite negb_true_iff, Z.gtb_ltb, Z.ltb_ge. }
  simpl.
  replace (length byFreq - 1)%nat with (length byId - 1)%nat by (by rewrite HpI, HpF).
  assert (byId <> []) as HneI.
  { intros Hnil. rewrite Hnil in HpI. apply Permutation_length in HpI. simpl in HpI. lia. }
  rewrite for_range_adjacent_all by done.
  assert (forallb (fun p => negb (Bwp.m_bwpId (fst p) =? Bwp.m_bwpId (snd p)))
            (adjacent_pairs byId) = true) as ->.
  { apply (forallb_Forall _ (keys_differ Bwp.m_bwpId)).
    - intros [x y]. unfold keys_differ. simpl. rewrite negb_true_iff. apply Z.eqb_neq.
    - apply NoDup_distinct_neighbours. by rewrite HpI. }
  done.
Qed.

#[local] Instance bwp_inside_cc_dec cc a : Decision (bwp_inside_cc cc a).
Proof. unfold bwp_inside_cc. apply _. Defined.

(** Conversely, a carrier that passes the validation meets the six
    conditions (as long as there are fewer than 256 BWPs, so that their number
    fits the [uint8_t] that holds it, and the sum of the bandwidths fits
    32 bits). *)
Lemma CheckBwpsInCc_Ok_valid cc :
  (length (Cc.m_bwp cc) < 256)%nat ->
  Forall (fun a => 0 <= Bwp.m_bandwidth a) (Cc.m_bwp cc) ->
  bwp_bandwidth_sum (Cc.m_bwp cc) < 4294967296 ->
  is_Ok (CheckBwpsInCc cc) = true ->
  CarrierBwpsValid cc.
Proof.
  intros Hlen Hpos Hfit. unfold CheckBwpsInCc.
  set (byFreq := std_sort BwpFrequencyCompare (Cc.m_bwp cc)) in *.
  set (byId := std_sort BwpIdCompare byFreq).
  assert (byFreq ≡ₚ Cc.m_bwp cc) as HpF by apply std_sort_Permutation.
  assert (byId ≡ₚ Cc.m_bwp cc) as HpI by (unfold byId; by rewrite std_sort_Permutation).
  rewrite uint8_small by lia.
  destruct (Z.gtb_spec (Z.of_nat (length (Cc.m_bwp cc))) 4) as [|Hle4]; [done|].
  destruct (Z.ltb_spec (Z.of_nat (length (Cc.m_bwp cc))) 1) as [|Hge1]; [done|]. simpl.
  destruct (decide (Forall (bwp_inside_cc cc) byFreq)) as [Hin|Hout];
    [|by rewrite CheckBwpsInCc_scan_outside].
  rewrite CheckBwpsInCc_scan_inside by done. simpl.
  rewrite totalBandwidth_exact;
    rewrite ?(bwp_bandwidth_sum_Permutation _ _ HpF); [| by rewrite HpF | lia | lia].
  destruct (Z.gtb_spec (0 + bwp_bandwidth_sum (Cc.m_bwp cc)) (Cc.m_bandwidth cc))
    as [|Hsum]; [done|]. simpl.
  destruct (existsb (fun a => Bwp.m_bwpId a =? Cc.m_activeBwp cc) byFreq) eqn:Hact;
    [|done]. simpl.
  replace (Z.to_nat (Z.of_nat (length (Cc.m_bwp cc)) - 1))
    with (length byFreq - 1)%nat by (rewrite HpF; lia).
  assert (byFreq <> []) as HneF.
  { intros Hnil. rewrite Hnil in HpF. apply Permutation_length in HpF. simpl in HpF. lia. }
  rewrite for_range_adjacent_all by done.
  destruct (forallb _ (adjacent_pairs byFreq)) eqn:Hapart; [|done]. simpl.
  replace (length byFreq - 1)%nat with (length byId - 1)%nat by (by rewrite HpI, HpF).
  assert (byId <> []) as HneI.
  { intros Hnil. rewrite Hnil in HpI. apply Permutation_length in HpI. simpl in HpI. lia. }
  rewrite for_range_adjacent_all by done.
  destruct (forallb _ (adjacent_pairs byId)) eqn:Hids; [|done]. intros _.
  split.
  - lia.
  - by rewrite <- HpF.
  - lia.
  - rewrite <- HpF. by apply existsb_bwpId.
  - apply (forallb_Forall _ bwp_pair_apart) in Hapart; [done|].
    intros [x y]. unfold bwp_pair_apart. simpl.
    by rewrite negb_true_iff, Z.gtb_ltb, Z.ltb_ge.
  - rewrite <- HpI. apply sorted_distinct_neighbours_NoDup.
    + unfold byId. rewrite BwpIdCompare_lt_key. apply std_sort_Sorted.
    + apply (forallb_Forall _ (keys_differ Bwp.m_bwpId)) in Hids; [done|].
      intros [x y]. unfold keys_differ. simpl. rewrite negb_true_iff. apply Z.eqb_neq.
Qed.

(** X7.  [CheckBwpsInCc] returns if and only if the six conditions hold, on every
    carrier whose number of BWPs and whose sum of BWP bandwidths stay within
    the integers that hold them. *)
Lemma CheckBwpsInCc_Ok_iff cc :
  (length (Cc.m_bwp cc) < 256)%nat ->
  Forall (fun a => 0 <= Bwp.m_bandwidth a) (Cc.m_bwp cc) ->
  bwp_bandwidth_sum (Cc.m_bwp cc) < 4294967296 ->
  is_Ok (CheckBwpsInCc cc) = true <-> CarrierBwpsValid cc.
Proof.
  intros Hlen Hpos Hfit. split.
  - by apply CheckBwpsInCc_Ok_valid.
  - intros Hvalid. by rewrite CheckBwpsInCc_valid.
Qed.

(** C4.  [CheckBwpsInCc] at two carriers that break the conditions of the
    claim and are returned all the same.  The BWPs of [overflowing_cc] declare
    2^31 Hz each: their sum, 2^32 Hz, exceeds the 400 MHz of the carrier, but
    [totalBandwidth] is a [uint32_t] and holds 0 after the second addition.
    [crowded_cc] has 257 BWPs, all with the same id: [numBwps] is a [uint8_t]
    and holds 1, so that the count passes and the two loops over the
    neighbours do not run. *)
Theorem CheckBwpsInCc_accepts_invalid_carriers :
  bwp_bandwidth_sum (Cc.m_bwp overflowing_cc) = 4294967296
  /\ Cc.m_bandwidth overflowing_cc = 400000000
  /\ is_Ok (CheckBwpsInCc overflowing_cc) = true
  /\ ~ CarrierBwpsValid overflowing_cc
  /\ length (Cc.m_bwp crowded_cc) = 257%nat
  /\ is_Ok (CheckBwpsInCc crowded_cc) = true
  /\ ~ CarrierBwpsValid crowded_cc.
Proof.
  split; [reflexivity|]. split; [reflexivity|]. split; [vm_compute; reflexivity|].
  split; [intros [_ _ Hsum _ _ _]; vm_compute in Hsum; by apply Hsum|].
  split; [reflexivity|]. split; [vm_compute; reflexivity|].
  intros [[_ Hcount] _ _ _ _ _]. vm_compute in Hcount. lia.
Qed.

(** ** [ValidateCaBwpConfiguration] *)

(** *** What the validation of a band keeps *)

Lemma CheckBwpsInCc_Ok_inv cc cc' :
  CheckBwpsInCc cc = Ok cc' -> exists bwps, cc' = Cc.set_bwp cc bwps.
Proof.
  unfold CheckBwpsInCc. intros H.
  repeat (let a := fresh "a" in let Ha := fresh "Ha" in
          apply bind_Ok_inv in H; destruct H as (a & Ha & H);
          try match type of H with context [let '(_, _) := ?p in _] => destruct p end).
  injection H as <-. eauto.
Qed.

Lemma for_each_Ok_inv {A} (f : A -> Result A) (R : A -> A -> Prop) v v' :
  (forall x x', f x = Ok x' -> R x x') ->
  for_each f v = Ok v' -> Forall2 R v v'.
Proof.
  intros Hf. revert v'. induction v as [|x v IH]; intros v' H; simpl in H.
  - injection H as <-. constructor.
  - bind_inv H. bind_inv H. injection H as <-. constructor; eauto.
Qed.

Lemma num_primary_Permutation l1 l2 : l1 ≡ₚ l2 -> num_primary l1 = num_primary l2.
Proof.
  induction 1; simpl; repeat case_bool_decide; lia.
Qed.

Lemma num_primary_Forall2 l1 l2 :
  Forall2 (fun cc cc' => Cc.m_primaryCc cc' = Cc.m_primaryCc cc) l1 l2 ->
  num_primary l2 = num_primary l1.
Proof.
  induction 1 as [|cc cc' l1 l2 Heq _ IH]; simpl; [done|]. rewrite Heq, IH. done.
Qed.

(** [ValidateOperationBand] rewrites the contiguity mode and the order of the
    carriers (and of their BWPs) only. *)
Lemma ValidateOperationBand_Ok_inv band band' :
  ValidateOperationBand band = Ok band' ->
  Band.m_lowerFrequency band' = Band.m_lowerFrequency band
  /\ Band.m_higherFrequency band' = Band.m_higherFrequency band
  /\ Band.m_numCarriers band' = Band.m_numCarriers band
  /\ num_primary (Band.m_cc band') = num_primary (Band.m_cc band).
Proof.
  unfold ValidateOperationBand. intros H.
  do 4 bind_inv H. injection H as <-. simpl. repeat split.
  rewrite <- (num_primary_Permutation _ _
                (std_sort_Permutation CarrierFrequencyCompare (Band.m_cc band))).
  apply num_primary_Forall2.
  eapply for_each_Ok_inv; [|done].
  intros x x' Hx. simpl. apply CheckBwpsInCc_Ok_inv in Hx as [bwps ->]. done.
Qed.

(** *** The inner loop *)

Lemma count_primary_uint8 ccs n :
  0 <= n < 256 -> count_primary ccs n = uint8 (n + num_primary ccs).
Proof.
  revert n. unfold count_primary.
  induction ccs as [|cc ccs IH]; intros n Hn; simpl.
  - by rewrite Z.add_0_r, uint8_small.
  - case_bool_decide.
    + rewrite IH by apply uint8_range. unfold uint8.
      rewrite Zplus_mod_idemp_l. f_equal. lia.
    + by apply IH.
Qed.

(** The fourth check fires as soon as a band at another position starts
    above the end of [a]. *)
Lemma ValidateCaBwpConfiguration_inner_fires a ia bs ib numPrimaryCcs j b :
  bs !! j = Some b ->
  ia <> (ib + j)%nat ->
  Band.m_higherFrequency a < Band.m_lowerFrequency b ->
  ValidateCaBwpConfiguration_inner a ia bs ib numPrimaryCcs = Fail BandsOverlap.
Proof.
  revert ib numPrimaryCcs j.
  induction bs as [|b0 bs IH]; intros ib n j Hj Hne Hlt; [done|]. simpl.
  destruct (negb (ia =? ib)%nat && (Band.m_higherFrequency a <? Band.m_lowerFrequency b0))
    eqn:Hc; [done|].
  destruct j as [|j]; simpl in Hj.
  - injection Hj as ->. apply andb_false_iff in Hc as [Hc|Hc].
    + apply negb_false_iff, Nat.eqb_eq in Hc. lia.
    + apply Z.ltb_ge in Hc. lia.
  - apply (IH _ _ j); [done|lia|done].
Qed.

(** When it does not fire, no such band exists and every PRIMARY carrier of
    every band has been counted. *)
Lemma ValidateCaBwpConfiguration_inner_Ok a ia bs ib numPrimaryCcs r :
  0 <= numPrimaryCcs < 256 ->
  ValidateCaBwpConfiguration_inner a ia bs ib numPrimaryCcs = Ok r ->
  r = uint8 (numPrimaryCcs + total_primary bs)
  /\ forall j b, bs !! j = Some b -> ia <> (ib + j)%nat ->
                 Band.m_lowerFrequency b <= Band.m_higherFrequency a.
Proof.
  revert ib numPrimaryCcs.
  induction bs as [|b0 bs IH]; intros ib n Hn H; simpl in H.
  - injection H as <-. simpl. rewrite Z.add_0_r, uint8_small by done. done.
  - destruct (negb (ia =? ib)%nat && (Band.m_higherFrequency a <? Band.m_lowerFrequency b0))
      eqn:Hc; [done|].
    apply IH in H as [-> Hall]; [|rewrite count_primary_uint8 by done; apply uint8_range].
    split.
    + rewrite count_primary_uint8 by done. simpl. unfold uint8.
      rewrite Zplus_mod_idemp_l. f_equal. lia.
    + intros [|j] b Hj Hne; simpl in Hj.
      * injection Hj as ->. apply andb_false_iff in Hc as [Hc|Hc].
        -- apply negb_false_iff, Nat.eqb_eq in Hc. lia.
        -- by apply Z.ltb_ge in Hc.
      * apply (Hall j); [done|lia].
Qed.

(** *** The outer loop *)

Lemma total_primary_app l1 l2 :
  total_primary (l1 ++ l2) = total_primary l1 + total_primary l2.
Proof. induction l1 as [|b l1 IH]; simpl; lia. Qed.

Lemma lookup_middle_ne {A} (l1 l2 : list A) x y j :
  j <> length l1 -> (l1 ++ x :: l2) !! j = (l1 ++ y :: l2) !! j.
Proof.
  intros Hne. destruct (decide (j < length l1)%nat) as [Hlt|Hge].
  - by rewrite !lookup_app_l.
  - rewrite !lookup_app_r by lia.
    destruct (j - length l1)%nat as [|k] eqn:Hk; [lia|done].
Qed.

(** The counter of PRIMARY carriers is not reset between two bands of the
    outer loop, and the inner loop counts the carriers of every band each
    time: at the end the counter holds the number of PRIMARY carriers times
    the number of bands.  And a topology goes through the fourth check only
    if no band starts above the end of another one. *)
Lemma ValidateCaBwpConfiguration_outer_Ok done todo numAggrCcs numPrimaryCcs r :
  0 <= numPrimaryCcs < 256 ->
  ValidateCaBwpConfiguration_outer done todo numAggrCcs numPrimaryCcs = Ok r ->
  snd r = uint8 (numPrimaryCcs + Z.of_nat (length todo) * total_primary (done ++ todo))
  /\ forall i a j b,
       todo !! i = Some a -> (done ++ todo) !! j = Some b ->
       j <> (length done + i)%nat ->
       Band.m_lowerFrequency b <= Band.m_higherFrequency a.
Proof.
  revert done numAggrCcs numPrimaryCcs.
  induction todo as [|a rest IH]; intros done aggr prim Hprim H; simpl in H.
  - injection H as <-. simpl. rewrite Z.add_0_r, uint8_small by done. done.
  - apply bind_Ok_inv in H as (a' & Hval & H).
    apply bind_Ok_inv in H as (p1 & Hinner & H).
    apply ValidateOperationBand_Ok_inv in Hval as (Hlo & Hhi & _ & Hnp).
    apply ValidateCaBwpConfiguration_inner_Ok in Hinner as [-> Hfirst]; [|done].
    assert (total_primary (done ++ a' :: rest) = total_primary (done ++ a :: rest)) as HT.
    { rewrite !total_primary_app. simpl. by rewrite Hnp. }
    apply IH in H as [-> Hothers]; [|apply uint8_range].
    rewrite <- (assoc_L (++)) in Hothers |- *. simpl in Hothers |- *.
    rewrite HT. split.
    + unfold uint8. rewrite Zplus_mod_idemp_l. f_equal. lia.
    + intros i b j c Hi Hj Hne. destruct i as [|i]; simpl in Hi.
      * injection Hi as <-. rewrite <- Hhi. apply (Hfirst j); [|lia].
        rewrite (lookup_middle_ne _ _ _ a) by lia. done.
      * destruct (decide (j = length done)) as [->|Hj'].
        -- rewrite list_lookup_middle in Hj by done. injection Hj as <-.
           rewrite <- Hlo. apply (Hothers i b (length done)); [done| |].
           ++ by rewrite list_lookup_middle.
           ++ rewrite length_app. simpl. lia.
        -- apply (Hothers i b j); [done| |].
           ++ rewrite (lookup_middle_ne _ _ _ a) by done. done.
           ++ rewrite length_app. simpl. lia.
Qed.

(** A topology that passes [ValidateCaBwpConfiguration] has a number of
    PRIMARY carriers whose product by the number of bands is 1 modulo 256, and
    no two of its bands are disjoint. *)
Lemma ValidateCaBwpConfiguration_Ok_inv MAX_CC_INTER_BAND s s' :
  ValidateCaBwpConfiguration MAX_CC_INTER_BAND s = Ok s' ->
  uint8 (Z.of_nat (length (m_bands s)) * total_primary (m_bands s)) = 1
  /\ forall i j a b,
       m_bands s !! i = Some a -> m_bands s !! j = Some b -> i <> j ->
       ~ bands_disjoint a b.
Proof.
  unfold ValidateCaBwpConfiguration. intros H.
  do 2 bind_inv H. apply bind_Ok_inv in H as ([[bands numAggrCcs] numPrimaryCcs] & Houter & H).
  do 2 bind_inv H.
  apply ValidateCaBwpConfiguration_outer_Ok in Houter as [Hcount Hbands]; [|lia].
  simpl in Hcount, Hbands. subst numPrimaryCcs. split.
  - unfold abort_if in Ha2. destruct (negb _) eqn:Hc in Ha2; [done|].
    apply negb_false_iff, Z.eqb_eq in Hc. done.
  - intros i j x y Hi Hj Hne [Hd|Hd].
    + pose proof (Hbands i x j y Hi Hj ltac:(lia)). lia.
    + pose proof (Hbands j y i x Hj Hi ltac:(lia)). lia.
Qed.

(** With one PRIMARY carrier and more than one band the validation never
    succeeds. *)
Lemma ValidateCaBwpConfiguration_one_primary_many_bands MAX_CC_INTER_BAND s :
  0 <= m_numBands s < 256 ->
  total_primary (m_bands s) = 1 ->
  (2 <= length (m_bands s))%nat ->
  is_Ok (ValidateCaBwpConfiguration MAX_CC_INTER_BAND s) = false.
Proof.
  intros Hrange Hone Hmany.
  destruct (ValidateCaBwpConfiguration MAX_CC_INTER_BAND s) as [s'|e] eqn:H; [|done].
  exfalso. pose proof H as [Hcount _]%ValidateCaBwpConfiguration_Ok_inv.
  unfold ValidateCaBwpConfiguration in H. bind_inv H.
  unfold abort_if in Ha. destruct (negb _) eqn:Hc in Ha; [done|].
  apply negb_false_iff, Z.eqb_eq in Hc.
  rewrite Hone, Z.mul_1_r, uint8_small in Hcount by lia. lia.
Qed.

(** With two bands of which one ends below the start of the other the
    validation never succeeds. *)
Lemma ValidateCaBwpConfiguration_disjoint_bands MAX_CC_INTER_BAND s i j a b :
  m_bands s !! i = Some a -> m_bands s !! j = Some b -> i <> j ->
  bands_disjoint a b ->
  is_Ok (ValidateCaBwpConfiguration MAX_CC_INTER_BAND s) = false.
Proof.
  intros Hi Hj Hne Hd.
  destruct (ValidateCaBwpConfiguration MAX_CC_INTER_BAND s) as [s'|e] eqn:H; [|done].
  apply ValidateCaBwpConfiguration_Ok_inv in H as [_ H]. by destruct (H i j a b).
Qed.

(** C2.  [ValidateCaBwpConfiguration] at a topology of two bands, one next to
    the other, with one PRIMARY carrier in all: every band is valid, the
    number of bands, the check on the bands and the number of aggregated
    carriers pass, and the validation aborts on the last check, "There must
    be one primary CC", because the carriers are counted once per band of the
    outer loop (2 here).  The same PRIMARY carrier in a topology of one band
    passes. *)
Theorem ValidateCaBwpConfiguration_rejects_one_primary_in_two_bands :
  total_primary (m_bands adjacent_bands_topology) = 1
  /\ length (m_bands adjacent_bands_topology) = 2%nat
  /\ snd <$> ValidateCaBwpConfiguration_outer [] (m_bands adjacent_bands_topology) 0 0
     = Ok 2
  /\ ValidateCaBwpConfiguration 16 adjacent_bands_topology = Fail NotOnePrimaryCc
  /\ is_Ok (ValidateCaBwpConfiguration 16 single_band_topology) = true.
Proof. repeat split; vm_compute; reflexivity. Qed.

(** C3.  [ValidateCaBwpConfiguration] at two topologies of two valid bands.
    The bands of [disjoint_bands_topology] are 200 MHz apart: the validation
    aborts with "Bands shall not overlap".  The bands of
    [overlapping_bands_topology] share 200 MHz: the loops end without that
    abort (the validation then stops at the count of the PRIMARY carriers). *)
Theorem ValidateCaBwpConfiguration_band_check_inverted :
  match m_bands disjoint_bands_topology with
  | [a; b] => bands_disjoint a b
  | _ => False
  end
  /\ ValidateCaBwpConfiguration 16 disjoint_bands_topology = Fail BandsOverlap
  /\ match m_bands overlapping_bands_topology with
     | [a; b] => bands_overlap a b
     | _ => False
     end
  /\ is_Ok (ValidateCaBwpConfiguration_outer [] (m_bands overlapping_bands_topology) 0 0)
     = true
  /\ ValidateCaBwpConfiguration 16 overlapping_bands_topology = Fail NotOnePrimaryCc.
Proof.
  split; [left; reflexivity|]. split; [vm_compute; reflexivity|].
  split; [split; reflexivity|]. split; vm_compute; reflexivity.
Qed.

(** ** [GetActiveBwpInfo] and [ChangeActiveBwp] *)

Lemma find_bwp_Some id bwps bwp :
  find_bwp id bwps = Some bwp -> Bwp.m_bwpId bwp = id /\ bwp ∈ bwps.
Proof.
  unfold find_bwp. intros H.
  destruct (list_find _ bwps) as [[i x]|] eqn:Hfind; [|done].
  simpl in H. injection H as ->.
  apply list_find_Some in Hfind as (Hi & Hid & _).
  split; [done|]. by eapply list_elem_of_lookup_2.
Qed.

Lemma find_bwp_None id bwps :
  find_bwp id bwps = None <-> id ∉ Bwp.m_bwpId <$> bwps.
Proof.
  unfold find_bwp. rewrite fmap_None, list_find_None, Forall_forall.
  rewrite list_elem_of_fmap. split.
  - intros H (bwp & -> & Hin). by apply (H bwp).
  - intros H bwp Hin Hid. apply H. by exists bwp.
Qed.

Lemma find_bwp_is_Some id bwps :
  id ∈ Bwp.m_bwpId <$> bwps -> is_Some (find_bwp id bwps).
Proof.
  intros Hin. destruct (find_bwp id bwps) eqn:H; [by eexists|].
  by apply find_bwp_None in H.
Qed.

(** On a topology whose counters agree with its vectors, the lookup at the
    position of a carrier passes the checks on the indices and searches the
    BWPs of that carrier. *)
Lemma GetActiveBwpInfo_at s bi ci band cc :
  counts_consistent s ->
  m_bands s !! bi = Some band -> Band.m_cc band !! ci = Some cc ->
  GetActiveBwpInfo s (Z.of_nat bi) (Z.of_nat ci)
  = match find_bwp (Cc.m_activeBwp cc) (Cc.m_bwp cc) with
    | Some bwp => Ok bwp
    | None => Fail ActiveBwpNotFound
    end.
Proof.
  intros [Hmax Hbands] Hb Hc. unfold GetActiveBwpInfo.
  pose proof (lookup_lt_Some _ _ _ Hb) as Hbi.
  pose proof (lookup_lt_Some _ _ _ Hc) as Hci.
  pose proof (Forall_lookup_1 _ _ _ _ Hbands Hb) as [Hnum _].
  rewrite bool_decide_eq_false_2 by (intros Hnil; rewrite Hnil in Hbi; simpl in Hbi; lia).
  simpl.
  destruct (Z.geb_spec (Z.of_nat bi) (m_maxBands s)); [lia|].
  destruct (Z.geb_spec (Z.of_nat bi) (Z.of_nat (length (m_bands s)))); [lia|].
  simpl. rewrite !Nat2Z.id, (at_Some _ _ _ Hb). simpl.
  rewrite bool_decide_eq_false_2 by (intros Hnil; rewrite Hnil in Hci; simpl in Hci; lia).
  simpl.
  destruct (Z.gtb_spec (Z.of_nat ci) (Band.m_numCarriers band - 1)); [lia|].
  destruct (Z.gtb_spec (Z.of_nat ci) (Z.of_nat (length (Band.m_cc band)) - 1)); [lia|].
  simpl. rewrite (at_Some _ _ _ Hc). done.
Qed.

Lemma ChangeActiveBwp_ccs_Some ccs ccId activeBwpId ccs' :
  ChangeActiveBwp_ccs ccs ccId activeBwpId = Some ccs' ->
  exists ci cc,
    ccs !! ci = Some cc /\ Cc.m_ccId cc = ccId
    /\ activeBwpId ∈ Bwp.m_bwpId <$> Cc.m_bwp cc
    /\ ccs' = <[ci := Cc.set_activeBwp cc activeBwpId]> ccs.
Proof.
  revert ccs'. induction ccs as [|cc ccs IH]; intros ccs' H; simpl in H; [done|].
  destruct ((Cc.m_ccId cc =? ccId) && existsb _ (Cc.m_bwp cc)) eqn:Hc.
  - injection H as <-. apply andb_true_iff in Hc as [Hid Hex].
    exists 0%nat, cc. simpl. repeat split; [by apply Z.eqb_eq|by apply existsb_bwpId].
  - destruct (ChangeActiveBwp_ccs ccs ccId activeBwpId) as [rest|]; [|done].
    simpl in H. injection H as <-.
    destruct (IH rest eq_refl) as (ci & c & Hci & Hid & Hin & ->).
    exists (S ci), c. done.
Qed.

Lemma ChangeActiveBwp_bands_Some bands bandId ccId activeBwpId bands' :
  ChangeActiveBwp_bands bands bandId ccId activeBwpId = Some bands' ->
  exists bi band ci cc,
    bands !! bi = Some band /\ Band.m_bandId band = bandId
    /\ Band.m_cc band !! ci = Some cc /\ Cc.m_ccId cc = ccId
    /\ activeBwpId ∈ Bwp.m_bwpId <$> Cc.m_bwp cc
    /\ bands' = <[bi := Band.set_cc band
                          (<[ci := Cc.set_activeBwp cc activeBwpId]> (Band.m_cc band))]> bands.
Proof.
  revert bands'. induction bands as [|band bands IH]; intros bands' H; simpl in H; [done|].
  destruct (if Band.m_bandId band =? bandId
            then ChangeActiveBwp_ccs (Band.m_cc band) ccId activeBwpId else None)
    as [ccs|] eqn:Hc.
  - injection H as <-.
    destruct (Z.eqb_spec (Band.m_bandId band) bandId) as [Hid|]; [|done].
    apply ChangeActiveBwp_ccs_Some in Hc as (ci & cc & Hci & Hcc & Hin & ->).
    by exists 0%nat, band, ci, cc.
  - destruct (ChangeActiveBwp_bands bands bandId ccId activeBwpId) as [rest|]; [|done].
    simpl in H. injection H as <-.
    destruct (IH rest eq_refl) as (bi & b & ci & cc & Hbi & Hb & Hci & Hcc & Hin & ->).
    by exists (S bi), b, ci, cc.
Qed.

(** [ChangeActiveBwp] keeps the counters in step with the vectors. *)
Lemma ChangeActiveBwp_counts_consistent s bandId ccId activeBwpId s' :
  counts_consistent s ->
  ChangeActiveBwp s bandId ccId activeBwpId = Ok s' ->
  counts_consistent s'.
Proof.
  intros [Hmax Hbands]. unfold ChangeActiveBwp.
  destruct (ChangeActiveBwp_bands _ _ _ _) as [bands'|] eqn:H; [|done].
  intros [= <-].
  apply ChangeActiveBwp_bands_Some in H
    as (bi & band & ci & cc & Hbi & _ & Hci & _ & _ & ->).
  split; simpl.
  - by rewrite length_insert.
  - apply Forall_insert; [done|]. simpl. rewrite length_insert.
    by apply (Forall_lookup_1 _ _ _ _ Hbands Hbi).
Qed.

(** After a [ChangeActiveBwp] that succeeds, the lookup on the carrier that
    was changed returns a BWP of that carrier whose id is the new one. *)
Lemma GetActiveBwpInfo_after_ChangeActiveBwp s bandId ccId activeBwpId s' :
  counts_consistent s ->
  ChangeActiveBwp s bandId ccId activeBwpId = Ok s' ->
  exists bi ci band cc bwp,
    m_bands s !! bi = Some band /\ Band.m_bandId band = bandId
    /\ Band.m_cc band !! ci = Some cc /\ Cc.m_ccId cc = ccId
    /\ carrier_at s' bi ci = Some (Cc.set_activeBwp cc activeBwpId)
    /\ GetActiveBwpInfo s' (Z.of_nat bi) (Z.of_nat ci) = Ok bwp
    /\ Bwp.m_bwpId bwp = activeBwpId
    /\ bwp ∈ Cc.m_bwp cc.
Proof.
  intros Hcons Hchange.
  pose proof (ChangeActiveBwp_counts_consistent _ _ _ _ _ Hcons Hchange) as Hcons'.
  unfold ChangeActiveBwp in Hchange.
  destruct (ChangeActiveBwp_bands _ _ _ _) as [bands'|] eqn:H; [|done].
  injection Hchange as <-.
  apply ChangeActiveBwp_bands_Some in H
    as (bi & band & ci & cc & Hbi & Hband & Hci & Hcc & Hin & ->).
  destruct (find_bwp_is_Some _ _ Hin) as [bwp Hfind].
  destruct (find_bwp_Some _ _ _ Hfind) as [Hid Hmem].
  set (cc' := Cc.set_activeBwp cc activeBwpId).
  set (band' := Band.set_cc band (<[ci := cc']> (Band.m_cc band))).
  assert (m_bands (set_bands s (<[bi := band']> (m_bands s))) !! bi = Some band') as Hbi'.
  { simpl. apply list_lookup_insert_eq. by eapply lookup_lt_Some. }
  assert (Band.m_cc band' !! ci = Some cc') as Hci'.
  { simpl. apply list_lookup_insert_eq. by eapply lookup_lt_Some. }
  exists bi, ci, band, cc, bwp.
  split; [done|]. split; [done|]. split; [done|]. split; [done|].
  split; [|split; [|done]].
  - unfold carrier_at. rewrite Hbi'. exact Hci'.
  - pose proof (GetActiveBwpInfo_at _ _ _ _ _ Hcons' Hbi' Hci') as Hget.
    simpl in Hget. rewrite Hfind in Hget. exact Hget.
Qed.

(** When the ids are the positions, the lookup with the arguments of the
    change returns the BWP with the new id. *)
Lemma GetActiveBwpInfo_after_ChangeActiveBwp_same_arguments
    s bandId ccId activeBwpId s' :
  counts_consistent s -> ids_are_positions s ->
  ChangeActiveBwp s bandId ccId activeBwpId = Ok s' ->
  exists bwp, GetActiveBwpInfo s' bandId ccId = Ok bwp /\ Bwp.m_bwpId bwp = activeBwpId.
Proof.
  intros Hcons Hids Hchange.
  destruct (GetActiveBwpInfo_after_ChangeActiveBwp _ _ _ _ _ Hcons Hchange)
    as (bi & ci & band & cc & bwp & Hbi & Hband & Hci & Hcc & _ & Hget & Hid & _).
  destruct (Hids bi band Hbi) as [Hb Hccs]. specialize (Hccs ci cc Hci).
  exists bwp. split; [|done]. by rewrite <- Hband, <- Hcc, Hb, Hccs.
Qed.

(** The lookup on a carrier returns a BWP of the carrier whose id is the
    active one, and aborts when the carrier has no BWP with that id. *)
Lemma GetActiveBwpInfo_resolves s bi ci band cc :
  counts_consistent s ->
  m_bands s !! bi = Some band -> Band.m_cc band !! ci = Some cc ->
  (Cc.m_activeBwp cc ∈ Bwp.m_bwpId <$> Cc.m_bwp cc ->
   exists bwp, GetActiveBwpInfo s (Z.of_nat bi) (Z.of_nat ci) = Ok bwp
               /\ Bwp.m_bwpId bwp = Cc.m_activeBwp cc /\ bwp ∈ Cc.m_bwp cc)
  /\ (Cc.m_activeBwp cc ∉ Bwp.m_bwpId <$> Cc.m_bwp cc ->
      GetActiveBwpInfo s (Z.of_nat bi) (Z.of_nat ci) = Fail ActiveBwpNotFound).
Proof.
  intros Hcons Hbi Hci. rewrite (GetActiveBwpInfo_at _ _ _ _ _ Hcons Hbi Hci). split.
  - intros Hin. destruct (find_bwp_is_Some _ _ Hin) as [bwp Hfind].
    rewrite Hfind. exists bwp. split; [done|]. by apply find_bwp_Some.
  - intros Hout. apply find_bwp_None in Hout. by rewrite Hout.
Qed.

(** The lookup without indices returns a BWP of a PRIMARY carrier whose id
    is the active-BWP id of that carrier. *)
Lemma GetActiveBwpInfo_primary_ccs_Some ccs bwp :
  GetActiveBwpInfo_primary_ccs ccs = Ok (Some bwp) ->
  exists cc, cc ∈ ccs /\ Cc.m_primaryCc cc = PRIMARY
             /\ bwp ∈ Cc.m_bwp cc /\ Bwp.m_bwpId bwp = Cc.m_activeBwp cc.
Proof.
  induction ccs as [|cc ccs IH]; intros H; simpl in H; [done|].
  case_bool_decide as Hprimary.
  - apply bind_Ok_inv in H as (_ & _ & H).
    destruct (find_bwp _ (Cc.m_bwp cc)) as [b|] eqn:Hfind.
    + injection H as ->. apply find_bwp_Some in Hfind as [Hid Hin].
      exists cc. split; [by left|done].
    + destruct (IH H) as (cc' & Hin & Hrest). exists cc'. split; [by right|done].
  - destruct (IH H) as (cc' & Hin & Hrest). exists cc'. split; [by right|done].
Qed.

Lemma GetActiveBwpInfo_primary_Ok s bwp :
  GetActiveBwpInfo_primary s = Ok bwp ->
  exists band cc,
    band ∈ m_bands s /\ cc ∈ Band.m_cc band /\ Cc.m_primaryCc cc = PRIMARY
    /\ bwp ∈ Cc.m_bwp cc /\ Bwp.m_bwpId bwp = Cc.m_activeBwp cc.
Proof.
  unfold GetActiveBwpInfo_primary. intros H. apply bind_Ok_inv in H as (_ & _ & H).
  induction (m_bands s) as [|band bands IH]; simpl in H; [done|].
  apply bind_Ok_inv in H as (_ & _ & H).
  apply bind_Ok_inv in H as ([found|] & Hccs & H).
  - injection H as ->. apply GetActiveBwpInfo_primary_ccs_Some in Hccs as (cc & Hin & Hrest).
    exists band, cc. split; [by left|done].
  - destruct (IH H) as (band' & cc & Hin & Hrest). exists band', cc. split; [by right|done].
Qed.

(** C6.  After [ChangeActiveBwp (bandId, ccId, activeBwpId)] has succeeded,
    [GetActiveBwpInfo] on the carrier that was changed (the band and the
    carrier at the positions where the ids were found) returns the BWP of
    that carrier whose id is [activeBwpId]; and on every carrier
    [GetActiveBwpInfo] returns a BWP of the carrier whose id is the
    active-BWP id of the carrier, and aborts when there is no such BWP.  The
    topologies are those whose counters agree with their vectors, as the
    lookup checks its indices against the counters. *)
Theorem ChangeActiveBwp_then_GetActiveBwpInfo :
  (forall s bandId ccId activeBwpId s',
     counts_consistent s ->
     ChangeActiveBwp s bandId ccId activeBwpId = Ok s' ->
     exists bi ci band cc bwp,
       m_bands s !! bi = Some band /\ Band.m_bandId band = bandId
       /\ Band.m_cc band !! ci = Some cc /\ Cc.m_ccId cc = ccId
       /\ carrier_at s' bi ci = Some (Cc.set_activeBwp cc activeBwpId)
       /\ GetActiveBwpInfo s' (Z.of_nat bi) (Z.of_nat ci) = Ok bwp
       /\ Bwp.m_bwpId bwp = activeBwpId
       /\ bwp ∈ Cc.m_bwp cc)
  /\ (forall s bi ci band cc,
        counts_consistent s ->
        m_bands s !! bi = Some band -> Band.m_cc band !! ci = Some cc ->
        (Cc.m_activeBwp cc ∈ Bwp.m_bwpId <$> Cc.m_bwp cc ->
         exists bwp, GetActiveBwpInfo s (Z.of_nat bi) (Z.of_nat ci) = Ok bwp
                     /\ Bwp.m_bwpId bwp = Cc.m_activeBwp cc /\ bwp ∈ Cc.m_bwp cc)
        /\ (Cc.m_activeBwp cc ∉ Bwp.m_bwpId <$> Cc.m_bwp cc ->
            GetActiveBwpInfo s (Z.of_nat bi) (Z.of_nat ci) = Fail ActiveBwpNotFound)).
Proof.
  split.
  - apply GetActiveBwpInfo_after_ChangeActiveBwp.
  - apply GetActiveBwpInfo_resolves.
Qed.

Lemma dual_bwp_topology_consistent : counts_consistent dual_bwp_topology.
Proof. split; [simpl; lia|]. repeat constructor; simpl; lia. Defined.

(** On the carrier with two BWPs of the specification: BWP 1 is made active,
    and the lookup then returns it. *)
Lemma ChangeActiveBwp_then_GetActiveBwpInfo_witness :
  counts_consistent dual_bwp_topology
  /\ (exists s', ChangeActiveBwp dual_bwp_topology 0 0 1 = Ok s'
      /\ exists bi ci band cc bwp,
           m_bands dual_bwp_topology !! bi = Some band /\ Band.m_bandId band = 0
           /\ Band.m_cc band !! ci = Some cc /\ Cc.m_ccId cc = 0
           /\ carrier_at s' bi ci = Some (Cc.set_activeBwp cc 1)
           /\ GetActiveBwpInfo s' (Z.of_nat bi) (Z.of_nat ci) = Ok bwp
           /\ Bwp.m_bwpId bwp = 1
           /\ bwp ∈ Cc.m_bwp cc).
Proof.
  split; [exact dual_bwp_topology_consistent|].
  eexists. split; [reflexivity|].
  apply (proj1 ChangeActiveBwp_then_GetActiveBwpInfo dual_bwp_topology 0 0 1 _
           dual_bwp_topology_consistent eq_refl).
Defined.

Example GetActiveBwpInfo_dual_bwp :
  Bwp.m_bwpId <$> GetActiveBwpInfo dual_bwp_topology 0 0 = Ok 0
  /\ Bwp.m_bwpId <$> (s' ← ChangeActiveBwp dual_bwp_topology 0 0 1; GetActiveBwpInfo s' 0 0)
     = Ok 1.
Proof. split; reflexivity. Qed.

(** ** [GetAggregatedBandwidth] *)

(** A loop that adds [g x] to a [uint32_t] for every [x] holds the sum
    modulo 2^32. *)
Lemma foldl_uint32 {A} (step : Z -> A -> Z) (g : A -> Z) l acc :
  (forall a x, 0 <= a < 4294967296 -> step a x = uint32 (a + g x)) ->
  0 <= acc < 4294967296 ->
  foldl step acc l = uint32 (acc + sumZ (g <$> l)).
Proof.
  intros Hstep. revert acc. induction l as [|x l IH]; intros acc Hacc; simpl.
  - by rewrite Z.add_0_r, uint32_small.
  - rewrite Hstep by done. rewrite IH by apply uint32_range.
    unfold uint32. rewrite Zplus_mod_idemp_l. f_equal. unfold sumZ, fmap. simpl. lia.
Qed.

Lemma GetAggregatedBandwidth_cc_uint32 acc cc :
  0 <= acc < 4294967296 ->
  GetAggregatedBandwidth_cc acc cc
  = uint32 (acc + sumZ (bandwidth_if_active cc <$> Cc.m_bwp cc)).
Proof.
  intros Hacc. unfold GetAggregatedBandwidth_cc. apply foldl_uint32; [|done].
  intros a bwp Ha. unfold bandwidth_if_active.
  destruct (Bwp.m_bwpId bwp =? Cc.m_activeBwp cc); [done|].
  by rewrite Z.add_0_r, uint32_small.
Qed.

Lemma sumZ_cons x l : sumZ (x :: l) = x + sumZ l.
Proof. reflexivity. Qed.

Lemma find_bwp_cons id bwp bwps :
  find_bwp id (bwp :: bwps)
  = if decide (Bwp.m_bwpId bwp = id) then Some bwp else find_bwp id bwps.
Proof.
  unfold find_bwp. simpl. case_decide; [done|].
  by destruct (list_find _ bwps) as [[i x]|].
Qed.

Lemma sum_bandwidth_no_match id bwps :
  id ∉ Bwp.m_bwpId <$> bwps ->
  sumZ ((fun b => if Bwp.m_bwpId b =? id then Bwp.m_bandwidth b else 0) <$> bwps) = 0.
Proof.
  induction bwps as [|b bwps IH]; intros Hnotin; [done|].
  rewrite fmap_cons in Hnotin. apply not_elem_of_cons in Hnotin as [Hb Hrest].
  rewrite fmap_cons, sumZ_cons, IH by done.
  destruct (Z.eqb_spec (Bwp.m_bwpId b) id); [congruence|done].
Qed.

Lemma sum_bandwidth_match id bwps :
  NoDup (Bwp.m_bwpId <$> bwps) ->
  sumZ ((fun b => if Bwp.m_bwpId b =? id then Bwp.m_bandwidth b else 0) <$> bwps)
  = from_option Bwp.m_bandwidth 0 (find_bwp id bwps).
Proof.
  induction bwps as [|b bwps IH]; intros Hnd; [done|].
  rewrite fmap_cons in Hnd. apply NoDup_cons in Hnd as [Hnotin Hnd].
  rewrite fmap_cons, sumZ_cons, find_bwp_cons.
  destruct (Z.eqb_spec (Bwp.m_bwpId b) id) as [Heq|Hne].
  - rewrite decide_True by done. rewrite sum_bandwidth_no_match by congruence.
    simpl. lia.
  - rewrite decide_False by done. by rewrite IH.
Qed.

(** With ids that are unique within the carrier, the loop over its BWPs adds
    the bandwidth of the active BWP. *)
Lemma bandwidth_if_active_sum cc :
  NoDup (Bwp.m_bwpId <$> Cc.m_bwp cc) ->
  sumZ (bandwidth_if_active cc <$> Cc.m_bwp cc) = active_bandwidth cc.
Proof. apply sum_bandwidth_match. Qed.

Lemma GetAggregatedBandwidth_band_uint32 acc band :
  Forall (fun cc => NoDup (Bwp.m_bwpId <$> Cc.m_bwp cc)) (Band.m_cc band) ->
  0 <= acc < 4294967296 ->
  GetAggregatedBandwidth_band acc band = uint32 (acc + band_active_bandwidth band).
Proof.
  intros Hids Hacc. unfold GetAggregatedBandwidth_band, band_active_bandwidth.
  revert acc Hacc. induction Hids as [|cc ccs Hcc _ IH]; intros acc Hacc; simpl.
  - by rewrite Z.add_0_r, uint32_small.
  - rewrite IH by (rewrite GetAggregatedBandwidth_cc_uint32 by done; apply uint32_range).
    rewrite GetAggregatedBandwidth_cc_uint32, bandwidth_if_active_sum by done.
    unfold uint32. rewrite Zplus_mod_idemp_l. f_equal. unfold sumZ, fmap. simpl. lia.
Qed.

Lemma GetAggregatedBandwidth_from acc bands :
  Forall (fun band => Forall (fun cc => NoDup (Bwp.m_bwpId <$> Cc.m_bwp cc)) (Band.m_cc band))
         bands ->
  0 <= acc < 4294967296 ->
  foldl GetAggregatedBandwidth_band acc bands
  = uint32 (acc + sumZ (band_active_bandwidth <$> bands)).
Proof.
  intros Hids. revert acc. induction Hids as [|band bands Hband _ IH]; intros acc Hacc; simpl.
  - by rewrite Z.add_0_r, uint32_small.
  - rewrite IH by (rewrite GetAggregatedBandwidth_band_uint32 by done; apply uint32_range).
    rewrite GetAggregatedBandwidth_band_uint32 by done.
    unfold uint32. rewrite Zplus_mod_idemp_l. f_equal. unfold sumZ, fmap. simpl. lia.
Qed.

(** The function returns the sum of the bandwidths of the active BWPs modulo
    2^32. *)
Lemma GetAggregatedBandwidth_uint32 s :
  bwp_ids_unique_everywhere s ->
  GetAggregatedBandwidth s = uint32 (active_bandwidth_sum s).
Proof.
  intros Hids. unfold GetAggregatedBandwidth, active_bandwidth_sum.
  rewrite GetAggregatedBandwidth_from; [done| |lia].
  unfold bwp_ids_unique_everywhere, stored_bwps in Hids.
  rewrite Forall_fmap in Hids. eapply Forall_impl; [exact Hids|].
  intros band Hband. simpl in Hband. by rewrite Forall_fmap in Hband.
Qed.

(** X16.  [GetAggregatedBandwidth] returns the sum of the bandwidths of the active
    BWPs of all the carriers of all the bands when that sum fits 32 bits (and
    the ids of the BWPs are unique within every carrier, so that a carrier
    has one active BWP at most). *)
Lemma GetAggregatedBandwidth_exact s :
  bwp_ids_unique_everywhere s ->
  0 <= active_bandwidth_sum s < 4294967296 ->
  GetAggregatedBandwidth s = active_bandwidth_sum s.
Proof.
  intros Hids Hfit. rewrite GetAggregatedBandwidth_uint32 by done. by apply uint32_small.
Qed.

(** *** [ChangeActiveBwp] and the aggregated bandwidth *)

Lemma sumZ_insert {A} (f : A -> Z) (l : list A) i x y :
  l !! i = Some x ->
  sumZ (f <$> <[i := y]> l) = sumZ (f <$> l) - f x + f y.
Proof.
  unfold sumZ, fmap. revert i.
  induction l as [|z l IH]; intros i Hi; [done|].
  destruct i as [|i]; simpl in *.
  - injection Hi as ->. lia.
  - rewrite (IH i) by done. lia.
Qed.

(** [ChangeActiveBwp] writes [m_activeBwp] of one carrier and nothing else:
    the BWPs are stored as before. *)
Lemma ChangeActiveBwp_stored_bwps s bandId ccId activeBwpId s' :
  ChangeActiveBwp s bandId ccId activeBwpId = Ok s' -> stored_bwps s' = stored_bwps s.
Proof.
  unfold ChangeActiveBwp.
  destruct (ChangeActiveBwp_bands _ _ _ _) as [bands'|] eqn:H; [|done].
  intros [= <-].
  apply ChangeActiveBwp_bands_Some in H
    as (bi & band & ci & cc & Hbi & _ & Hci & _ & _ & ->).
  unfold stored_bwps. simpl. rewrite list_fmap_insert. simpl.
  rewrite list_fmap_insert. simpl.
  rewrite (list_insert_id (Cc.m_bwp <$> Band.m_cc band)) by (by rewrite list_lookup_fmap, Hci).
  apply list_insert_id. by rewrite list_lookup_fmap, Hbi.
Qed.

(** The sum of the active bandwidths loses the bandwidth of the BWP that was
    active in the carrier and gains the one of the BWP that is made active. *)
Lemma ChangeActiveBwp_active_bandwidth_sum s bandId ccId activeBwpId s' :
  ChangeActiveBwp s bandId ccId activeBwpId = Ok s' ->
  exists bi ci cc bwp,
    carrier_at s bi ci = Some cc
    /\ find_bwp activeBwpId (Cc.m_bwp cc) = Some bwp
    /\ active_bandwidth_sum s'
       = active_bandwidth_sum s - active_bandwidth cc + Bwp.m_bandwidth bwp.
Proof.
  unfold ChangeActiveBwp.
  destruct (ChangeActiveBwp_bands _ _ _ _) as [bands'|] eqn:H; [|done].
  intros [= <-].
  apply ChangeActiveBwp_bands_Some in H
    as (bi & band & ci & cc & Hbi & _ & Hci & _ & Hin & ->).
  destruct (find_bwp_is_Some _ _ Hin) as [bwp Hfind].
  exists bi, ci, cc, bwp. split; [|split; [done|]].
  - unfold carrier_at. rewrite Hbi. exact Hci.
  - unfold active_bandwidth_sum. simpl.
    rewrite (sumZ_insert _ _ _ band) by done.
    unfold band_active_bandwidth at 3. simpl.
    rewrite (sumZ_insert _ _ _ cc) by done.
    fold (band_active_bandwidth band).
    assert (active_bandwidth (Cc.set_activeBwp cc activeBwpId) = Bwp.m_bandwidth bwp) as ->.
    { unfold active_bandwidth. simpl. by rewrite Hfind. }
    lia.
Qed.

(** X17.  After a [ChangeActiveBwp] that succeeds, the BWPs are stored as
    before, and [GetAggregatedBandwidth] returns, modulo 2^32, the sum of the
    active bandwidths of before, less the bandwidth of the BWP that was active
    in the carrier that was changed, plus the bandwidth of the BWP that is
    made active there. *)
Lemma GetAggregatedBandwidth_after_ChangeActiveBwp s bandId ccId activeBwpId s' :
  bwp_ids_unique_everywhere s ->
  ChangeActiveBwp s bandId ccId activeBwpId = Ok s' ->
  stored_bwps s' = stored_bwps s
  /\ exists bi ci cc bwp,
       carrier_at s bi ci = Some cc
       /\ find_bwp activeBwpId (Cc.m_bwp cc) = Some bwp
       /\ GetAggregatedBandwidth s'
          = uint32 (active_bandwidth_sum s - active_bandwidth cc + Bwp.m_bandwidth bwp).
Proof.
  intros Hids Hchange.
  pose proof (ChangeActiveBwp_stored_bwps _ _ _ _ _ Hchange) as Hstored.
  split; [done|].
  destruct (ChangeActiveBwp_active_bandwidth_sum _ _ _ _ _ Hchange)
    as (bi & ci & cc & bwp & Hcc & Hfind & Hsum).
  exists bi, ci, cc, bwp. split; [done|]. split; [done|].
  rewrite GetAggregatedBandwidth_uint32, Hsum; [done|].
  unfold bwp_ids_unique_everywhere. by rewrite Hstored.
Qed.

Lemma wide_topology_ids_unique : bwp_ids_unique_everywhere wide_topology.
Proof.
  unfold bwp_ids_unique_everywhere. vm_compute stored_bwps.
  repeat constructor; set_solver.
Qed.

(** C7.  [GetAggregatedBandwidth] at a topology of eleven carriers of 396 MHz
    in two valid bands, one BWP per carrier: the sum of the bandwidths of the
    active BWPs is 4 356 000 000 Hz, and the function, which adds them in a
    [uint32_t], returns 61 032 704 (the sum minus 2^32).  On the carrier with
    two BWPs of 100 MHz of the specification the function returns 100 MHz,
    before and after the other BWP is made active. *)
Theorem GetAggregatedBandwidth_wraps_around :
  Forall (fun band => is_Ok (ValidateOperationBand band) = true) (m_bands wide_topology)
  /\ bwp_ids_unique_everywhere wide_topology
  /\ active_bandwidth_sum wide_topology = 4356000000
  /\ GetAggregatedBandwidth wide_topology = 61032704
  /\ GetAggregatedBandwidth dual_bwp_topology = 100000000
  /\ GetAggregatedBandwidth <$> ChangeActiveBwp dual_bwp_topology 0 0 1 = Ok 100000000.
Proof.
  split; [repeat constructor|]. split; [exact wide_topology_ids_unique|].
  repeat split; vm_compute; reflexivity.
Qed.

(** ** [MmWaveUeNetDevice::EnqueueDlHarqFeedback] *)

(** C9.  [EnqueueDlHarqFeedback] fails on the assertion when the component
    carrier manager of the device is not a [BwpManagerUe].  With a
    [BwpManagerUe], the feedback goes to the PHY of the carrier whose key in
    [m_ccMap] is the index that [RouteDlHarqFeedback] returns for the
    feedback, and to that PHY only: the PHY has the feedback appended, every
    other PHY and the map of the carriers are as before; when no carrier has
    that index, [at] throws and nothing is forwarded. *)
Theorem EnqueueDlHarqFeedback_routes_to_one_carrier d m :
  (m_componentCarrierManager d = NullManager \/ m_componentCarrierManager d = OtherManager ->
   EnqueueDlHarqFeedback d m = Fail AssertionFailed)
  /\ (forall RouteDlHarqFeedback cc p phy,
        m_componentCarrierManager d = BwpManagerUe RouteDlHarqFeedback ->
        m_ccMap d !! uint8 (RouteDlHarqFeedback m) = Some cc ->
        GetPhy cc = Some p -> phy_store d !! p = Some phy ->
        exists d',
          EnqueueDlHarqFeedback d m = Ok d'
          /\ m_ccMap d' = m_ccMap d
          /\ phy_store d' !! p
             = Some (mkPhy (phy_centerFrequency phy) (phy_dlHarqFeedback phy ++ [m]))
          /\ forall q, q <> p -> phy_store d' !! q = phy_store d !! q)
  /\ (forall RouteDlHarqFeedback,
        m_componentCarrierManager d = BwpManagerUe RouteDlHarqFeedback ->
        m_ccMap d !! uint8 (RouteDlHarqFeedback m) = None ->
        EnqueueDlHarqFeedback d m = Fail OutOfRange).
Proof.
  unfold EnqueueDlHarqFeedback. split; [|split].
  - by intros [-> | ->].
  - intros route cc p phy -> -> -> ->. eexists. split; [done|]. simpl.
    split; [done|]. split; [by rewrite lookup_insert_eq|].
    intros q Hq. by rewrite lookup_insert_ne.
  - by intros route -> ->.
Qed.

(** On the device with two carriers the feedback for carrier 1 reaches the PHY
    of carrier 1; without a manager the call fails. *)
Lemma EnqueueDlHarqFeedback_routes_to_one_carrier_witness :
  (exists d',
     EnqueueDlHarqFeedback two_carrier_device feedback_for_carrier_1 = Ok d'
     /\ m_ccMap d' = m_ccMap two_carrier_device
     /\ phy_store d' !! 2%positive = Some (mkPhy 28400000000 [feedback_for_carrier_1])
     /\ forall q, q <> 2%positive -> phy_store d' !! q = phy_store two_carrier_device !! q)
  /\ EnqueueDlHarqFeedback unmanaged_device feedback_for_carrier_1 = Fail AssertionFailed.
Proof.
  split.
  - apply (proj1 (proj2 (EnqueueDlHarqFeedback_routes_to_one_carrier
                           two_carrier_device feedback_for_carrier_1))
             m_bwpIndex (mkCcUe 200 (Some 2%positive)) 2%positive (mkPhy 28400000000 []));
      reflexivity.
  - apply (proj1 (EnqueueDlHarqFeedback_routes_to_one_carrier
                    unmanaged_device feedback_for_carrier_1)).
    left. reflexivity.
Defined.

(** ** [MmWaveUeNetDevice::GetPhyOnCenterFreq] *)

(** The function does not read its argument. *)
Lemma GetPhyOnCenterFreq_any_frequency d f1 f2 :
  GetPhyOnCenterFreq d f1 = GetPhyOnCenterFreq d f2.
Proof. unfold GetPhyOnCenterFreq. reflexivity. Qed.

(** It never aborts, and returns the PHY of the first carrier whose DL EARFCN
    is not zero. *)
Lemma GetPhyOnCenterFreq_loop_first entries :
  GetPhyOnCenterFreq_loop entries
  = from_option (fun i => GetPhy (snd i)) None
      (snd <$> list_find (fun i => GetDlEarfcn (snd i) <> 0) entries).
Proof.
  induction entries as [|i rest IH]; simpl; [done|].
  destruct (Z.eqb_spec (GetDlEarfcn i.2) 0) as [Heq|Hne]; simpl.
  - rewrite decide_False by (intros H; by apply H). rewrite IH.
    by destruct (list_find _ rest) as [[j x]|].
  - by rewrite decide_True.
Qed.

(** C10.  [GetPhyOnCenterFreq] at the device with two carriers.  The PHY at
    28.4 GHz is the one of carrier 1 (address 2), and the function returns the
    PHY of carrier 0 (address 1), which works at 28 GHz.  No PHY of the device
    works at 30 GHz, and the function returns the same PHY instead of a null
    pointer: it tests that the DL EARFCN of a carrier is not zero and never
    compares a frequency. *)
Theorem GetPhyOnCenterFreq_ignores_center_frequency :
  (forall d f1 f2, GetPhyOnCenterFreq d f1 = GetPhyOnCenterFreq d f2)
  /\ phy_at_center_frequency two_carrier_device 28400000000 2%positive
  /\ GetPhyOnCenterFreq two_carrier_device 28400000000 = Some 1%positive
  /\ (forall p, ~ phy_at_center_frequency two_carrier_device 30000000000 p)
  /\ GetPhyOnCenterFreq two_carrier_device 30000000000 = Some 1%positive.
Proof.
  split; [apply GetPhyOnCenterFreq_any_frequency|]. split.
  { exists 1, (mkCcUe 200 (Some 2%positive)), (mkPhy 28400000000 []). by vm_compute. }
  split; [by vm_compute|]. split; [|by vm_compute].
  intros p (k & cc & phy & Hk & Hp & Hphy & Hf).
  unfold two_carrier_device in Hphy. simpl in Hphy.
  apply lookup_insert_Some in Hphy as [[<- <-]|[_ Hphy]]; [done|].
  by apply lookup_singleton_Some in Hphy as [<- <-].
Qed.

(** ** HARQ feedback at the end of a reception *)

Lemma feedback_count_app rnti fs1 fs2 :
  feedback_count rnti (fs1 ++ fs2) = (feedback_count rnti fs1 + feedback_count rnti fs2)%nat.
Proof. unfold feedback_count. by rewrite filter_app, length_app. Qed.

Lemma feedback_rnti_make rnti tb : feedback_rnti (make_feedback rnti tb) = rnti.
Proof. unfold make_feedback. by destruct (m_isDownlink _). Qed.

Lemma delivered_cons s k tb entries :
  delivered s ((k, tb) :: entries)
  = (if feedback_due s tb then [make_feedback k tb] else []) ++ delivered s entries.
Proof. unfold delivered. simpl. by destruct (feedback_due s tb). Qed.

(** The blocks of the other RNTIs deliver nothing for [rnti]. *)
Lemma delivered_other_rnti s rnti entries :
  Forall (fun e => fst e <> rnti) entries ->
  feedback_count rnti (delivered s entries) = 0%nat.
Proof.
  induction 1 as [|[k tb] entries Hk _ IH]; [done|]. simpl in *.
  destruct (feedback_due s tb); [|done].
  unfold feedback_count in *. rewrite filter_cons, feedback_rnti_make.
  by rewrite decide_False.
Qed.

(** One pass delivers one feedback for [rnti] when the block of [rnti] is
    due, and none otherwise. *)
Lemma EndRxData_feedback_count s rnti :
  feedback_count rnti (callbacks (EndRxData s))
  = (feedback_count rnti (callbacks s)
     + match m_transportBlocks s !! rnti with
       | Some tb => if feedback_due s tb then 1 else 0
       | None => 0
       end)%nat.
Proof.
  unfold EndRxData. simpl. rewrite feedback_count_app. f_equal.
  fold (delivered s (map_to_list (m_transportBlocks s))).
  destruct (m_transportBlocks s !! rnti) as [tb|] eqn:Hlookup.
  - assert (feedback_count rnti (delivered s (map_to_list (m_transportBlocks s)))
            = feedback_count rnti
                (delivered s ((rnti, tb) :: map_to_list (delete rnti (m_transportBlocks s)))))
      as ->.
    { unfold feedback_count, delivered.
      by rewrite (map_to_list_delete _ _ _ Hlookup). }
    rewrite delivered_cons, feedback_count_app, delivered_other_rnti.
    + destruct (feedback_due s tb); [|done].
      unfold feedback_count. rewrite filter_cons, feedback_rnti_make.
      by rewrite decide_True.
    + apply Forall_forall. intros [k x] Hin Heq. simpl in Heq. subst k.
      apply elem_of_map_to_list in Hin. by rewrite lookup_delete_eq in Hin.
  - apply delivered_other_rnti, Forall_forall. intros [k x] Hin Heq. simpl in Heq. subst k.
    apply elem_of_map_to_list in Hin. congruence.
Qed.

Lemma EndRxData_lookup s rnti :
  m_transportBlocks (EndRxData s) !! rnti
  = (fun tb => if feedback_due s tb then mark_feedback_sent tb else tb)
      <$> m_transportBlocks s !! rnti.
Proof. unfold EndRxData. simpl. apply lookup_fmap. Qed.

(** Once the flag of a block is set, a pass leaves the block as it is and
    delivers nothing for it. *)
Lemma EndRxData_after_feedback s rnti tb :
  m_transportBlocks s !! rnti = Some tb -> m_harqFeedbackSent tb = true ->
  m_transportBlocks (EndRxData s) !! rnti = Some tb
  /\ feedback_count rnti (callbacks (EndRxData s)) = feedback_count rnti (callbacks s).
Proof.
  intros Hlookup Hsent.
  assert (feedback_due s tb = false) as Hdue.
  { unfold feedback_due. rewrite Hsent. apply andb_false_r. }
  rewrite EndRxData_lookup, EndRxData_feedback_count, Hlookup. simpl.
  rewrite Hdue. split; [done|lia].
Qed.

Lemma EndRxData_iter_after_feedback k s rnti tb :
  m_transportBlocks s !! rnti = Some tb -> m_harqFeedbackSent tb = true ->
  m_transportBlocks (Nat.iter k EndRxData s) !! rnti = Some tb
  /\ feedback_count rnti (callbacks (Nat.iter k EndRxData s))
     = feedback_count rnti (callbacks s).
Proof.
  intros Hlookup Hsent. induction k as [|k [IH1 IH2]]; [done|].
  destruct (EndRxData_after_feedback _ _ _ IH1 Hsent) as [H1 H2].
  change (Nat.iter (S k) EndRxData s) with (EndRxData (Nat.iter k EndRxData s)).
  split; [done|]. by rewrite H2.
Qed.

Lemma Nat_iter_S_r {A} (f : A -> A) k x : Nat.iter (S k) f x = Nat.iter k f (f x).
Proof.
  induction k as [|k IH]; [done|].
  change (Nat.iter (S (S k)) f x) with (f (Nat.iter (S k) f x)). by rewrite IH.
Qed.

(** C8.  With HARQ enabled, a transport block registered by [AddExpectedTb]
    gets one feedback at the first end of reception, which sets its
    feedback-sent flag, and none afterwards: after [k+1] ends of reception,
    whatever [k], the callbacks have been called once for the block. *)
Theorem HarqFeedback_exactly_once s rnti expected k :
  harqEnabled s = true ->
  feedback_count rnti (callbacks (EndRxData (AddExpectedTb s rnti expected)))
  = S (feedback_count rnti (callbacks s))
  /\ m_harqFeedbackSent
       <$> m_transportBlocks (EndRxData (AddExpectedTb s rnti expected)) !! rnti
     = Some true
  /\ feedback_count rnti
       (callbacks (Nat.iter (S k) EndRxData (AddExpectedTb s rnti expected)))
     = S (feedback_count rnti (callbacks s)).
Proof.
  intros Hharq.
  set (s0 := AddExpectedTb s rnti expected).
  assert (m_transportBlocks s0 !! rnti = Some (TransportBlockInfo_new expected)) as Hnew
    by apply lookup_insert_eq.
  assert (feedback_due s0 (TransportBlockInfo_new expected) = true) as Hdue
    by (unfold feedback_due; simpl; by rewrite Hharq).
  assert (feedback_count rnti (callbacks (EndRxData s0)) = S (feedback_count rnti (callbacks s)))
    as Hfirst.
  { rewrite EndRxData_feedback_count, Hnew, Hdue. simpl. lia. }
  assert (m_transportBlocks (EndRxData s0) !! rnti
          = Some (mark_feedback_sent (TransportBlockInfo_new expected))) as Hmarked.
  { rewrite EndRxData_lookup, Hnew. simpl. by rewrite Hdue. }
  split; [done|]. split; [by rewrite Hmarked|].
  rewrite Nat_iter_S_r.
  destruct (EndRxData_iter_after_feedback k _ _ _ Hmarked eq_refl) as [_ ->]. done.
Qed.

(** One block registered on an idle receiver, and two ends of reception. *)
Lemma HarqFeedback_exactly_once_witness :
  harqEnabled (mkSpectrumPhy ∅ true []) = true
  /\ feedback_count 7
       (callbacks (Nat.iter 2 EndRxData
                     (AddExpectedTb (mkSpectrumPhy ∅ true []) 7
                        (mkExpectedTb 1 100 5 [0; 1; 2] 3 0 true 0 4))))
     = 1%nat.
Proof.
  split; [reflexivity|].
  apply (proj2 (proj2 (HarqFeedback_exactly_once (mkSpectrumPhy ∅ true []) 7
                         (mkExpectedTb 1 100 5 [0; 1; 2] 3 0 true 0 4) 1 eq_refl))).
Defined.

(** * The rest of the configuration model *)

Lemma bind_Done_inv {A B} (m : Outcome A) (f : A -> Outcome B) b :
  (m ≫= f) = Done b -> exists a, m = Done a /\ f a = Done b.
Proof. destruct m as [a|e]; simpl; [eauto | discriminate]. Qed.

(** ** [AddBwp], [AddCc], [AddOperationBand]: the counters and the limits *)

(** X1.  A carrier filled through [AddBwp] takes the BWPs as long as it holds four
    at most, and aborts on the first one beyond: the calls all succeed exactly
    when the carrier ends with at most four BWPs, and the counter then still
    is the number of BWPs. *)
Theorem AddBwp_all_at_most_four cc bwps :
  cc_counter_agrees cc ->
  (is_Ok (AddBwp_all cc bwps) = true <->
   bwps = [] \/ (length (Cc.m_bwp cc) + length bwps <= 4)%nat)
  /\ forall cc', AddBwp_all cc bwps = Ok cc' ->
       Cc.m_bwp cc' = Cc.m_bwp cc ++ bwps /\ cc_counter_agrees cc'.
Proof.
  revert cc. induction bwps as [|bwp bwps IH]; intros cc Hagree.
  - split; [simpl; tauto|]. intros cc' [= <-]. by rewrite app_nil_r.
  - unfold cc_counter_agrees in Hagree. simpl AddBwp_all. unfold AddBwp.
    destruct (Z.geb_spec (Cc.m_numBwps cc) 4) as [Hfull|Hroom]; simpl.
    + split; [|done]. split; [done|]. intros [?|Hle]; [done|]. simpl in Hle. lia.
    + set (cc1 := Cc.set_numBwps _ _).
      assert (cc_counter_agrees cc1) as Hagree1.
      { unfold cc_counter_agrees, cc1. simpl. rewrite length_app. simpl.
        rewrite uint8_small by lia. lia. }
      assert (Cc.m_bwp cc1 = Cc.m_bwp cc ++ [bwp]) as Hbwp1 by done.
      destruct (IH cc1 Hagree1) as [Hiff Hres]. split.
      * rewrite Hiff, Hbwp1, length_app. simpl. split.
        -- intros [->|Hle]; right; simpl; lia.
        -- intros [?|Hle]; [done|]. destruct bwps; [by left|right; simpl in *; lia].
      * intros cc' Hcc'. destruct (Hres cc' Hcc') as [-> Hag]. split; [|done].
        by rewrite Hbwp1, <- (assoc_L (++)).
Qed.

Lemma AddBwp_all_at_most_four_witness :
  cc_counter_agrees empty_cc
  /\ (is_Ok (AddBwp_all empty_cc [bwp_on 0 0 1; bwp_on 1 1 2]) = true <->
      [bwp_on 0 0 1; bwp_on 1 1 2] = [] \/
      (length (Cc.m_bwp empty_cc) + length [bwp_on 0 0 1; bwp_on 1 1 2] <= 4)%nat).
Proof.
  assert (cc_counter_agrees empty_cc) as H by reflexivity.
  split; [exact H|].
  exact (proj1 (AddBwp_all_at_most_four empty_cc [bwp_on 0 0 1; bwp_on 1 1 2] H)).
Defined.

(** X2.  A band filled through [AddCc] takes the carriers as long as it holds
    [MAX_CC_INTRA_BAND] at most: the calls all succeed exactly when the band
    ends with at most [MAX_CC_INTRA_BAND] carriers, the carriers are appended
    in the order of the calls, and [m_numCarriers] still is their number, which
    is what [ValidateOperationBand] demands. *)
Theorem AddCc_all_up_to_maximum MAX_CC_INTRA_BAND band ccs :
  MAX_CC_INTRA_BAND < 256 ->
  band_counter_agrees band ->
  (is_Done (AddCc_all MAX_CC_INTRA_BAND band ccs) = true <->
   ccs = [] \/ Z.of_nat (length (Band.m_cc band) + length ccs) <= MAX_CC_INTRA_BAND)
  /\ forall band', AddCc_all MAX_CC_INTRA_BAND band ccs = Done band' ->
       Band.m_cc band' = Band.m_cc band ++ ccs /\ band_counter_agrees band'.
Proof.
  intros Hmax. revert band. induction ccs as [|cc ccs IH]; intros band Hagree.
  - split; [simpl; tauto|]. intros band' [= <-]. by rewrite app_nil_r.
  - unfold band_counter_agrees in Hagree. simpl AddCc_all. unfold AddCc.
    destruct (Z.geb_spec (Band.m_numCarriers band) MAX_CC_INTRA_BAND) as [Hfull|Hroom]; simpl.
    + split; [|done]. split; [done|]. intros [?|Hle]; [done|]. simpl in Hle. lia.
    + set (band1 := Band_set_numCarriers _ _).
      assert (band_counter_agrees band1) as Hagree1.
      { unfold band_counter_agrees, band1. simpl. rewrite length_app. simpl.
        rewrite uint8_small by lia. lia. }
      assert (Band.m_cc band1 = Band.m_cc band ++ [cc]) as Hcc1 by done.
      destruct (IH band1 Hagree1) as [Hiff Hres]. split.
      * rewrite Hiff, Hcc1, length_app. simpl. split.
        -- intros [->|Hle]; right; simpl; lia.
        -- intros [?|Hle]; [done|]. destruct ccs; [by left|right; simpl in *; lia].
      * intros band' Hband'. destruct (Hres band' Hband') as [-> Hag]. split; [|done].
        by rewrite Hcc1, <- (assoc_L (++)).
Qed.

Lemma AddCc_all_up_to_maximum_witness :
  is_Done (AddCc_all 8 empty_band [cc_on 0 0 100 PRIMARY; cc_on 1 100 200 SECONDARY]) = true <->
  [cc_on 0 0 100 PRIMARY; cc_on 1 100 200 SECONDARY] = [] \/
  Z.of_nat (length (Band.m_cc empty_band)
            + length [cc_on 0 0 100 PRIMARY; cc_on 1 100 200 SECONDARY]) <= 8.
Proof.
  assert (8 < 256) as H1 by lia.
  assert (band_counter_agrees empty_band) as H2 by reflexivity.
  exact (proj1 (AddCc_all_up_to_maximum 8 empty_band
                  [cc_on 0 0 100 PRIMARY; cc_on 1 100 200 SECONDARY] H1 H2)).
Defined.

(** X3.  A creator filled through [AddOperationBand] takes the bands as long as it
    holds [m_maxBands] at most: the calls all succeed exactly when it ends
    with at most [m_maxBands] bands, the bands are appended in the order of
    the calls, [m_maxBands] is kept, and [m_numBands] still is the number of
    bands and at most [m_maxBands]: the two conditions that
    [ValidateCaBwpConfiguration] checks first. *)
Theorem AddOperationBand_all_up_to_maximum s bands :
  m_maxBands s < 256 ->
  creator_counter_agrees s ->
  (is_Done (AddOperationBand_all s bands) = true <->
   bands = [] \/ Z.of_nat (length (m_bands s) + length bands) <= m_maxBands s)
  /\ forall s', AddOperationBand_all s bands = Done s' ->
       m_bands s' = m_bands s ++ bands /\ m_maxBands s' = m_maxBands s
       /\ creator_counter_agrees s'
       /\ (bands <> [] -> m_numBands s' <= m_maxBands s').
Proof.
  revert s. induction bands as [|band bands IH]; intros s Hmax Hagree.
  - split; [simpl; tauto|]. intros s' [= <-]. by rewrite app_nil_r.
  - unfold creator_counter_agrees in Hagree. simpl AddOperationBand_all. unfold AddOperationBand.
    destruct (Z.geb_spec (m_numBands s) (m_maxBands s)) as [Hfull|Hroom]; simpl.
    + split; [|done]. split; [done|]. intros [?|Hle]; [done|]. simpl in Hle. lia.
    + set (s1 := mkCreator _ _ _ _ _).
      assert (creator_counter_agrees s1) as Hagree1.
      { unfold creator_counter_agrees, s1. simpl. rewrite length_app. simpl.
        rewrite uint8_small by lia. lia. }
      assert (m_bands s1 = m_bands s ++ [band]) as Hb1 by done.
      assert (m_maxBands s1 = m_maxBands s) as Hm1 by done.
      destruct (IH s1) as [Hiff Hres]; [by rewrite Hm1|done|]. split.
      * rewrite Hiff, Hb1, Hm1, length_app. simpl. split.
        -- intros [->|Hle]; right; simpl; lia.
        -- intros [?|Hle]; [done|]. destruct bands; [by left|right; simpl in *; lia].
      * intros s' Hs'. destruct (Hres s' Hs') as (Hbs & Hmx & Hag & Hle).
        split_and!; [by rewrite Hbs, Hb1, <- (assoc_L (++))|congruence|done|].
        intros _. destruct bands as [|b' bands'].
        -- injection Hs' as <-. unfold s1. simpl. rewrite uint8_small by lia. lia.
        -- by apply Hle.
Qed.

Lemma AddOperationBand_all_up_to_maximum_witness :
  is_Done (AddOperationBand_all empty_creator [gapped_band]) = true <->
  [gapped_band] = [] \/
  Z.of_nat (length (m_bands empty_creator) + length [gapped_band]) <= m_maxBands empty_creator.
Proof.
  assert (m_maxBands empty_creator < 256) as H1 by (simpl; lia).
  assert (creator_counter_agrees empty_creator) as H2 by reflexivity.
  exact (proj1 (AddOperationBand_all_up_to_maximum empty_creator [gapped_band] H1 H2)).
Defined.

(** ** [GetComponentCarrier] and [GetCarrierBandwidth] *)

(** X9.  On a topology whose counters agree with its vectors,
    [GetComponentCarrier] returns the carrier at position [ccId] of the band
    at position [bandId] when there is one; when there is none it aborts with
    the message of its own check (of the band first), and never on a vector
    access out of range. *)
Theorem GetComponentCarrier_by_position s bandId ccId :
  creator_counter_agrees s ->
  Forall band_counter_agrees (m_bands s) ->
  0 <= bandId -> 0 <= ccId ->
  GetComponentCarrier s bandId ccId =
    match carrier_at s (Z.to_nat bandId) (Z.to_nat ccId) with
    | Some cc => Done cc
    | None => Aborted (if bandId >=? m_numBands s then WrongBandId else CcIndexExceeds)
    end.
Proof.
  intros Hs Hbands Hb Hc. unfold GetComponentCarrier, carrier_at, creator_counter_agrees in *.
  destruct (Z.geb_spec bandId (m_numBands s)) as [Hout|Hin]; simpl.
  - rewrite (lookup_ge_None_2 (m_bands s)) by lia. done.
  - destruct (lookup_lt_is_Some_2 (m_bands s) (Z.to_nat bandId)) as [band Hband]; [lia|].
    rewrite Hband, (at_Some _ _ _ Hband). simpl.
    pose proof (proj1 (Forall_lookup _ _) Hbands _ _ Hband) as Hagree.
    unfold band_counter_agrees in Hagree.
    destruct (Z.leb_spec (Band.m_numCarriers band) ccId) as [Hcout|Hcin]; simpl.
    + rewrite (lookup_ge_None_2 (Band.m_cc band)) by lia. done.
    + destruct (lookup_lt_is_Some_2 (Band.m_cc band) (Z.to_nat ccId)) as [cc Hcc]; [lia|].
      by rewrite Hcc, (at_Some _ _ _ Hcc).
Qed.

Lemma GetComponentCarrier_by_position_witness :
  GetComponentCarrier dual_bwp_topology 0 1 = Aborted CcIndexExceeds.
Proof.
  assert (creator_counter_agrees dual_bwp_topology) as H1 by reflexivity.
  assert (Forall band_counter_agrees (m_bands dual_bwp_topology)) as H2.
  { repeat constructor. }
  assert (0 <= 0) as H3 by lia.
  assert (0 <= 1) as H4 by lia.
  exact (GetComponentCarrier_by_position dual_bwp_topology 0 1 H1 H2 H3 H4).
Defined.

(** X15.  [GetCarrierBandwidth] returns the bandwidth of the active BWP of the
    carrier at the two positions, and aborts when the carrier has no BWP with
    the active id; [GetAggregatedBandwidth] returns the sum, modulo 2^32, of
    what [GetCarrierBandwidth] returns for the carriers of the topology.  The
    topologies are those whose counters agree with their vectors and whose
    BWP ids are unique within every carrier. *)
Theorem GetCarrierBandwidth_adds_up_to_aggregate s :
  counts_consistent s ->
  bwp_ids_unique_everywhere s ->
  (forall bi ci cc, carrier_at s bi ci = Some cc ->
     GetCarrierBandwidth s (Z.of_nat bi) (Z.of_nat ci)
     = if decide (Cc.m_activeBwp cc ∈ Bwp.m_bwpId <$> Cc.m_bwp cc)
       then Ok (active_bandwidth cc) else Fail ActiveBwpNotFound)
  /\ GetAggregatedBandwidth s
     = uint32 (sumZ ((fun band => sumZ (active_bandwidth <$> Band.m_cc band)) <$> m_bands s)).
Proof.
  intros Hcons Hids. split; [|exact (GetAggregatedBandwidth_uint32 s Hids)].
  intros bi ci cc Hcc. unfold carrier_at in Hcc.
  destruct (m_bands s !! bi) as [band|] eqn:Hbi; [|done]. simpl in Hcc.
  unfold GetCarrierBandwidth. rewrite (GetActiveBwpInfo_at _ _ _ _ _ Hcons Hbi Hcc).
  unfold active_bandwidth. case_decide as Hin.
  - by destruct (find_bwp_is_Some _ _ Hin) as [bwp ->].
  - apply find_bwp_None in Hin. by rewrite Hin.
Qed.

Lemma dual_bwp_topology_ids_unique : bwp_ids_unique_everywhere dual_bwp_topology.
Proof.
  unfold bwp_ids_unique_everywhere. vm_compute stored_bwps.
  repeat (apply Forall_cons_2 || apply Forall_nil_2).
  apply NoDup_cons_2; [|apply NoDup_singleton].
  by intros ?%list_elem_of_singleton.
Qed.

Lemma GetCarrierBandwidth_adds_up_to_aggregate_witness :
  GetAggregatedBandwidth dual_bwp_topology
  = uint32 (sumZ ((fun band => sumZ (active_bandwidth <$> Band.m_cc band))
                    <$> m_bands dual_bwp_topology)).
Proof.
  exact (proj2 (GetCarrierBandwidth_adds_up_to_aggregate dual_bwp_topology
                  dual_bwp_topology_consistent dual_bwp_topology_ids_unique)).
Defined.

(** ** [ChangeActiveBwp]: when it succeeds and what it leaves alone *)

Lemma ChangeActiveBwp_ccs_is_Some ccs ccId activeBwpId :
  is_Some (ChangeActiveBwp_ccs ccs ccId activeBwpId) <->
  exists cc, cc ∈ ccs /\ Cc.m_ccId cc = ccId /\ activeBwpId ∈ Bwp.m_bwpId <$> Cc.m_bwp cc.
Proof.
  induction ccs as [|cc ccs IH]; simpl.
  - split; [by intros [? ?]|]. intros (cc & Hin & _). by apply elem_of_nil in Hin.
  - destruct ((Cc.m_ccId cc =? ccId) && existsb _ (Cc.m_bwp cc)) eqn:Hc.
    + split; [|by eexists]. intros _. apply andb_true_iff in Hc as [Hid Hex].
      exists cc. split; [by left|]. split; [by apply Z.eqb_eq|by apply existsb_bwpId].
    + rewrite fmap_is_Some, IH. split.
      * intros (cc' & Hin & H). exists cc'. split; [by right|done].
      * intros (cc' & Hin & Hid & Hex). apply elem_of_cons in Hin as [->|Hin].
        -- apply andb_false_iff in Hc as [Hc|Hc].
           ++ apply Z.eqb_neq in Hc. done.
           ++ apply existsb_bwpId in Hex. congruence.
        -- by exists cc'.
Qed.

(** X12.  [ChangeActiveBwp] succeeds exactly when some band with the id [bandId]
    has a carrier with the id [ccId] that has a BWP with the id
    [activeBwpId]; otherwise it aborts on the wrong request. *)
Theorem ChangeActiveBwp_succeeds_iff s bandId ccId activeBwpId :
  (is_Ok (ChangeActiveBwp s bandId ccId activeBwpId) = true <->
   exists band cc,
     band ∈ m_bands s /\ Band.m_bandId band = bandId
     /\ cc ∈ Band.m_cc band /\ Cc.m_ccId cc = ccId
     /\ activeBwpId ∈ Bwp.m_bwpId <$> Cc.m_bwp cc)
  /\ (is_Ok (ChangeActiveBwp s bandId ccId activeBwpId) = false ->
      ChangeActiveBwp s bandId ccId activeBwpId = Fail WrongChangeRequest).
Proof.
  unfold ChangeActiveBwp. split; [|by destruct (ChangeActiveBwp_bands _ _ _ _)].
  transitivity (is_Some (ChangeActiveBwp_bands (m_bands s) bandId ccId activeBwpId)).
  { destruct (ChangeActiveBwp_bands _ _ _ _); simpl; split; intros H;
      by (done || eexists || destruct H). }
  induction (m_bands s) as [|band bands IH]; simpl.
  - split; [by intros [? ?]|]. intros (b & cc & Hin & _). by apply elem_of_nil in Hin.
  - destruct (Z.eqb_spec (Band.m_bandId band) bandId) as [Hid|Hid].
    + destruct (ChangeActiveBwp_ccs (Band.m_cc band) ccId activeBwpId) as [ccs'|] eqn:Hccs.
      * split; [|by eexists]. intros _.
        destruct (proj1 (ChangeActiveBwp_ccs_is_Some (Band.m_cc band) ccId activeBwpId))
          as (cc & Hin & H); [by rewrite Hccs; eexists|].
        exists band, cc. split; [by left|done].
      * rewrite fmap_is_Some, IH. split.
        -- intros (b & cc & Hin & H). exists b, cc. split; [by right|done].
        -- intros (b & cc & Hin & Hb & Hcc & H). apply elem_of_cons in Hin as [->|Hin].
           ++ assert (is_Some (ChangeActiveBwp_ccs (Band.m_cc band) ccId activeBwpId)) as [? ?].
              { apply ChangeActiveBwp_ccs_is_Some. by exists cc. }
              congruence.
           ++ by exists b, cc.
    + rewrite fmap_is_Some, IH. split.
      * intros (b & cc & Hin & H). exists b, cc. split; [by right|done].
      * intros (b & cc & Hin & Hb & H). apply elem_of_cons in Hin as [->|Hin]; [done|].
        by exists b, cc.
Qed.

Lemma at_insert_ne {A} (v : list A) i j x : i <> j -> at_ (<[i := x]> v) j = at_ v j.
Proof. intros Hne. unfold at_. by rewrite list_lookup_insert_ne. Qed.

Lemma at_insert_eq {A} (v : list A) i x : (i < length v)%nat -> at_ (<[i := x]> v) i = Ok x.
Proof. intros Hlt. unfold at_. by rewrite list_lookup_insert_eq. Qed.

Lemma insert_nil_iff {A} (v : list A) i x : <[i := x]> v = [] <-> v = [].
Proof. destruct v, i; simpl; split; done. Qed.

(** X13.  [ChangeActiveBwp] writes the active-BWP id of one carrier: the counters
    of the creator are kept, the carrier at one position has the new id, the
    carriers at the other positions are as before, and [GetActiveBwpInfo]
    at any other pair of indices (in range or not) returns what it returned
    before. *)
Theorem ChangeActiveBwp_changes_one_carrier s bandId ccId activeBwpId s' :
  ChangeActiveBwp s bandId ccId activeBwpId = Ok s' ->
  m_maxBands s' = m_maxBands s /\ m_numBands s' = m_numBands s
  /\ m_numCcs s' = m_numCcs s /\ m_numBwps s' = m_numBwps s
  /\ exists bi ci cc,
       carrier_at s bi ci = Some cc
       /\ carrier_at s' bi ci = Some (Cc.set_activeBwp cc activeBwpId)
       /\ (forall bj cj, (bj, cj) <> (bi, ci) -> carrier_at s' bj cj = carrier_at s bj cj)
       /\ (forall bandIndex ccIndex, 0 <= bandIndex -> 0 <= ccIndex ->
             (Z.to_nat bandIndex, Z.to_nat ccIndex) <> (bi, ci) ->
             GetActiveBwpInfo s' bandIndex ccIndex = GetActiveBwpInfo s bandIndex ccIndex).
Proof.
  unfold ChangeActiveBwp.
  destruct (ChangeActiveBwp_bands _ _ _ _) as [bands'|] eqn:H; [|done].
  intros [= <-]. simpl. do 4 (split; [done|]).
  apply ChangeActiveBwp_bands_Some in H
    as (bi & band & ci & cc & Hbi & _ & Hci & _ & _ & ->).
  pose proof (lookup_lt_Some _ _ _ Hbi) as Hbi_lt.
  pose proof (lookup_lt_Some _ _ _ Hci) as Hci_lt.
  exists bi, ci, cc. unfold carrier_at. simpl. split_and!.
  - by rewrite Hbi.
  - rewrite list_lookup_insert_eq by done. simpl. by rewrite list_lookup_insert_eq.
  - intros bj cj Hne. destruct (decide (bj = bi)) as [->|Hb].
    + rewrite list_lookup_insert_eq, Hbi by done. simpl.
      apply list_lookup_insert_ne. congruence.
    + by rewrite list_lookup_insert_ne.
  - intros bandIndex ccIndex _ _ Hne. unfold GetActiveBwpInfo. simpl.
    rewrite length_insert.
    rewrite (bool_decide_ext _ (m_bands s = [])) by apply insert_nil_iff.
    destruct (abort_if (bool_decide (m_bands s = [])) _); [|done]. simpl.
    destruct (abort_if _ WrongBandIndex); [|done]. simpl.
    destruct (decide (Z.to_nat bandIndex = bi)) as [Hb|Hb].
    + rewrite Hb, at_insert_eq, (at_Some _ _ _ Hbi) by done. simpl.
      rewrite length_insert.
      rewrite (bool_decide_ext _ (Band.m_cc band = [])) by apply insert_nil_iff.
      destruct (abort_if (bool_decide (Band.m_cc band = [])) _); [|done]. simpl.
      destruct (abort_if _ WrongCcIndex); [|done]. simpl.
      rewrite at_insert_ne by congruence. done.
    + rewrite at_insert_ne by done. done.
Qed.

Lemma ChangeActiveBwp_changes_one_carrier_witness :
  exists s', ChangeActiveBwp dual_bwp_topology 0 0 1 = Ok s'
    /\ m_maxBands s' = m_maxBands dual_bwp_topology
    /\ m_numBands s' = m_numBands dual_bwp_topology
    /\ m_numCcs s' = m_numCcs dual_bwp_topology
    /\ m_numBwps s' = m_numBwps dual_bwp_topology
    /\ exists bi ci cc,
         carrier_at dual_bwp_topology bi ci = Some cc
         /\ carrier_at s' bi ci = Some (Cc.set_activeBwp cc 1)
         /\ (forall bj cj, (bj, cj) <> (bi, ci) ->
               carrier_at s' bj cj = carrier_at dual_bwp_topology bj cj)
         /\ (forall bandIndex ccIndex, 0 <= bandIndex -> 0 <= ccIndex ->
               (Z.to_nat bandIndex, Z.to_nat ccIndex) <> (bi, ci) ->
               GetActiveBwpInfo s' bandIndex ccIndex
               = GetActiveBwpInfo dual_bwp_topology bandIndex ccIndex).
Proof.
  eexists. split; [reflexivity|].
  apply (ChangeActiveBwp_changes_one_carrier dual_bwp_topology 0 0 1 _ eq_refl).
Defined.

(** A second [ChangeActiveBwp] with the same arguments finds the same
    carrier and changes nothing. *)
Lemma ChangeActiveBwp_ccs_again ccs ccId activeBwpId ccs' :
  ChangeActiveBwp_ccs ccs ccId activeBwpId = Some ccs' ->
  ChangeActiveBwp_ccs ccs' ccId activeBwpId = Some ccs'.
Proof.
  revert ccs'. induction ccs as [|cc ccs IH]; intros ccs' H; simpl in H; [done|].
  destruct ((Cc.m_ccId cc =? ccId) && existsb _ (Cc.m_bwp cc)) eqn:Hc.
  - injection H as <-. simpl. rewrite Hc. by destruct cc.
  - destruct (ChangeActiveBwp_ccs ccs ccId activeBwpId) as [rest|]; [|done].
    simpl in H. injection H as <-. simpl. rewrite Hc, (IH rest) by done. done.
Qed.

(** X14.  [ChangeActiveBwp] is idempotent: after a call that succeeds, the same
    call succeeds and leaves the topology as it is. *)
Theorem ChangeActiveBwp_idempotent s bandId ccId activeBwpId s' :
  ChangeActiveBwp s bandId ccId activeBwpId = Ok s' ->
  ChangeActiveBwp s' bandId ccId activeBwpId = Ok s'.
Proof.
  unfold ChangeActiveBwp.
  destruct (ChangeActiveBwp_bands (m_bands s) _ _ _) as [bands'|] eqn:H; [|done].
  intros [= <-]. simpl.
  assert (ChangeActiveBwp_bands bands' bandId ccId activeBwpId = Some bands') as ->; [|done].
  revert bands' H. generalize (m_bands s). clear s.
  intros l. induction l as [|band bands IH]; intros bands' H; simpl in H; [done|].
  destruct (if Band.m_bandId band =? bandId
            then ChangeActiveBwp_ccs (Band.m_cc band) ccId activeBwpId else None)
    as [ccs|] eqn:Hc.
  - injection H as <-. simpl.
    destruct (Band.m_bandId band =? bandId); [|done].
    rewrite (ChangeActiveBwp_ccs_again _ _ _ _ Hc). by destruct band.
  - destruct (ChangeActiveBwp_bands bands bandId ccId activeBwpId) as [rest|]; [|done].
    simpl in H. injection H as <-. simpl. rewrite Hc, (IH rest) by done. done.
Qed.

Lemma ChangeActiveBwp_idempotent_witness :
  exists s', ChangeActiveBwp dual_bwp_topology 0 0 1 = Ok s'
             /\ ChangeActiveBwp s' 0 0 1 = Ok s'.
Proof.
  eexists. split; [reflexivity|].
  apply (ChangeActiveBwp_idempotent dual_bwp_topology 0 0 1 _ eq_refl).
Defined.

(** ** [GetActiveBwpInfo ()]: the lookup without indices *)

Lemma GetActiveBwpInfo_primary_ccs_none ccs :
  Forall (fun cc => Cc.m_primaryCc cc <> PRIMARY) ccs ->
  GetActiveBwpInfo_primary_ccs ccs = Ok None.
Proof.
  induction 1 as [|cc ccs Hcc _ IH]; simpl; [done|].
  by rewrite bool_decide_eq_false_2.
Qed.

Lemma GetActiveBwpInfo_primary_ccs_one before cc after :
  Forall (fun cc => Cc.m_primaryCc cc <> PRIMARY) before ->
  Forall (fun cc => Cc.m_primaryCc cc <> PRIMARY) after ->
  Cc.m_primaryCc cc = PRIMARY ->
  GetActiveBwpInfo_primary_ccs (before ++ cc :: after)
  = if decide (Cc.m_bwp cc = []) then Fail MissingBwpInformation
    else Ok (find_bwp (Cc.m_activeBwp cc) (Cc.m_bwp cc)).
Proof.
  intros Hbefore Hafter Hcc. induction Hbefore as [|c before Hc _ IH]; simpl.
  - rewrite bool_decide_eq_true_2 by done. case_decide as Hnil.
    + by rewrite bool_decide_eq_true_2.
    + rewrite bool_decide_eq_false_2 by done. simpl.
      destruct (find_bwp _ _); [done|]. by apply GetActiveBwpInfo_primary_ccs_none.
  - by rewrite bool_decide_eq_false_2.
Qed.

Lemma GetActiveBwpInfo_primary_bands_none bands :
  Forall (fun band => Band.m_cc band <> []) bands ->
  Forall (fun band => Forall (fun cc => Cc.m_primaryCc cc <> PRIMARY) (Band.m_cc band)) bands ->
  GetActiveBwpInfo_primary_bands bands = Fail NoActiveBwpInPrimaryCc.
Proof.
  induction 1 as [|band bands Hband _ IH]; intros Hnone; simpl; [done|].
  apply Forall_cons in Hnone as [Hb Hrest].
  rewrite bool_decide_eq_false_2 by done. simpl.
  rewrite GetActiveBwpInfo_primary_ccs_none by done. simpl. by apply IH.
Qed.

(** X11.  On a topology with one PRIMARY carrier and no band without carriers,
    [GetActiveBwpInfo ()] returns what [GetActiveBwpInfo (bandIndex, ccIndex)]
    returns at the position of the PRIMARY carrier.  When that carrier has no
    BWP with the active id, the two abort with different messages, and when
    it has no BWP at all, the lookup without indices aborts on the missing
    BWP information. *)
Theorem GetActiveBwpInfo_primary_is_lookup_at_primary s bi ci cc :
  counts_consistent s ->
  no_empty_band s ->
  carrier_at s bi ci = Some cc ->
  Cc.m_primaryCc cc = PRIMARY ->
  only_primary_at s bi ci ->
  GetActiveBwpInfo_primary s
  = if decide (Cc.m_bwp cc = []) then Fail MissingBwpInformation
    else match GetActiveBwpInfo s (Z.of_nat bi) (Z.of_nat ci) with
         | Ok bwp => Ok bwp
         | Fail _ => Fail NoActiveBwpInPrimaryCc
         end.
Proof.
  intros Hcons Hnonempty Hcc Hprimary Honly. unfold carrier_at in Hcc.
  destruct (m_bands s !! bi) as [band|] eqn:Hbi; [|done]. simpl in Hcc.
  rewrite (GetActiveBwpInfo_at _ _ _ _ _ Hcons Hbi Hcc).
  assert (forall bj b, m_bands s !! bj = Some b -> bj <> bi ->
            Forall (fun cc => Cc.m_primaryCc cc <> PRIMARY) (Band.m_cc b)) as Hother.
  { intros bj b Hbj Hne. apply Forall_lookup. intros cj c Hcj Hp.
    destruct (Honly bj cj c) as [? _]; [|done..]. unfold carrier_at. by rewrite Hbj. }
  assert (forall cj c, Band.m_cc band !! cj = Some c -> cj <> ci ->
            Cc.m_primaryCc c <> PRIMARY) as Hsame.
  { intros cj c Hcj Hne Hp.
    destruct (Honly bi cj c) as [_ ?]; [|done..]. unfold carrier_at. by rewrite Hbi. }
  unfold GetActiveBwpInfo_primary, no_empty_band in *.
  rewrite bool_decide_eq_false_2 by (intros Hnil; by rewrite Hnil in Hbi). simpl.
  pose proof (take_drop_middle _ _ _ Hbi) as Hsplit.
  pose proof (take_drop_middle _ _ _ Hcc) as Hccs.
  pose proof (lookup_lt_Some _ _ _ Hbi) as Hbi_lt.
  pose proof (lookup_lt_Some _ _ _ Hcc) as Hci_lt.
  assert (Forall (fun b => Forall (fun cc => Cc.m_primaryCc cc <> PRIMARY) (Band.m_cc b))
                 (take bi (m_bands s))) as Hbefore.
  { apply Forall_lookup. intros bj b Hbj. apply lookup_take_Some in Hbj as [Hbj Hlt].
    apply (Hother bj b Hbj). lia. }
  assert (Forall (fun b => Forall (fun cc => Cc.m_primaryCc cc <> PRIMARY) (Band.m_cc b))
                 (drop (S bi) (m_bands s))) as Hafter.
  { apply Forall_lookup. intros bj b Hbj. rewrite lookup_drop in Hbj.
    apply (Hother _ b Hbj). lia. }
  assert (GetActiveBwpInfo_primary_ccs (Band.m_cc band)
          = if decide (Cc.m_bwp cc = []) then Fail MissingBwpInformation
            else Ok (find_bwp (Cc.m_activeBwp cc) (Cc.m_bwp cc))) as Hband.
  { rewrite <- Hccs at 1. apply GetActiveBwpInfo_primary_ccs_one; [| |done].
    - apply Forall_lookup. intros cj c Hcj. apply lookup_take_Some in Hcj as [Hcj Hlt].
      apply (Hsame cj c Hcj). lia.
    - apply Forall_lookup. intros cj c Hcj. rewrite lookup_drop in Hcj.
      apply (Hsame _ c Hcj). lia. }
  rewrite <- Hsplit in Hnonempty. rewrite <- Hsplit.
  apply Forall_app in Hnonempty as [Hne1 Hne2]. apply Forall_cons in Hne2 as [Hne Hne2].
  revert Hne1 Hbefore. generalize (take bi (m_bands s)) as before.
  induction before as [|b before IH]; intros Hne1 Hbefore; simpl.
  - rewrite bool_decide_eq_false_2 by done. simpl. rewrite Hband.
    case_decide; [done|]. simpl.
    destruct (find_bwp _ _); [done|]. by apply GetActiveBwpInfo_primary_bands_none.
  - apply Forall_cons in Hne1 as [Hb Hne1]. apply Forall_cons in Hbefore as [Hnp Hbefore].
    rewrite bool_decide_eq_false_2 by done. simpl.
    rewrite GetActiveBwpInfo_primary_ccs_none by done. simpl. by apply IH.
Qed.

Lemma GetActiveBwpInfo_primary_is_lookup_at_primary_witness :
  GetActiveBwpInfo_primary dual_bwp_topology
  = match GetActiveBwpInfo dual_bwp_topology 0 0 with
    | Ok bwp => Ok bwp
    | Fail _ => Fail NoActiveBwpInPrimaryCc
    end.
Proof.
  assert (no_empty_band dual_bwp_topology) as H1 by (by repeat constructor).
  assert (only_primary_at dual_bwp_topology 0 0) as H2.
  { intros [|[|bj]] [|[|cj]] c; by vm_compute. }
  exact (GetActiveBwpInfo_primary_is_lookup_at_primary dual_bwp_topology 0 0 _
           dual_bwp_topology_consistent H1 eq_refl eq_refl H2).
Defined.

(** ** [ValidateOperationBand] and [CreateOperationBand]: what they accept *)

Lemma adjacent_gaps_length ccs : length (adjacent_gaps ccs) = (length ccs - 1)%nat.
Proof.
  unfold adjacent_gaps. rewrite length_zip_with.
  destruct ccs; [done|]. cbn [tail length]. lia.
Qed.

(** The loop over the pairs [c, c+1], ..., [c+n-1, c+n]: it aborts when one
    of their gaps is negative, and otherwise answers NON_CONTIGUOUS when one
    of them exceeds 1 and the mode it started with when none does. *)
Lemma ValidateOperationBand_loop_gaps ccs n c contiguous :
  (c + n < length ccs)%nat ->
  ValidateOperationBand_loop ccs n c contiguous
  = if decide (Exists (fun gap => gap < 0) (take n (drop c (adjacent_gaps ccs))))
    then Fail CcsOverlap
    else Ok (if decide (Exists (fun gap => 1 < gap) (take n (drop c (adjacent_gaps ccs))))
             then NON_CONTIGUOUS else contiguous).
Proof.
  revert c contiguous. induction n as [|n IH]; intros c contiguous Hlen.
  - rewrite take_0. simpl ValidateOperationBand_loop.
    rewrite !decide_False by (by intros ?%Exists_nil). done.
  - simpl ValidateOperationBand_loop.
    destruct (lookup_lt_is_Some_2 ccs c) as [cur Hcur]; [lia|].
    destruct (lookup_lt_is_Some_2 ccs (S c)) as [next Hnext]; [lia|].
    replace (c + 1)%nat with (S c) by lia.
    rewrite (at_Some _ _ _ Hnext), (at_Some _ _ _ Hcur). simpl.
    set (gap := Cc.m_lowerFrequency next - Cc.m_higherFrequency cur).
    assert (adjacent_gaps ccs !! c = Some gap) as Hgap.
    { apply adjacent_gaps_lookup. by exists cur, next. }
    rewrite (drop_S _ _ _ Hgap). rewrite firstn_cons.
    rewrite IH by lia.
    destruct (Z.ltb_spec gap 0) as [Hneg|Hpos].
    + rewrite (decide_True (P := Exists _ (gap :: _))) by (by apply Exists_cons_hd). done.
    + destruct (decide (Exists (fun g => g < 0) (take n (drop (S c) (adjacent_gaps ccs)))))
        as [Hex|Hnex].
      * rewrite (decide_True (P := Exists _ (gap :: _))) by (by apply Exists_cons_tl). done.
      * rewrite (decide_False (P := Exists _ (gap :: _)))
          by (rewrite Exists_cons; intros [?|?]; [lia|done]).
        f_equal. destruct (Z.gtb_spec gap 1) as [Hbig|Hsmall].
        -- rewrite (decide_True (P := Exists _ (gap :: _)))
             by (apply Exists_cons_hd; lia).
           by case_decide.
        -- destruct (decide (Exists (fun g => 1 < g)
                               (take n (drop (S c) (adjacent_gaps ccs))))) as [Hex1|Hnex1].
           ++ rewrite (decide_True (P := Exists _ (gap :: _)))
                by (by apply Exists_cons_tl). done.
           ++ rewrite (decide_False (P := Exists _ (gap :: _)))
                by (rewrite Exists_cons; intros [?|?]; [lia|done]). done.
Qed.

Lemma for_each_is_Ok {A} (f : A -> Result A) v :
  is_Ok (for_each f v) = true <-> Forall (fun x => is_Ok (f x) = true) v.
Proof.
  induction v as [|x v IH]; simpl; [by split|].
  rewrite Forall_cons, <- IH.
  destruct (f x); simpl; [|by intuition].
  destruct (for_each f v); simpl; by intuition.
Qed.

Lemma for_each_Ok_Forall2 {A} (f : A -> Result A) v v' :
  for_each f v = Ok v' <-> Forall2 (fun x x' => f x = Ok x') v v'.
Proof.
  revert v'. induction v as [|x v IH]; intros v'; simpl.
  - split; [by intros [= <-]|]. by intros ->%Forall2_nil_inv_l.
  - split.
    + intros H. do 2 bind_inv H. injection H as <-. constructor; [done|by apply IH].
    + intros (x' & v'' & Hx & Hv & ->)%Forall2_cons_inv_l.
      rewrite Hx. simpl. apply IH in Hv. by rewrite Hv.
Qed.

(** X5.  What [ValidateOperationBand] accepts and what it answers, whatever
    the sort of the library does with equal central frequencies ([sort] is
    any sort that meets the contract of [std::sort], and [sorted] the order
    it gives the carriers).  A band passes exactly when it has carriers,
    declares their number, no gap between two neighbours of [sorted] is
    negative, and every carrier passes [CheckBwpsInCc].  [sorted] holds the
    carriers of the band in ascending order of central frequency; the band
    that is returned has them in that order, each as [CheckBwpsInCc] returns
    it, its mode is NON_CONTIGUOUS when one of the gaps exceeds 1 and
    CONTIGUOUS otherwise, and its other members are as before. *)
Theorem ValidateOperationBand_accepts sort band :
  sorts_by CarrierFrequencyCompare sort ->
  0 <= Band.m_numCarriers band < 256 ->
  let sorted := sort (Band.m_cc band) in
  (is_Ok (AnySort.ValidateOperationBand sort band) = true <->
   Band.m_cc band <> []
   /\ Band.m_numCarriers band = Z.of_nat (length (Band.m_cc band))
   /\ Forall (fun gap => 0 <= gap) (adjacent_gaps sorted)
   /\ Forall (fun cc => is_Ok (CheckBwpsInCc cc) = true) (Band.m_cc band))
  /\ forall band', AnySort.ValidateOperationBand sort band = Ok band' ->
       sorted ≡ₚ Band.m_cc band
       /\ Sorted (le_key Cc.m_centralFrequency) sorted
       /\ Forall2 (fun cc cc' => CheckBwpsInCc cc = Ok cc') sorted (Band.m_cc band')
       /\ Band.m_contiguousCc band'
          = (if decide (Exists (fun gap => 1 < gap) (adjacent_gaps sorted))
             then NON_CONTIGUOUS else CONTIGUOUS)
       /\ band' = Band.set_cc (Band.set_contiguousCc band (Band.m_contiguousCc band'))
                    (Band.m_cc band').
Proof.
  intros Hsort Hrange sorted. unfold AnySort.ValidateOperationBand. fold sorted.
  assert (sorted ≡ₚ Band.m_cc band) as Hsame by apply Hsort.
  case_bool_decide as Hnil; simpl.
  { split; [|done]. split; [done|]. by intros [? _]. }
  destruct (Z.eqb_spec (Band.m_numCarriers band) (Z.of_nat (length (Band.m_cc band))))
    as [Hnum|Hnum]; simpl.
  2: { split; [|done]. split; [done|]. by intros (_ & ? & _). }
  rewrite uint8_small by lia.
  assert (length sorted = length (Band.m_cc band)) as Hlen by (by rewrite Hsame).
  assert (length (Band.m_cc band) <> 0)%nat as Hpos by (by destruct (Band.m_cc band)).
  rewrite ValidateOperationBand_loop_gaps by lia.
  rewrite drop_0, take_ge by (rewrite adjacent_gaps_length; lia).
  assert (Forall (fun cc => is_Ok (CheckBwpsInCc cc) = true) (Band.m_cc band)
          <-> Forall (fun cc => is_Ok (CheckBwpsInCc cc) = true) sorted) as Hperm.
  { by rewrite Hsame. }
  destruct (decide (Exists (fun gap => gap < 0) (adjacent_gaps sorted))) as [Hneg|Hnoneg]; simpl.
  { split; [|done]. split; [done|]. intros (_ & _ & Hall & _).
    apply Exists_exists in Hneg as (g & Hin & Hg).
    pose proof (proj1 (Forall_forall _ _) Hall g Hin) as Hg0. simpl in Hg0. lia. }
  assert (Forall (fun gap => 0 <= gap) (adjacent_gaps sorted)) as Hgaps.
  { apply Forall_forall. intros g Hin.
    destruct (decide (g < 0)) as [Hg|]; [|lia].
    exfalso. apply Hnoneg, Exists_exists. eauto. }
  split.
  - rewrite Hperm, <- for_each_is_Ok.
    destruct (for_each CheckBwpsInCc sorted); simpl; by intuition.
  - intros band' H. bind_inv H. injection H as <-. simpl. split_and!.
    + done.
    + unfold sorted. by apply (sorts_by_Sorted Cc.m_centralFrequency).
    + by apply for_each_Ok_Forall2.
    + done.
    + done.
Qed.

Lemma ValidateOperationBand_accepts_witness :
  is_Ok (ValidateOperationBand gapped_band) = true <->
  Band.m_cc gapped_band <> []
  /\ Band.m_numCarriers gapped_band = Z.of_nat (length (Band.m_cc gapped_band))
  /\ Forall (fun gap => 0 <= gap)
       (adjacent_gaps (std_sort CarrierFrequencyCompare (Band.m_cc gapped_band)))
  /\ Forall (fun cc => is_Ok (CheckBwpsInCc cc) = true) (Band.m_cc gapped_band).
Proof.
  assert (0 <= Band.m_numCarriers gapped_band < 256) as H by (simpl; lia).
  exact (proj1 (ValidateOperationBand_accepts (std_sort CarrierFrequencyCompare) gapped_band
                  (std_sort_sorts_by Cc.m_centralFrequency) H)).
Defined.

Lemma CreateOperationBand_loop_eq ccs n c contiguous :
  CreateOperationBand_loop ccs n c contiguous = ValidateOperationBand_loop ccs n c contiguous.
Proof.
  revert c contiguous. induction n as [|n IH]; intros c contiguous; simpl; [done|].
  destruct (at_ ccs (c + 1)) as [next|]; simpl; [|done].
  destruct (at_ ccs c) as [cur|]; simpl; [|done].
  destruct (_ <? 0); [done|]. apply IH.
Qed.

(** X4.  [CreateOperationBand (centralFrequency, operationBandwidth, ccs)] turns
    down an empty vector and one of more than [MAX_CC_INTRA_BAND] carriers;
    otherwise it does what [ValidateOperationBand] does on the band it is
    about to build: the band of these carriers that declares their number and
    spans [operationBandwidth/2] (the quotient of integers) on each side of
    the central frequency.  It aborts where the validation aborts, and
    returns the band that the validation returns. *)
Theorem CreateOperationBand_is_validation MAX_CC_INTRA_BAND band0
    centralFrequency operationBandwidth ccs :
  Z.of_nat (length ccs) < 256 ->
  CreateOperationBand MAX_CC_INTRA_BAND band0 centralFrequency operationBandwidth ccs
  = if decide (ccs = []) then Aborted NoCcDefinition
    else if decide (MAX_CC_INTRA_BAND < Z.of_nat (length ccs)) then Aborted TooManyCcs
    else earlier (ValidateOperationBand
                    (Band.mk (Band.m_bandId band0) centralFrequency operationBandwidth
                       (centralFrequency - operationBandwidth / 2)
                       (centralFrequency + operationBandwidth / 2)
                       (Z.of_nat (length ccs)) CONTIGUOUS ccs)).
Proof.
  intros Hlen. unfold CreateOperationBand, ValidateOperationBand.
  case_decide as Hnil.
  { by rewrite bool_decide_eq_true_2. }
  rewrite bool_decide_eq_false_2 by done. simpl.
  rewrite !uint8_small by lia.
  case_decide as Hmax.
  { destruct (Z.gtb_spec (Z.of_nat (length ccs)) MAX_CC_INTRA_BAND); [done|lia]. }
  destruct (Z.gtb_spec (Z.of_nat (length ccs)) MAX_CC_INTRA_BAND); [lia|]. simpl.
  rewrite bool_decide_eq_false_2 by done. simpl.
  rewrite Z.eqb_refl. simpl. rewrite ?uint8_small by lia.
  rewrite CreateOperationBand_loop_eq.
  destruct (ValidateOperationBand_loop _ _ _ _) as [contiguous|]; simpl; [|done].
  by destruct (for_each CheckBwpsInCc _).
Qed.

Lemma CreateOperationBand_is_validation_witness :
  CreateOperationBand 8 empty_band 500000000 1000000000 (Band.m_cc gapped_band)
  = Done (Band.mk 0 500000000 1000000000 0 1000000000 2 NON_CONTIGUOUS
            (Band.m_cc gapped_band)).
Proof.
  assert (Z.of_nat (length (Band.m_cc gapped_band)) < 256) as H by (simpl; lia).
  exact (CreateOperationBand_is_validation 8 empty_band 500000000 1000000000
           (Band.m_cc gapped_band) H).
Defined.

(** ** [ValidateCaBwpConfiguration]: what it accepts *)

Lemma ValidateCaBwpConfiguration_inner_passes a ia bs ib numPrimaryCcs :
  (forall j b, bs !! j = Some b -> ia <> (ib + j)%nat ->
               Band.m_lowerFrequency b <= Band.m_higherFrequency a) ->
  is_Ok (ValidateCaBwpConfiguration_inner a ia bs ib numPrimaryCcs) = true.
Proof.
  revert ib numPrimaryCcs. induction bs as [|b0 bs IH]; intros ib n Hall; simpl; [done|].
  destruct (negb (ia =? ib)%nat && (Band.m_higherFrequency a <? Band.m_lowerFrequency b0))
    eqn:Hc.
  - apply andb_true_iff in Hc as [Hne Hlt].
    apply negb_true_iff, Nat.eqb_neq in Hne. apply Z.ltb_lt in Hlt.
    pose proof (Hall 0%nat b0 eq_refl ltac:(lia)). lia.
  - apply IH. intros j b Hj Hne. apply (Hall (S j) b); [done|lia].
Qed.

Lemma ValidateCaBwpConfiguration_outer_passes seen todo numAggrCcs numPrimaryCcs :
  Forall (fun band => is_Ok (ValidateOperationBand band) = true) todo ->
  (forall i a j b,
     todo !! i = Some a -> (seen ++ todo) !! j = Some b -> j <> (length seen + i)%nat ->
     Band.m_lowerFrequency b <= Band.m_higherFrequency a) ->
  is_Ok (ValidateCaBwpConfiguration_outer seen todo numAggrCcs numPrimaryCcs) = true.
Proof.
  revert seen numAggrCcs numPrimaryCcs.
  induction todo as [|a rest IH]; intros seen aggr prim Hvalid Hbands; simpl; [done|].
  apply Forall_cons in Hvalid as [Ha Hrest].
  destruct (ValidateOperationBand a) as [a'|] eqn:Hval; [|done]. simpl.
  pose proof (ValidateOperationBand_Ok_inv _ _ Hval) as (Hlo & Hhi & _ & _).
  pose proof (ValidateCaBwpConfiguration_inner_passes a' (length seen)
                (seen ++ a' :: rest) 0 prim) as Hinner.
  destruct (ValidateCaBwpConfiguration_inner a' _ _ _ _) as [p1|]; simpl.
  - apply IH; [done|]. intros i b j c Hi Hj Hne.
    rewrite <- (assoc_L (++)) in Hj. simpl in Hj. rewrite length_app in Hne. simpl in Hne.
    destruct (decide (j = length seen)) as [->|Hj'].
    + rewrite list_lookup_middle in Hj by done. injection Hj as <-. rewrite Hlo.
      apply (Hbands (S i) b (length seen) a); [done| |lia].
      by rewrite list_lookup_middle.
    + apply (Hbands (S i) b j c); [done| |lia].
      by rewrite (lookup_middle_ne _ _ _ a') by done.
  - exfalso. enough (false = true) by done. apply Hinner.
    intros j b Hj Hne. rewrite Hhi.
    apply (Hbands 0%nat a j b); [done| |lia].
    rewrite (lookup_middle_ne _ _ _ a') by lia. done.
Qed.

Lemma uint16_add_l x y : uint16 (uint16 x + y) = uint16 (x + y).
Proof. unfold uint16. by rewrite Zplus_mod_idemp_l. Qed.

Lemma ValidateCaBwpConfiguration_outer_valid seen todo numAggrCcs numPrimaryCcs r :
  0 <= numAggrCcs < 65536 ->
  ValidateCaBwpConfiguration_outer seen todo numAggrCcs numPrimaryCcs = Ok r ->
  Forall (fun band => is_Ok (ValidateOperationBand band) = true) todo
  /\ snd (fst r) = uint16 (numAggrCcs + sumZ (Band.m_numCarriers <$> todo)).
Proof.
  revert seen numAggrCcs numPrimaryCcs.
  induction todo as [|a rest IH]; intros seen aggr prim Haggr H; simpl in H.
  - injection H as <-. simpl. split; [done|].
    unfold sumZ. simpl. by rewrite Z.add_0_r, uint16_small.
  - apply bind_Ok_inv in H as (a' & Hval & H).
    apply bind_Ok_inv in H as (p1 & Hinner & H).
    pose proof (ValidateOperationBand_Ok_inv _ _ Hval) as (_ & _ & Hnum & _).
    apply IH in H as [Hrest ->]; [|unfold uint16; apply Z.mod_pos_bound; lia].
    split; [apply Forall_cons; by rewrite Hval|].
    rewrite uint16_add_l, fmap_cons, sumZ_cons, Hnum. f_equal. lia.
Qed.

(** X6.  What [ValidateCaBwpConfiguration] accepts.  A topology passes exactly
    when [m_numBands] is the number of bands and at most [m_maxBands], every
    band passes [ValidateOperationBand], no band starts above the end of
    another one, the carriers declared by the bands are, modulo 2^16, at most
    [MAX_CC_INTER_BAND], and the number of PRIMARY carriers times the number
    of bands is 1 modulo 2^8. *)
Theorem ValidateCaBwpConfiguration_accepts MAX_CC_INTER_BAND s :
  is_Ok (ValidateCaBwpConfiguration MAX_CC_INTER_BAND s) = true <->
  m_numBands s = Z.of_nat (length (m_bands s))
  /\ m_numBands s <= m_maxBands s
  /\ Forall (fun band => is_Ok (ValidateOperationBand band) = true) (m_bands s)
  /\ (forall i j a b,
        m_bands s !! i = Some a -> m_bands s !! j = Some b -> i <> j ->
        Band.m_lowerFrequency b <= Band.m_higherFrequency a)
  /\ uint16 (sumZ (Band.m_numCarriers <$> m_bands s)) <= MAX_CC_INTER_BAND
  /\ uint8 (Z.of_nat (length (m_bands s)) * total_primary (m_bands s)) = 1.
Proof.
  unfold ValidateCaBwpConfiguration.
  destruct (Z.eqb_spec (m_numBands s) (Z.of_nat (length (m_bands s)))) as [Hnum|Hnum]; simpl.
  2: { split; [done|]. by intros [? _]. }
  destruct (Z.gtb_spec (m_numBands s) (m_maxBands s)) as [Hmax|Hmax]; simpl.
  { split; [done|]. intros (_ & ? & _). lia. }
  pose proof (ValidateCaBwpConfiguration_outer_passes [] (m_bands s) 0 0) as Hpasses.
  destruct (ValidateCaBwpConfiguration_outer [] (m_bands s) 0 0)
    as [[[bands numAggrCcs] numPrimaryCcs]|] eqn:Houter; simpl.
  - pose proof (ValidateCaBwpConfiguration_outer_Ok [] (m_bands s) 0 0 _ ltac:(lia) Houter)
      as [Hprim Hbands].
    pose proof (ValidateCaBwpConfiguration_outer_valid [] (m_bands s) 0 0 _ ltac:(lia) Houter)
      as [Hvalid Haggr].
    simpl in Hprim, Hbands, Haggr. rewrite Z.add_0_l in Hprim, Haggr.
    subst numAggrCcs numPrimaryCcs.
    assert (forall i j a b,
              m_bands s !! i = Some a -> m_bands s !! j = Some b -> i <> j ->
              Band.m_lowerFrequency b <= Band.m_higherFrequency a) as Hpairs.
    { intros i j a b Hi Hj Hne. apply (Hbands i a j b); [done|done|simpl; lia]. }
    destruct (Z.gtb_spec (uint16 (sumZ (Band.m_numCarriers <$> m_bands s))) MAX_CC_INTER_BAND)
      as [Hmany|Hfew]; simpl.
    { split; [done|]. intros (_ & _ & _ & _ & ? & _). lia. }
    destruct (Z.eqb_spec
                (uint8 (Z.of_nat (length (m_bands s)) * total_primary (m_bands s))) 1)
      as [Hone|Hone]; simpl.
    + split; [|done]. intros _. by split_and!.
    + split; [done|]. by intros (_ & _ & _ & _ & _ & ?).
  - split; [done|]. intros (_ & _ & Hvalid & Hpairs & _).
    exfalso. enough (false = true) by done. apply Hpasses; [done|].
    intros i a j b Hi Hj Hne. simpl in Hj, Hne. by apply (Hpairs i j a b).
Qed.

(** * [MmWaveUeNetDevice] *)

(** ** [GetPhyOnCenterFreq] and [GetPhy] *)

Lemma ccMap_entries_loop (m : gmap Z ComponentCarrierMmWaveUe) a n k cc :
  (a <= k < a + n)%nat ->
  m !! Z.of_nat k = Some cc ->
  GetDlEarfcn cc <> 0 ->
  (forall k' cc', (a <= k' < k)%nat -> m !! Z.of_nat k' = Some cc' -> GetDlEarfcn cc' = 0) ->
  GetPhyOnCenterFreq_loop
    (omap (fun k => let z := Z.of_nat k in pair z <$> m !! z) (seq a n))
  = GetPhy cc.
Proof.
  revert a. induction n as [|n IH]; intros a Hk Hcc Hne Hbefore; [lia|]. simpl.
  destruct (decide (k = a)) as [->|Hka].
  - rewrite Hcc. simpl. by destruct (Z.eqb_spec (GetDlEarfcn cc) 0).
  - destruct (m !! Z.of_nat a) as [cc'|] eqn:Ha; simpl.
    + rewrite (Hbefore a cc') by (done || lia). simpl.
      apply IH; [lia|done..|]. intros k' c' Hk'. apply Hbefore. lia.
    + apply IH; [lia|done..|]. intros k' c' Hk'. apply Hbefore. lia.
Qed.

Lemma ccMap_entries_loop_none (m : gmap Z ComponentCarrierMmWaveUe) a n :
  (forall k cc, m !! k = Some cc -> GetDlEarfcn cc = 0) ->
  GetPhyOnCenterFreq_loop
    (omap (fun k => let z := Z.of_nat k in pair z <$> m !! z) (seq a n))
  = None.
Proof.
  intros Hall. revert a. induction n as [|n IH]; intros a; simpl; [done|].
  destruct (m !! Z.of_nat a) as [cc'|] eqn:Ha; simpl; [|done].
  rewrite (Hall _ _ Ha). simpl. apply IH.
Qed.

(** X18.  What [GetPhyOnCenterFreq] returns, whatever its argument: the PHY of the
    carrier with the lowest key among those whose DL EARFCN is not zero,
    which is what [GetPhy] returns for that key; and a null pointer when the
    DL EARFCN of every carrier is zero. *)
Theorem GetPhyOnCenterFreq_lowest_key d centerFrequency :
  ccMap_keys_uint8 d ->
  (forall k cc,
     m_ccMap d !! k = Some cc -> GetDlEarfcn cc <> 0 ->
     (forall k' cc', k' < k -> m_ccMap d !! k' = Some cc' -> GetDlEarfcn cc' = 0) ->
     GetPhyOnCenterFreq d centerFrequency = GetPhy cc
     /\ MmWaveUeNetDevice_GetPhy d k = Ok (GetPhyOnCenterFreq d centerFrequency))
  /\ ((forall k cc, m_ccMap d !! k = Some cc -> GetDlEarfcn cc = 0) ->
      GetPhyOnCenterFreq d centerFrequency = None).
Proof.
  intros Hkeys. unfold GetPhyOnCenterFreq, ccMap_entries. split.
  - intros k cc Hcc Hne Hlowest.
    assert (0 <= k < 256) as Hk by (apply Hkeys; by rewrite Hcc).
    assert (GetPhyOnCenterFreq_loop
              (omap (fun k => let z := Z.of_nat k in pair z <$> m_ccMap d !! z) (seq 0 256))
            = GetPhy cc) as Hloop.
    { apply (ccMap_entries_loop _ 0 256 (Z.to_nat k)); [lia|by rewrite Z2Nat.id by lia|done|].
      intros k' cc' Hk'. apply Hlowest. lia. }
    split; [done|]. unfold MmWaveUeNetDevice_GetPhy. rewrite Hcc. f_equal. symmetry. exact Hloop.
  - apply ccMap_entries_loop_none.
Qed.

Lemma two_carrier_device_keys k cc :
  m_ccMap two_carrier_device !! k = Some cc -> k = 0 \/ k = 1.
Proof.
  unfold two_carrier_device, m_ccMap. intros Hk.
  apply lookup_insert_Some in Hk as [[<- _]|[_ Hk]]; [by left|].
  apply lookup_singleton_Some in Hk as [<- _]. by right.
Qed.

Lemma two_carrier_device_keys_uint8 : ccMap_keys_uint8 two_carrier_device.
Proof. intros k [cc Hk]. destruct (two_carrier_device_keys k cc Hk); lia. Qed.

Lemma GetPhyOnCenterFreq_lowest_key_witness :
  GetPhyOnCenterFreq two_carrier_device 28400000000 = Some 1%positive
  /\ MmWaveUeNetDevice_GetPhy two_carrier_device 0
     = Ok (GetPhyOnCenterFreq two_carrier_device 28400000000).
Proof.
  apply (proj1 (GetPhyOnCenterFreq_lowest_key two_carrier_device 28400000000
                  two_carrier_device_keys_uint8)
           0 (mkCcUe 100 (Some 1%positive))).
  - reflexivity.
  - simpl. lia.
  - intros k' cc' Hlt Hk'. destruct (two_carrier_device_keys k' cc' Hk'); lia.
Defined.

(** ** [UpdateConfig], [SetCsgId], [DoInitialize], [DoSend] *)

Lemma last_omap_app {A B} (f : A -> option B) l1 l2 :
  last (omap f (l1 ++ l2))
  = match last (omap f l2) with Some y => Some y | None => last (omap f l1) end.
Proof. by rewrite omap_app, last_app. Qed.

Lemma omap_MacInitialize {B} (f : UeCall -> option B) (entries : list (Z * ComponentCarrierMmWaveUe)) :
  f RrcInitialize = None -> (forall k, f (MacInitialize k) = None) ->
  omap f ((MacInitialize ∘ fst <$> entries) ++ [RrcInitialize]) = [].
Proof.
  intros Hrrc Hmac. induction entries as [|e entries IH]; simpl.
  - by rewrite Hrrc.
  - by rewrite Hmac.
Qed.

(** X19.  The device hands its configuration down when it is initialised and at
    every change after that, and not before.  After any calls of
    [SetCsgId], [DoInitialize], [UpdateConfig] and [DoSend] on a device that
    was just constructed: the device is marked as constructed exactly when
    [DoInitialize] was among the calls; the NAS and the RRC have then been
    given the IMSI of the device, and the NAS the CSG id that [GetCsgId]
    returns, in their last setting, and have been given nothing before; and
    every packet handed to the NAS has the protocol number of IPv4. *)
Theorem MmWaveUeNetDevice_configuration_reaches_nas
    PROT_NUMBER nas_Send device imsi csgId (ops : list UeOp) :
  let st := foldl (UeOp_run PROT_NUMBER nas_Send)
              (MmWaveUeNetDevice_new device imsi csgId) ops in
  (Ue.m_isConstructed st = true <-> CallDoInitialize ∈ ops)
  /\ Ue.m_imsi st = imsi
  /\ nas_csgId (Ue.calls st) = (if Ue.m_isConstructed st then Some (GetCsgId st) else None)
  /\ nas_imsi (Ue.calls st) = (if Ue.m_isConstructed st then Some imsi else None)
  /\ rrc_imsi (Ue.calls st) = (if Ue.m_isConstructed st then Some imsi else None)
  /\ Forall (fun n => n = PROT_NUMBER) (nas_sent_protocols (Ue.calls st)).
Proof.
  induction ops as [|op ops IH] using rev_ind; simpl.
  { split_and!; try done. split; [done|]. by intros ?%elem_of_nil. }
  rewrite foldl_snoc.
  destruct (foldl _ _ ops) as [dev constructed imsi' csg calls].
  simpl in IH. destruct IH as (Hc & -> & Hcsg & Himsi & Hrrc & Hsent).
  unfold nas_csgId, nas_imsi, rrc_imsi, nas_sent_protocols, GetCsgId in *. simpl in *.
  assert (forall op', op' <> CallDoInitialize ->
            (constructed = true <-> CallDoInitialize ∈ ops ++ [op'])) as Hsame.
  { intros op' Hne. rewrite Hc, elem_of_app, list_elem_of_singleton.
    split; [by left|]. by intros [?|?]. }
  destruct op as [v| | |packet protocolNumber]; cbn [UeOp_run].
  - unfold SetCsgId, UpdateConfig. simpl. destruct constructed; simpl.
    + rewrite !last_omap_app. simpl. rewrite omap_app, Forall_app. simpl.
      split_and!; try done. by apply Hsame.
    + split_and!; try done. by apply Hsame.
  - unfold DoInitialize, UpdateConfig.
    cbn [Ue.calls Ue.device Ue.m_isConstructed Ue.m_imsi Ue.m_csgId].
    rewrite !(last_omap_app _ (calls ++ _)), !omap_MacInitialize by done.
    rewrite !last_omap_app. simpl last.
    rewrite !(omap_app _ (calls ++ _)), !omap_MacInitialize by done.
    rewrite !app_nil_r, omap_app, Forall_app. simpl.
    split_and!; try done. split; [|done]. intros _.
    rewrite elem_of_app, list_elem_of_singleton. by right.
  - unfold UpdateConfig. simpl. destruct constructed; simpl.
    + rewrite !last_omap_app. simpl. rewrite omap_app, Forall_app. simpl.
      split_and!; try done. by apply Hsame.
    + split_and!; try done. by apply Hsame.
  - unfold DoSend. destruct (Z.eqb_spec protocolNumber PROT_NUMBER) as [->|Hne]; simpl.
    + rewrite !last_omap_app. simpl. rewrite omap_app, Forall_app. simpl.
      split_and!; try done; [by apply Hsame|by destruct (last _)..|].
      by repeat constructor.
    + split_and!; try done. by apply Hsame.
Qed.

(** * [MmWaveHelper] *)

(** ** [AddBandwidthPart] *)

(** X20.  The calls of [AddBandwidthPart] all succeed exactly when the ids are new
    to the helper and differ from one another, and every representation
    carries the id it is added under.  The configuration then holds the
    representations under their ids beside what it held, the other members
    of the helper are as before, and if every key was the id of its entry,
    it still is. *)
Theorem AddBandwidthPart_all_accepts h parts :
  (is_Done (AddBandwidthPart_all h parts) = true <->
   NoDup parts.*1
   /\ Forall (fun p => Helper.m_bwpConfiguration h !! fst p = None
                       /\ Repr.m_id (snd p) = fst p) parts)
  /\ forall h', AddBandwidthPart_all h parts = Done h' ->
       Helper.m_bwpConfiguration h' = list_to_map parts ∪ Helper.m_bwpConfiguration h
       /\ Helper.m_pathlossModelType h' = Helper.m_pathlossModelType h
       /\ Helper.m_channelModelType h' = Helper.m_channelModelType h
       /\ Helper.m_initialized h' = Helper.m_initialized h
       /\ (keys_are_ids (Helper.m_bwpConfiguration h) ->
           keys_are_ids (Helper.m_bwpConfiguration h')).
Proof.
  revert h. induction parts as [|[id bwpRepr] parts IH]; intros h.
  - split; [split; [intros _; split; constructor|done]|].
    intros h' [= <-]. simpl. by rewrite (left_id_L ∅ (∪)).
  - simpl AddBandwidthPart_all. unfold Helper.AddBandwidthPart.
    rewrite fmap_cons, NoDup_cons, Forall_cons. simpl.
    case_bool_decide as Hold; simpl.
    { split; [|done]. split; [done|]. intros (_ & [Hnew _] & _).
      rewrite Hnew in Hold. by destruct Hold. }
    apply eq_None_not_Some in Hold.
    destruct (Z.eqb_spec id (Repr.m_id bwpRepr)) as [Hid|Hid]; simpl.
    2: { split; [|done]. split; [done|]. by intros (_ & [_ ?] & _). }
    set (h1 := Helper.mk _ _ _ _ _ _). destruct (IH h1) as [Hiff Hres]. split.
    + rewrite Hiff. unfold h1. simpl. split.
      * intros (Hnd & Hall). split_and!; try done.
        -- intros (p & Hp & Hin)%list_elem_of_fmap.
           pose proof (proj1 (Forall_forall _ _) Hall p Hin) as [Hnone _].
           simpl in Hnone. rewrite <- Hp in Hnone. by rewrite lookup_insert_eq in Hnone.
        -- eapply Forall_impl; [exact Hall|]. intros p [Hnone Hp]. split; [|done].
           destruct (decide (id = p.1)) as [Heq|Hne].
           ++ rewrite Heq, lookup_insert_eq in Hnone. done.
           ++ by rewrite lookup_insert_ne in Hnone.
      * intros ([Hnotin Hnd] & _ & Hall). split; [done|].
        apply Forall_forall. intros p Hin.
        pose proof (proj1 (Forall_forall _ _) Hall p Hin) as [Hnone Hp].
        split; [|done]. rewrite lookup_insert_ne; [done|].
        intros ->. apply Hnotin, list_elem_of_fmap. by exists p.
    + intros h' Hh'. destruct (Hres h' Hh') as (-> & -> & -> & -> & Hkeys).
      assert (is_Done (AddBandwidthPart_all h1 parts) = true) as Hdone by (by rewrite Hh').
      apply Hiff in Hdone as [_ Hall].
      unfold h1 in *. simpl in *. split_and!; try done.
      * destruct (list_to_map (M := gmap Z BandwidthPartRepresentation) parts !! id)
          as [r|] eqn:Hin.
        -- exfalso. apply elem_of_list_to_map_2 in Hin.
           pose proof (proj1 (Forall_forall _ _) Hall _ Hin) as [Hnone _].
           simpl in Hnone. by rewrite lookup_insert_eq in Hnone.
        -- by rewrite <- insert_union_l, <- insert_union_r.
      * intros Hk. apply Hkeys. by apply map_Forall_insert_2.
Qed.

(** ** [DoInitialize] *)

Lemma DoInitialize_conf_spec type next conf :
  match Helper.DoInitialize_conf type next conf with
  | Done (conf', _) => entry_supported type conf /\ brought_up conf conf'
  | Aborted _ => ~ entry_supported type conf
  end.
Proof.
  unfold Helper.DoInitialize_conf, entry_supported, brought_up, channels_given,
    channels_missing, pathloss_model_known.
  destruct conf as [id phyMac [ch|] [pr|] [ch3|]]; simpl;
    try (intros [(H1 & H2 & H3)|((H1 & H2 & H3) & _)];
         first [by destruct H1 | by destruct H2 | by destruct H3 | done]).
  - split; [left|]; split_and!; by eauto.
  - repeat case_bool_decide; simpl;
      try (destruct phyMac; [|done]; simpl;
           split; [right|]; split_and!; try done; eauto;
           by intros ([? ?] & _));
      try (intros [([? ?] & _)|(_ & Hk & Hp)]; [done|]; subst; simpl in *;
           first [by destruct Hk | by destruct Hp]).
Qed.

Lemma DoInitialize_loop_spec type entries config next :
  NoDup entries.*1 ->
  match Helper.DoInitialize_loop type entries config next with
  | Done (config', _) =>
      Forall (fun e => entry_supported type (snd e)) entries
      /\ (forall id, id ∉ entries.*1 -> config' !! id = config !! id)
      /\ (forall id conf, (id, conf) ∈ entries ->
            exists conf', config' !! id = Some conf' /\ brought_up conf conf')
  | Aborted _ => ~ Forall (fun e => entry_supported type (snd e)) entries
  end.
Proof.
  revert config next. induction entries as [|[id conf] entries IH]; intros config next Hnd.
  - simpl. split_and!; [done|done|]. by intros id conf ?%elem_of_nil.
  - rewrite fmap_cons in Hnd. apply NoDup_cons in Hnd as [Hnotin Hnd]. simpl.
    pose proof (DoInitialize_conf_spec type next conf) as Hconf.
    destruct (Helper.DoInitialize_conf type next conf) as [[conf' next']|]; simpl.
    2: { intros [? _]%Forall_cons. done. }
    destruct Hconf as [Hsup Hup].
    specialize (IH (<[id := conf']> config) next' Hnd).
    destruct (Helper.DoInitialize_loop _ _ _ _) as [[config' next'']|].
    2: { intros [_ ?]%Forall_cons. done. }
    destruct IH as (Hall & Hout & Hin). split_and!.
    + by apply Forall_cons.
    + intros k Hk. rewrite ?fmap_cons in Hk. apply not_elem_of_cons in Hk as [Hne Hk].
      rewrite (Hout k Hk). by apply lookup_insert_ne.
    + intros k c [Heq|Hk]%elem_of_cons.
      * injection Heq as -> ->. exists conf'. split; [|done].
        rewrite (Hout id Hnotin). apply lookup_insert_eq.
      * by apply Hin.
Qed.

(** X21.  What [DoInitialize] accepts and what it leaves.  It succeeds exactly
    when a pathloss model is set, the channel model is
    "ns3::MmWave3gppChannel", and every bandwidth part (the BWP 0 that it adds
    when none was configured) comes with its three channel objects or with
    none of them, the pathloss model being one of the two 3GPP ones and the
    [MmWavePhyMacCommon] present in that case.  The helper is then
    initialised, the bandwidth parts are the same ones under the same keys,
    each with its three objects (its own when it came with them), and if every
    key was the id of its entry, it still is. *)
Theorem DoInitialize_accepts (h : Helper.MmWaveHelper) :
  (is_Done (Helper.DoInitialize h) = true <->
   Helper.m_pathlossModelType h <> ""%string
   /\ Helper.m_channelModelType h = "ns3::MmWave3gppChannel"%string
   /\ map_Forall (fun _ conf => entry_supported (Helper.m_pathlossModelType h) conf)
        (configuration_or_default h))
  /\ forall h', Helper.DoInitialize h = Done h' ->
       Helper.m_initialized h' = true
       /\ is_Some (Helper.m_phyStats h')
       /\ (forall id,
             match configuration_or_default h !! id with
             | Some conf => exists conf', Helper.m_bwpConfiguration h' !! id = Some conf'
                                          /\ brought_up conf conf'
             | None => Helper.m_bwpConfiguration h' !! id = None
             end)
       /\ (keys_are_ids (Helper.m_bwpConfiguration h) ->
           keys_are_ids (Helper.m_bwpConfiguration h')).
Proof.
  unfold Helper.DoInitialize.
  destruct (decide (Helper.m_pathlossModelType h = ""%string)) as [Hpath|Hpath].
  { rewrite (bool_decide_eq_true_2 (Helper.m_pathlossModelType h = ""%string)) by done.
    simpl. split; [|done]. split; [done|]. by intros [? _]. }
  rewrite (bool_decide_eq_false_2 (Helper.m_pathlossModelType h = ""%string)) by done.
  simpl.
  destruct (decide (Helper.m_channelModelType h = "ns3::MmWave3gppChannel"%string))
    as [Hchan|Hchan].
  2: { rewrite (bool_decide_eq_false_2 (Helper.m_channelModelType h = _)) by done. simpl.
       split; [|done]. split; [done|]. by intros (_ & ? & _). }
  rewrite (bool_decide_eq_true_2 (Helper.m_channelModelType h = _)) by done. simpl.
  unfold configuration_or_default.
  set (config0 := if bool_decide (Helper.m_bwpConfiguration h = ∅)
                  then {[ 0 := Repr.mk 0 (Some (Helper.next_object h)) None None None ]}
                  else Helper.m_bwpConfiguration h).
  set (next0 := if bool_decide (Helper.m_bwpConfiguration h = ∅)
                then (Helper.next_object h + 1)%positive else Helper.next_object h).
  assert ((if bool_decide (Helper.m_bwpConfiguration h = ∅)
           then ({[ 0 := Repr.mk 0 (Some (Helper.next_object h)) None None None ]},
                 (Helper.next_object h + 1)%positive)
           else (Helper.m_bwpConfiguration h, Helper.next_object h)) = (config0, next0)) as ->.
  { unfold config0, next0. by case_bool_decide. }
  assert (config0 <> ∅) as Hne.
  { unfold config0. case_bool_decide; [|done]. apply insert_non_empty. }
  assert (keys_are_ids (Helper.m_bwpConfiguration h) -> keys_are_ids config0) as Hkeys0.
  { unfold config0. case_bool_decide; [|done]. intros _. by apply map_Forall_singleton. }
  rewrite bool_decide_eq_false_2 by done. simpl.
  pose proof (DoInitialize_loop_spec (Helper.m_pathlossModelType h) (map_to_list config0)
                config0 next0 (NoDup_fst_map_to_list _)) as Hloop.
  destruct (Helper.DoInitialize_loop _ _ _ _) as [[config' next']|]; simpl.
  - destruct Hloop as (Hall & Hout & Hin).
    assert (forall id,
              match config0 !! id with
              | Some conf => exists conf', config' !! id = Some conf' /\ brought_up conf conf'
              | None => config' !! id = None
              end) as Hmap.
    { intros id. destruct (config0 !! id) as [conf|] eqn:Hid.
      - apply Hin. by apply elem_of_map_to_list.
      - rewrite Hout; [done|]. intros ([k c] & -> & Hk%elem_of_map_to_list)%list_elem_of_fmap.
        simpl in Hid. congruence. }
    split.
    + split; [|done]. intros _. split_and!; try done.
      intros id conf Hid. apply elem_of_map_to_list in Hid.
      exact (proj1 (Forall_forall _ _) Hall _ Hid).
    + intros h' [= <-]. simpl. split_and!; try done.
      intros Hk id conf' Hid. specialize (Hmap id). specialize (Hkeys0 Hk id).
      destruct (config0 !! id) as [conf|]; [|congruence].
      destruct Hmap as (c' & Hc' & Hid' & _). rewrite Hid in Hc'. injection Hc' as <-.
      rewrite Hid'. by apply Hkeys0.
  - split; [|done]. split; [done|]. intros (_ & _ & Hall). exfalso. apply Hloop.
    apply Forall_forall. intros [id conf] Hin%elem_of_map_to_list. by apply (Hall id).
Qed.

(** A helper with the defaults of its attributes does not initialise; with
    the 3GPP models and no bandwidth part it comes up with BWP 0. *)
Example DoInitialize_defaults :
  Helper.DoInitialize default_helper = Aborted WrongChannelModel
  /\ Helper.m_bwpConfiguration <$> Helper.DoInitialize helper_3gpp
     = Done {[ 0 := Repr.mk 0 (Some 1%positive) (Some 2%positive) (Some 3%positive)
                      (Some 4%positive) ]}.
Proof. split; vm_compute; reflexivity. Qed.

(** * [MmWaveDrbActivator] *)

Lemma ActivateCallback_all_active bearer imsi callbacks r :
  Drb.ActivateCallback_all (Drb.mk true bearer imsi) callbacks = Done r ->
  r = (Drb.mk true bearer imsi, []).
Proof.
  revert r. induction callbacks as [|cb callbacks IH]; intros r H; simpl in H.
  - by injection H as <-.
  - unfold Drb.ActivateDrb in H. simpl in H.
    destruct (Drb.ActivateCallback_all _ callbacks) as [r'|]; [|done].
    rewrite (IH r' eq_refl) in H. simpl in H. by injection H as <-.
Qed.

(** X22.  An activator sets up its data radio bearer once.  Over any firings of
    the trace source that end without a failed assertion, it hands one
    request to the eNB at the first firing for its own IMSI and none at the
    others: the request carries the RNTI that the RRC of the UE holds at
    that time (not the RNTI of the firing), the bearer of the activator,
    and bearer id 0; with no firing for its IMSI the activator stays inactive
    and hands over nothing. *)
Theorem ActivateDrb_once bearer imsi callbacks a requests :
  Drb.ActivateCallback_all (Drb.new bearer imsi) callbacks = Done (a, requests) ->
  match list_find (fun cb => Drb.cb_imsi cb = imsi) callbacks with
  | Some (_, cb) =>
      a = Drb.mk true bearer imsi
      /\ requests = [Drb.mkParams (Drb.ueRrc_GetRnti (Drb.surroundings cb)) bearer 0 0]
  | None => a = Drb.new bearer imsi /\ requests = []
  end.
Proof.
  unfold Drb.new. revert a requests.
  induction callbacks as [|cb callbacks IH]; intros a requests H; simpl in H.
  - by injection H as <- <-.
  - unfold Drb.ActivateDrb in H. simpl in H. simpl list_find.
    destruct (Z.eqb_spec (Drb.cb_imsi cb) imsi) as [Heq|Hne].
    + rewrite decide_True by done. simpl.
      apply bind_Done_inv in H as ([a' reqs] & Hfirst & H).
      apply bind_Done_inv in Hfirst as (_ & _ & Hfirst).
      apply bind_Done_inv in Hfirst as (_ & _ & Hfirst).
      destruct (Drb.ueManager_connected _ _) as [connected|]; [|done].
      apply bind_Done_inv in Hfirst as (_ & _ & Hfirst). injection Hfirst as <- <-.
      apply bind_Done_inv in H as ([a'' reqs'] & Hrest & H). injection H as <- <-.
      apply ActivateCallback_all_active in Hrest. by injection Hrest as -> ->.
    + rewrite decide_False by done. simpl in H.
      destruct (Drb.ActivateCallback_all _ callbacks) as [[a' reqs']|] eqn:Hrest; [|done].
      simpl in H. injection H as <- <-. specialize (IH a' reqs' eq_refl).
      destruct (list_find _ callbacks) as [[i cb']|]; simpl; done.
Qed.

Lemma ActivateDrb_once_witness :
  Drb.ActivateCallback_all (Drb.new 3 7) three_firings
  = Done (Drb.mk true 3 7, [Drb.mkParams 5 3 0 0])
  /\ match list_find (fun cb => Drb.cb_imsi cb = 7) three_firings with
     | Some (_, cb) =>
         Drb.mk true 3 7 = Drb.mk true 3 7
         /\ [Drb.mkParams 5 3 0 0]
            = [Drb.mkParams (Drb.ueRrc_GetRnti (Drb.surroundings cb)) 3 0 0]
     | None => Drb.mk true 3 7 = Drb.new 3 7 /\ [Drb.mkParams 5 3 0 0] = []
     end.
Proof.
  split; [reflexivity|].
  exact (ActivateDrb_once 3 7 three_firings (Drb.mk true 3 7) [Drb.mkParams 5 3 0 0] eq_refl).
Defined.

(** * Lookups on a validated topology *)

Lemma CheckBwpsInCc_Ok_active cc cc' :
  CheckBwpsInCc cc = Ok cc' ->
  Cc.m_activeBwp cc' ∈ Bwp.m_bwpId <$> Cc.m_bwp cc'.
Proof.
  unfold CheckBwpsInCc. intros H.
  set (byFreq := std_sort BwpFrequencyCompare (Cc.m_bwp cc)) in *.
  apply bind_Ok_inv in H as (_ & _ & H).
  destruct (decide (Forall (bwp_inside_cc cc) byFreq)) as [Hin|Hout];
    [|by rewrite CheckBwpsInCc_scan_outside in H].
  rewrite CheckBwpsInCc_scan_inside in H by done. simpl in H.
  apply bind_Ok_inv in H as (_ & _ & H).
  destruct (existsb (fun a => Bwp.m_bwpId a =? Cc.m_activeBwp cc) byFreq) eqn:Hact;
    [|done].
  simpl in H. do 2 (apply bind_Ok_inv in H as (_ & _ & H)). injection H as <-. simpl.
  apply existsb_bwpId in Hact. by rewrite std_sort_Permutation.
Qed.

Lemma ValidateOperationBand_Ok_carriers band band' :
  ValidateOperationBand band = Ok band' ->
  Band.m_numCarriers band' = Z.of_nat (length (Band.m_cc band'))
  /\ Forall (fun cc => Cc.m_activeBwp cc ∈ Bwp.m_bwpId <$> Cc.m_bwp cc) (Band.m_cc band').
Proof.
  unfold ValidateOperationBand. intros H.
  apply bind_Ok_inv in H as (_ & _ & H).
  apply bind_Ok_inv in H as ([] & Hnum & H).
  apply bind_Ok_inv in H as (contiguous & _ & H).
  apply bind_Ok_inv in H as (ccs' & Hccs & H). injection H as <-. simpl.
  unfold abort_if in Hnum.
  destruct (Z.eqb_spec (Band.m_numCarriers band) (Z.of_nat (length (Band.m_cc band))))
    as [Heq|]; [|done].
  apply for_each_Ok_Forall2 in Hccs. split.
  - rewrite Heq, <- (Forall2_length _ _ _ Hccs). by rewrite std_sort_length.
  - clear -Hccs. induction Hccs as [|cc cc' l l' Hcc _ IH]; constructor; [|done].
    by apply CheckBwpsInCc_Ok_active in Hcc.
Qed.

Lemma ValidateCaBwpConfiguration_outer_bands seen todo numAggrCcs numPrimaryCcs r :
  ValidateCaBwpConfiguration_outer seen todo numAggrCcs numPrimaryCcs = Ok r ->
  exists bands', fst (fst r) = seen ++ bands'
                 /\ Forall2 (fun b b' => ValidateOperationBand b = Ok b') todo bands'.
Proof.
  revert seen numAggrCcs numPrimaryCcs.
  induction todo as [|a rest IH]; intros seen aggr prim H; simpl in H.
  - injection H as <-. exists []. simpl. by rewrite app_nil_r.
  - apply bind_Ok_inv in H as (a' & Hval & H).
    apply bind_Ok_inv in H as (p1 & _ & H).
    apply IH in H as (bands' & -> & Hrest). exists (a' :: bands').
    split; [by rewrite <- (assoc_L (++))|]. by constructor.
Qed.

(** X10.  A topology that has passed [ValidateCaBwpConfiguration] answers every
    lookup by position: for the carrier at a position of a band,
    [GetComponentCarrier] returns the carrier, [GetActiveBwpInfo] returns the
    BWP of that carrier whose id is the active one, and [GetCarrierBandwidth]
    its bandwidth; none of them aborts. *)
Theorem lookups_on_validated_topology MAX_CC_INTER_BAND s s' bi ci cc :
  ValidateCaBwpConfiguration MAX_CC_INTER_BAND s = Ok s' ->
  carrier_at s' bi ci = Some cc ->
  GetComponentCarrier s' (Z.of_nat bi) (Z.of_nat ci) = Done cc
  /\ exists bwp,
       GetActiveBwpInfo s' (Z.of_nat bi) (Z.of_nat ci) = Ok bwp
       /\ Bwp.m_bwpId bwp = Cc.m_activeBwp cc /\ bwp ∈ Cc.m_bwp cc
       /\ GetCarrierBandwidth s' (Z.of_nat bi) (Z.of_nat ci) = Ok (Bwp.m_bandwidth bwp).
Proof.
  unfold ValidateCaBwpConfiguration. intros H Hcc.
  apply bind_Ok_inv in H as ([] & Hnum & H). apply bind_Ok_inv in H as ([] & Hmax & H).
  apply bind_Ok_inv in H as ([[bands numAggrCcs] numPrimaryCcs] & Houter & H).
  do 2 (apply bind_Ok_inv in H as (_ & _ & H)). injection H as <-.
  apply ValidateCaBwpConfiguration_outer_bands in Houter as (bands' & Hbands & Hvalid).
  simpl in Hbands. subst bands.
  unfold abort_if in Hnum, Hmax.
  destruct (Z.eqb_spec (m_numBands s) (Z.of_nat (length (m_bands s)))) as [Hn|]; [|done].
  destruct (Z.gtb_spec (m_numBands s) (m_maxBands s)) as [|Hm]; [done|].
  pose proof (Forall2_length _ _ _ Hvalid) as Hlen.
  unfold carrier_at in Hcc. simpl in Hcc.
  destruct (bands' !! bi) as [band'|] eqn:Hbi; [|done]. simpl in Hcc.
  destruct (Forall2_lookup_r _ _ _ _ _ Hvalid Hbi) as (band & _ & Hband).
  apply ValidateOperationBand_Ok_carriers in Hband as [Hcarriers Hactive].
  pose proof (Forall_lookup_1 _ _ _ _ Hactive Hcc) as Hin. simpl in Hin.
  pose proof (lookup_lt_Some _ _ _ Hbi) as Hbi_lt.
  pose proof (lookup_lt_Some _ _ _ Hcc) as Hci_lt.
  destruct (find_bwp_is_Some _ _ Hin) as [bwp Hfind].
  assert (GetActiveBwpInfo (set_bands s bands') (Z.of_nat bi) (Z.of_nat ci) = Ok bwp) as Hget.
  { unfold GetActiveBwpInfo. simpl.
    rewrite bool_decide_eq_false_2 by (intros Hnil; rewrite Hnil in Hbi_lt; simpl in Hbi_lt; lia).
    simpl.
    destruct (Z.geb_spec (Z.of_nat bi) (m_maxBands s)); [lia|].
    destruct (Z.geb_spec (Z.of_nat bi) (Z.of_nat (length bands'))); [lia|].
    simpl. rewrite !Nat2Z.id, (at_Some _ _ _ Hbi). simpl.
    rewrite bool_decide_eq_false_2 by (intros Hnil; rewrite Hnil in Hci_lt; simpl in Hci_lt; lia).
    simpl.
    destruct (Z.gtb_spec (Z.of_nat ci) (Band.m_numCarriers band' - 1)); [lia|].
    destruct (Z.gtb_spec (Z.of_nat ci) (Z.of_nat (length (Band.m_cc band')) - 1)); [lia|].
    simpl. rewrite (at_Some _ _ _ Hcc). simpl. by rewrite Hfind. }
  split.
  - unfold GetComponentCarrier. simpl.
    destruct (Z.geb_spec (Z.of_nat bi) (m_numBands s)); [lia|]. simpl.
    rewrite !Nat2Z.id, (at_Some _ _ _ Hbi). simpl.
    destruct (Z.leb_spec (Band.m_numCarriers band') (Z.of_nat ci)); [lia|]. simpl.
    by rewrite (at_Some _ _ _ Hcc).
  - exists bwp. destruct (find_bwp_Some _ _ _ Hfind) as [Hid Hmem].
    split_and!; try done. unfold GetCarrierBandwidth. by rewrite Hget.
Qed.

Lemma lookups_on_validated_topology_witness :
  exists s', ValidateCaBwpConfiguration 16 dual_bwp_topology = Ok s'
    /\ exists cc, carrier_at s' 0 0 = Some cc
    /\ GetComponentCarrier s' 0 0 = Done cc
    /\ exists bwp,
         GetActiveBwpInfo s' 0 0 = Ok bwp
         /\ Bwp.m_bwpId bwp = Cc.m_activeBwp cc /\ bwp ∈ Cc.m_bwp cc
         /\ GetCarrierBandwidth s' 0 0 = Ok (Bwp.m_bandwidth bwp).
Proof.
  eexists. split; [reflexivity|]. eexists. split; [reflexivity|].
  exact (lookups_on_validated_topology 16 dual_bwp_topology _ 0 0 _ eq_refl eq_refl).
Defined.

(** * The general statements above at the configurations of the examples *)

Lemma GetCcContiguousnessState_always_contiguous_witness :
  GetCcContiguousnessState gapped_band 1 = Ok CONTIGUOUS.
Proof.
  assert (Forall cc_well_formed (Band.m_cc gapped_band)) as H1.
  { simpl. repeat (apply Forall_cons_2; [by vm_compute|]). apply Forall_nil_2. }
  assert (0 <= 1) as H2 by lia.
  assert (1 <= Band.m_numCarriers gapped_band
          <= Z.of_nat (length (Band.m_cc gapped_band))) as H3 by (simpl; lia).
  exact (GetCcContiguousnessState_always_contiguous gapped_band 1 H1 H2 H3).
Defined.

Lemma CheckBwpsInCc_Ok_iff_witness :
  is_Ok (CheckBwpsInCc (cc_on 0 0 400000000 PRIMARY)) = true
  <-> CarrierBwpsValid (cc_on 0 0 400000000 PRIMARY).
Proof.
  assert (length (Cc.m_bwp (cc_on 0 0 400000000 PRIMARY)) < 256)%nat as H1 by (simpl; lia).
  assert (Forall (fun a => 0 <= Bwp.m_bandwidth a) (Cc.m_bwp (cc_on 0 0 400000000 PRIMARY)))
    as H2 by (simpl; repeat (apply Forall_cons_2; [by vm_compute|]); apply Forall_nil_2).
  assert (bwp_bandwidth_sum (Cc.m_bwp (cc_on 0 0 400000000 PRIMARY)) < 4294967296)
    as H3 by (simpl; lia).
  exact (CheckBwpsInCc_Ok_iff (cc_on 0 0 400000000 PRIMARY) H1 H2 H3).
Defined.

Lemma GetAggregatedBandwidth_exact_witness :
  GetAggregatedBandwidth dual_bwp_topology = active_bandwidth_sum dual_bwp_topology.
Proof.
  assert (0 <= active_bandwidth_sum dual_bwp_topology < 4294967296) as H.
  { change (active_bandwidth_sum dual_bwp_topology) with 100000000. lia. }
  exact (GetAggregatedBandwidth_exact dual_bwp_topology dual_bwp_topology_ids_unique H).
Defined.

Lemma GetAggregatedBandwidth_after_ChangeActiveBwp_witness :
  exists s', ChangeActiveBwp dual_bwp_topology 0 0 1 = Ok s'
    /\ stored_bwps s' = stored_bwps dual_bwp_topology
    /\ exists bi ci cc bwp,
         carrier_at dual_bwp_topology bi ci = Some cc
         /\ find_bwp 1 (Cc.m_bwp cc) = Some bwp
         /\ GetAggregatedBandwidth s'
            = uint32 (active_bandwidth_sum dual_bwp_topology - active_bandwidth cc
                      + Bwp.m_bandwidth bwp).
Proof.
  eexists. split; [reflexivity|].
  apply (GetAggregatedBandwidth_after_ChangeActiveBwp dual_bwp_topology 0 0 1 _
           dual_bwp_topology_ids_unique eq_refl).
Defined.

Lemma ChangeActiveBwp_succeeds_iff_witness :
  ChangeActiveBwp dual_bwp_topology 0 0 7 = Fail WrongChangeRequest.
Proof.
  apply (proj2 (ChangeActiveBwp_succeeds_iff dual_bwp_topology 0 0 7)). reflexivity.
Defined.
